(** * wwt_api_client.constellations: a shallow embedding

    The development follows the three source modules of the package:

    - [constellations/__init__.py]: [ClientConfig], [_strip_nulls_in_place],
      [CxClient];
    - [constellations/data.py]: the data classes of the wire protocol;
    - [constellations/handles.py]: [HandleClient].

    Python exceptions are values of type [exn]; a computation that can raise
    returns [exn + A].  A Python [str] is modelled by the [string] of its
    UTF-8 encoding; all the literals the code searches for are ASCII, so
    the byte-wise reading of [in], [endswith] and slicing agrees with
    Python's, and [int] reads the code points back from the bytes. *)

From Stdlib Require Import ZArith Lia Bool List Ascii String Floats.
From Stdlib Require Import Numbers.DecimalString Numbers.DecimalZ.
From stdpp Require Import base option list gmap strings.

Import ListNotations.
Local Open Scope string_scope.
Local Open Scope list_scope.

(** ** Exceptions *)

(** The exception classes that the package can raise or let escape.
    [Exception] is the bare base class, as raised by [new_default] and
    [add_scene_from_place]; [HTTPError] is the [RequestException] that
    [raise_for_status] raises; [ValidationError] is marshmallow's, raised by
    [schema().load]; [OtherError] stands for whatever else a collaborator
    raises (a connection failure, say). *)
Inductive exn : Type :=
| Exception (msg : string)
| ValueError (msg : string)
| TypeError (msg : string)
| KeyError (key : string)
| AttributeError (msg : string)
| RecursionError
| JSONDecodeError
| HTTPError (msg : string)
| ExpressionError (msg : string)
| ValidationError (msg : string)
| AssertionError
| OverflowError
| OtherError (msg : string).

(** ** Python string primitives *)

Module PyStr.

(** [needle in s] *)
Fixpoint contains (needle s : string) : bool :=
  String.prefix needle s ||
  match s with
  | EmptyString => false
  | String _ s' => contains needle s'
  end.

(** [s.endswith(suffix)] *)
Fixpoint endswith (s suffix : string) : bool :=
  String.eqb s suffix ||
  match s with
  | EmptyString => false
  | String _ s' => endswith s' suffix
  end.

(** [s[:-1]] *)
Fixpoint drop_last (s : string) : string :=
  match s with
  | EmptyString => EmptyString
  | String c EmptyString => EmptyString
  | String c s' => String c (drop_last s')
  end.

(** [str(n)] for an integer *)
Definition of_Z (n : Z) : string := NilZero.string_of_int (Z.to_int n).

End PyStr.

(** ** [ClientConfig] *)

Record ClientConfig : Type := mkClientConfig {
  id_provider_url : string;
  client_id : string;
  api_url : string
}.

(** [os.environ]: a finite map from variable names to values. *)
Abbreviation environ := (gmap string string).

(** [os.environ.get(name, dflt)]; [dflt] is [None] when the call gives no
    default. *)
Definition environ_get {D : Type} (env : environ) (name : string)
    (dflt : D) (some : string -> D) : D :=
  match env !! name with
  | Some v => some v
  | None => dflt
  end.

Definition new_default (env : environ) : exn + ClientConfig :=
  let api_url := environ_get env "NUXT_PUBLIC_API_URL" None Some in
  let client_id := environ_get env "WWT_API_CLIENT_ID" "cli-tool" id in
  match api_url with
  | None =>
      inl (Exception "until WWT Constellations is released, you must set the environment variable NUXT_PUBLIC_API_URL")
  | Some api_url =>
      let default_id_base :=
        if PyStr.contains "localhost" api_url then
          Some "http://localhost:8080/"
        else if PyStr.contains "wwtelescope.dev" api_url then
          Some "https://wwtelescope.dev/auth/"
        else None in
      let api_url :=
        if PyStr.endswith api_url "/" then PyStr.drop_last api_url
        else api_url in
      let id_base := environ_get env "NUXT_PUBLIC_KEYCLOAK_URL" None Some in
      let id_base :=
        match id_base with
        | None => environ_get env "KEYCLOAK_URL" default_id_base Some
        | Some _ => id_base
        end in
      match id_base with
      | None =>
          inl (Exception "unable to infer the WWT Constellations Keycloak URL; set the environment variable NUXT_PUBLIC_KEYCLOAK_URL")
      | Some id_base =>
          let id_base :=
            if negb (PyStr.endswith id_base "/") then id_base +:+ "/"
            else id_base in
          inr {| id_provider_url := id_base +:+ "realms/constellations";
                 client_id := client_id;
                 api_url := api_url |}
      end
  end.

Definition new_dev : ClientConfig :=
  {| id_provider_url := "https://wwtelescope.dev/auth/realms/constellations";
     client_id := "cli-tool";
     api_url := "https://api.wwtelescope.dev/" |}.

(** Environments of the documented kinds. *)
Definition sample_env_local : environ :=
  {[ "NUXT_PUBLIC_API_URL" := "http://localhost:7000" ]}.

Definition sample_env_dev : environ :=
  {[ "NUXT_PUBLIC_API_URL" := "https://api.wwtelescope.dev/" ]}.

Definition sample_env_both : environ :=
  {[ "NUXT_PUBLIC_API_URL" := "http://wwtelescope.dev.localhost:7000" ]}.

Definition sample_env_other : environ :=
  {[ "NUXT_PUBLIC_API_URL" := "https://example.org/api" ]}.

Definition sample_env_keycloak : environ :=
  {[ "NUXT_PUBLIC_API_URL" := "https://example.org/api";
     "NUXT_PUBLIC_KEYCLOAK_URL" := "https://id.example.org";
     "WWT_API_CLIENT_ID" := "my-tool" ]}.

Definition sample_env_slashes : environ :=
  {[ "NUXT_PUBLIC_API_URL" := "http://localhost:7000//" ]}.

(** ** The object store

    [_strip_nulls_in_place] mutates the dictionary it is given, and the
    dictionaries nested in it, in place.  Dictionaries and lists are
    therefore objects of a store, addressed by location; a value is either
    immediate or a reference to such an object.  Two references to the same
    location are the same Python object. *)

Abbreviation loc := nat.

Inductive val : Type :=
| VNone
| VBool (b : bool)
| VInt (n : Z)
| VFloat (x : float)
| VStr (s : string)
| VRef (l : loc).

(** A [dict] keeps its items in insertion order; its keys are strings here,
    as in every dictionary made by [to_dict()] or [json()]. *)
Inductive obj : Type :=
| ODict (items : list (string * val))
| OList (elems : list val).

Abbreviation store := (list obj).

(** [val is None] *)
Definition is_None (v : val) : bool :=
  match v with
  | VNone => true
  | _ => false
  end.

(** [del d[key]] on the items of a dictionary; [None] stands for the
    [KeyError] of a missing key. *)
Definition dict_del (key : string) (items : list (string * val))
  : option (list (string * val)) :=
  if existsb (fun p => String.eqb (fst p) key) items
  then Some (List.filter (fun p => negb (String.eqb (fst p) key)) items)
  else None.

(** The first loop of [_strip_nulls_in_place], over a snapshot of
    [d.items()]: [rec] is the recursive call, [keys_to_remove] the list
    being accumulated.  The dictionary under iteration cannot change during
    the loop unless it contains itself, and then the recursion does not
    return. *)
Fixpoint strip_items (rec : store -> loc -> exn + store)
    (items : list (string * val)) (h : store) (keys_to_remove : list string)
  : exn + (store * list string) :=
  match items with
  | [] => inr (h, keys_to_remove)
  | (key, v) :: items' =>
      match v with
      | VRef l =>
          match h !! l with
          | Some (ODict _) =>
              (* isinstance(val, dict) *)
              match rec h l with
              | inl e => inl e
              | inr h' => strip_items rec items' h' keys_to_remove
              end
          | _ => strip_items rec items' h keys_to_remove
          end
      | VNone => strip_items rec items' h (keys_to_remove ++ [key])
      | _ => strip_items rec items' h keys_to_remove
      end
  end.

(** The second loop: [for key in keys_to_remove: del d[key]]. *)
Fixpoint del_keys (h : store) (d : loc) (keys_to_remove : list string)
  : exn + store :=
  match keys_to_remove with
  | [] => inr h
  | key :: keys' =>
      match h !! d with
      | Some (ODict items) =>
          match dict_del key items with
          | Some items' => del_keys (<[d := ODict items']> h) d keys'
          | None => inl (KeyError key)
          end
      | _ => inl (TypeError "object does not support item deletion")
      end
  end.

(** [_strip_nulls_in_place(d)], the same function in [__init__.py] and in
    [data.py].  [depth] is the number of stack frames still available to
    the interpreter; the result is the mutated store and the returned
    reference. *)
Fixpoint _strip_nulls_in_place (depth : nat) (h : store) (d : loc)
  : exn + (store * loc) :=
  match depth with
  | O => inl RecursionError
  | S depth' =>
      match h !! d with
      | Some (ODict items) =>
          let rec h l :=
            match _strip_nulls_in_place depth' h l with
            | inl e => inl e
            | inr (h', _) => inr h'
            end in
          match strip_items rec items h [] with
          | inl e => inl e
          | inr (h1, keys_to_remove) =>
              match del_keys h1 d keys_to_remove with
              | inl e => inl e
              | inr h2 => inr (h2, d)
              end
          end
      | _ => inl (AttributeError "items")
      end
  end.

(** *** Shapes of stores *)

Definition is_dict (h : store) (l : loc) : Prop :=
  exists items, h !! l = Some (ODict items).

(** [c] is a dictionary held directly as a value of the dictionary [d]. *)
Definition dict_child (h : store) (d c : loc) : Prop :=
  exists items key,
    h !! d = Some (ODict items) /\ In (key, VRef c) items /\ is_dict h c.

(** Reachability through dictionary values only: the dictionaries nested,
    at any depth, in [d]. *)
Inductive nested_in (h : store) : loc -> loc -> Prop :=
| nested_here d : nested_in h d d
| nested_deeper d c e :
    dict_child h d c -> nested_in h c e -> nested_in h d e.

(** A dictionary of finite nesting: its keys are distinct, and so on for
    every dictionary nested in it.  A dictionary that contains itself, at
    any depth, is excluded; sharing is not. *)
Inductive finite_dict (h : store) : loc -> Prop :=
| finite_dict_intro d items :
    h !! d = Some (ODict items) ->
    NoDup (map fst items) ->
    (forall key c, In (key, VRef c) items -> is_dict h c -> finite_dict h c) ->
    finite_dict h d.

(** No value of the dictionary at [l] is [None]. *)
Definition no_None_at (h : store) (l : loc) : Prop :=
  forall items key v,
    h !! l = Some (ODict items) -> In (key, v) items -> v <> VNone.

(** A store with sharing and with a list of dictionaries:
    [d = {"a": None, "b": e, "c": [None, f], "n": 1, "e": e}],
    [e = {"x": None, "y": "s"}], [f = {"z": None}]. *)
Definition sample_store : store :=
  [ ODict [("a", VNone); ("b", VRef 1); ("c", VRef 2); ("n", VInt 1);
           ("e", VRef 1)];
    ODict [("x", VNone); ("y", VStr "s")];
    OList [VNone; VRef 3];
    ODict [("z", VNone)] ].

(** [d = {}; d["self"] = d; d["n"] = None] *)
Definition cyclic_store : store :=
  [ ODict [("self", VRef 0); ("n", VNone)] ].

(** *** What stripping leaves behind *)

(** The items of a dictionary without those whose value is [None]. *)
Definition clean (items : list (string * val)) : list (string * val) :=
  List.filter (fun p => negb (is_None (snd p))) items.

(** The keys bound to [None], in iteration order. *)
Definition keys_of_None (items : list (string * val)) : list string :=
  map fst (List.filter (fun p => is_None (snd p)) items).

(** The items whose key is not in [keys]. *)
Definition remove_keys (keys : list string) (items : list (string * val))
  : list (string * val) :=
  List.filter (fun p => negb (existsb (String.eqb (fst p)) keys)) items.

(** The object at [l] is the dictionary of [h] at [l], cleaned. *)
Definition cleaned_at (h h' : store) (l : loc) : Prop :=
  exists items, h !! l = Some (ODict items) /\ h' !! l = Some (ODict (clean items)).

(** [h'] is [h] with some of its dictionaries cleaned, in place. *)
Definition cleaned (h h' : store) : Prop :=
  forall l, h' !! l = h !! l \/ cleaned_at h h' l.

(** The recursive call of [_strip_nulls_in_place], whose returned reference
    the loop discards. *)
Definition strip_call (depth : nat) (h : store) (l : loc) : exn + store :=
  match _strip_nulls_in_place depth h l with
  | inl e => inl e
  | inr (h', _) => inr h'
  end.

(** What a call on [d] in store [h2] achieves, [h] being the store before
    any call: the dictionaries nested in [d] are cleaned and nothing else
    has changed. *)
Definition strip_post (h : store) (d : loc) (h2 h3 : store) : Prop :=
  cleaned h h3 /\
  (forall l, h3 !! l = h2 !! l \/ (nested_in h d l /\ cleaned_at h h3 l)) /\
  (forall e, nested_in h d e -> cleaned_at h h3 e).

(** The calls on the dictionaries held by [items] return and meet
    [strip_post], from any store that [h] has been cleaned to. *)
Definition child_ok (h : store) (items : list (string * val)) : Prop :=
  forall key c, In (key, VRef c) items -> is_dict h c ->
    forall h2, cleaned h h2 ->
      exists depth h3,
        _strip_nulls_in_place depth h2 c = inr (h3, c) /\
        strip_post h c h2 h3.

(** [l] is nested in a dictionary held by [items]. *)
Definition below (h : store) (items : list (string * val)) (l : loc) : Prop :=
  exists key c, In (key, VRef c) items /\ is_dict h c /\ nested_in h c l.

(** What the first loop achieves over [items], started in store [hc] with
    the accumulator [acc]. *)
Definition loop_post (h : store) (items : list (string * val)) (hc : store)
    (acc : list string) (depth : nat) (hr : store) : Prop :=
  strip_items (strip_call depth) items hc acc
    = inr (hr, acc ++ keys_of_None items) /\
  cleaned h hr /\
  (forall l, hr !! l = hc !! l \/ (below h items l /\ cleaned_at h hr l)) /\
  (forall key c e, In (key, VRef c) items -> is_dict h c ->
     nested_in h c e -> cleaned_at h hr e).

(** ** The data classes of [data.py]

    One module per class, so that fields keep their names.  A field of type
    [Optional[T]] is an [option]. *)

Module Data.

Module HandleInfo.
Record t := mk { handle : string; display_name : string }.
End HandleInfo.

Module HandlePermissions.
Record t := mk { handle : string; view_dashboard : bool }.
End HandlePermissions.

Module HandleUpdate.
Record t := mk { display_name : option string }.
End HandleUpdate.

Module HandleImageStats.
Record t := mk { count : Z }.
End HandleImageStats.

Module HandleSceneStats.
Record t := mk { count : Z; impressions : Z; likes : Z }.
End HandleSceneStats.

Module HandleStats.
Record t := mk {
  handle : string;
  images : HandleImageStats.t;
  scenes : HandleSceneStats.t
}.
End HandleStats.

Module ImageWwt.
Record t := mk {
  base_degrees_per_tile : float;
  bottoms_up : bool;
  center_x : float;
  center_y : float;
  file_type : string;
  offset_x : float;
  offset_y : float;
  projection : string;
  quad_tree_map : string;
  rotation : float;
  tile_levels : Z;
  width_factor : Z;
  thumbnail_url : string
}.
End ImageWwt.

Module ImageStorage.
Record t := mk { legacy_url_template : option string }.
End ImageStorage.

Module ImageSummary.
(** [id] travels as ["_id"]. *)
Record t := mk {
  id : string;
  handle_id : string;
  creation_date : string;
  note : string;
  storage : ImageStorage.t
}.
End ImageSummary.

Module ImageContentPermissions.
Record t := mk {
  copyright : string;
  credits : option string;
  license : string
}.

(** The constructor, that is the generated [__init__] followed by
    [__post_init__].  [validate] is
    [CX_LICENSING.validate(_, strict=True).errors] and [sanitize] is
    [CX_SANITIZER.sanitize]; both belong to other packages. *)
Definition new (validate : string -> list string)
    (sanitize : string -> string)
    (copyright : string) (credits : option string) (license : string)
  : exn + t :=
  let errors := validate license in
  match errors with
  | _ :: _ =>
      let msg := String.concat (String "010" "") errors in
      inl (ExpressionError ("Invalid SPDX license:" +:+ String "010" "" +:+ msg))
  | [] =>
      let credits :=
        match credits with
        | Some c => if String.eqb c "" then Some c else Some (sanitize c)
        | None => None
        end in
      inr {| copyright := copyright; credits := credits; license := license |}
  end.
End ImageContentPermissions.

Module ImageDisplayInfo.
Record t := mk { wwt : ImageWwt.t; storage : ImageStorage.t }.
End ImageDisplayInfo.

Module ImageInfo.
Record t := mk {
  id : string;
  handle_id : string;
  handle : HandleInfo.t;
  creation_date : string;
  wwt : ImageWwt.t;
  permissions : ImageContentPermissions.t;
  storage : ImageStorage.t;
  note : string
}.
End ImageInfo.

Module ImageUpdate.
Record t := mk {
  note : option string;
  permissions : option ImageContentPermissions.t
}.
End ImageUpdate.

Module ImageApiPermissions.
Record t := mk { id : string; edit : bool }.
End ImageApiPermissions.

Module ScenePlace.
Record t := mk {
  ra_rad : float;
  dec_rad : float;
  roll_rad : float;
  roi_height_deg : float;
  roi_aspect_ratio : float
}.

(** The names of the fields, none of which has a default. *)
Definition fields : list string :=
  ["ra_rad"; "dec_rad"; "roll_rad"; "roi_height_deg"; "roi_aspect_ratio"].

(** The value bound to [name] by a keyword call. *)
Definition kwarg (kwargs : list (string * float)) (name : string)
  : option float :=
  snd <$> List.find (fun kw => String.eqb (fst kw) name) kwargs.

(** The names of the missing arguments as the interpreter lists them:
    ['a'], ['a' and 'b'], ['a', 'b', and 'c']. *)
Fixpoint name_list (names : list string) : string :=
  match names with
  | [] => ""
  | [a] => "'" +:+ a +:+ "'"
  | [a; b] => "'" +:+ a +:+ "' and '" +:+ b +:+ "'"
  | [a; b; c] => "'" +:+ a +:+ "', '" +:+ b +:+ "', and '" +:+ c +:+ "'"
  | a :: names' => "'" +:+ a +:+ "', " +:+ name_list names'
  end.

(** The [__init__] that [@dataclass] generates, called with keyword
    arguments only: a keyword that names no field is refused, the first
    such keyword of the call being named; then a call that leaves fields
    without value is refused, the fields being counted and named in the
    order of their declaration. *)
Definition new (kwargs : list (string * float)) : exn + t :=
  match List.find (fun kw => negb (existsb (String.eqb (fst kw)) fields))
                  kwargs with
  | Some (name, _) =>
      inl (TypeError ("ScenePlace.__init__() got an unexpected keyword argument '"
                      +:+ name +:+ "'"))
  | None =>
      match kwarg kwargs "ra_rad", kwarg kwargs "dec_rad",
            kwarg kwargs "roll_rad", kwarg kwargs "roi_height_deg",
            kwarg kwargs "roi_aspect_ratio" with
      | Some ra, Some dec, Some roll, Some height, Some ratio =>
          inr {| ra_rad := ra; dec_rad := dec; roll_rad := roll;
                 roi_height_deg := height; roi_aspect_ratio := ratio |}
      | _, _, _, _, _ =>
          let missing :=
            List.filter
              (fun name => match kwarg kwargs name with
                           | Some _ => false
                           | None => true
                           end) fields in
          inl (TypeError
                 ("ScenePlace.__init__() missing "
                  +:+ PyStr.of_Z (Z.of_nat (length missing))
                  +:+ " required positional argument"
                  +:+ (if (length missing =? 1)%nat then "" else "s")
                  +:+ ": " +:+ name_list missing))
      end
  end.
End ScenePlace.

Module SceneImageLayer.
Record t := mk { image_id : string; opacity : float }.
End SceneImageLayer.

Module SceneContent.
Record t := mk { image_layers : option (list SceneImageLayer.t) }.
End SceneContent.

Module SceneImageLayerHydrated.
Record t := mk { image : ImageDisplayInfo.t; opacity : float }.
End SceneImageLayerHydrated.

Module SceneContentHydrated.
Record t := mk {
  background : option ImageDisplayInfo.t;
  image_layers : option (list SceneImageLayerHydrated.t)
}.
End SceneContentHydrated.

Module ScenePreviews.
Record t := mk { video : option string; thumbnail : option string }.
End ScenePreviews.

Module SceneHydrated.
Record t := mk {
  id : string;
  handle_id : string;
  handle : HandleInfo.t;
  creation_date : string;
  likes : Z;
  place : ScenePlace.t;
  content : SceneContentHydrated.t;
  text : string;
  previews : ScenePreviews.t
}.
End SceneHydrated.

Module SceneInfo.
Record t := mk {
  _id : string;
  creation_date : string;
  impressions : Z;
  likes : Z
}.
End SceneInfo.

Module ScenePermissions.
Record t := mk { id : string; edit : bool }.
End ScenePermissions.

Module SceneUpdate.
Record t := mk {
  outgoing_url : option string;
  place : option ScenePlace.t;
  text : option string
}.
End SceneUpdate.

End Data.

(** ** Builtins *)

(** [int(x)] on a float: truncation towards zero; [None] for an infinity
    or a NaN. *)
Definition float_trunc (x : float) : option Z :=
  match Prim2SF x with
  | S754_zero _ => Some 0%Z
  | S754_finite s m e =>
      let n := match e with
               | Zneg p => Z.shiftr (Zpos m) (Zpos p)
               | _ => Z.shiftl (Zpos m) e
               end in
      Some (if s then Z.opp n else n)
  | _ => None
  end.

(** [int(s)] on a [str], in base ten, as CPython 3.11 defines it
    ([PyLong_FromUnicodeObject], with the Unicode 14.0 tables of that
    release and its default limit on the number of digits). *)
Module PyInt.

Local Open Scope Z_scope.

Definition byte (c : ascii) : Z := Z.of_nat (nat_of_ascii c).

(** The payload of a continuation byte of UTF-8. *)
Definition continuation (c : ascii) : option Z :=
  let b := byte c in
  if (128 <=? b) && (b <? 192) then Some (b - 128) else None.

(** The code points of a [str], read from its UTF-8 encoding; [None] for
    bytes that encode no [str] (a stray continuation byte, an overlong
    form, a surrogate, a value above 0x10FFFF). *)
Fixpoint code_points (s : string) : option (list Z) :=
  match s with
  | EmptyString => Some []
  | String c0 s1 =>
      let b0 := byte c0 in
      if b0 <? 128 then cons b0 <$> code_points s1
      else if b0 <? 194 then None
      else if b0 <? 224 then
        match s1 with
        | String c1 s2 =>
            match continuation c1 with
            | Some b1 => cons ((b0 - 192) * 64 + b1) <$> code_points s2
            | None => None
            end
        | _ => None
        end
      else if b0 <? 240 then
        match s1 with
        | String c1 (String c2 s3) =>
            match continuation c1, continuation c2 with
            | Some b1, Some b2 =>
                let cp := (b0 - 224) * 4096 + b1 * 64 + b2 in
                if (cp <? 2048) || ((55296 <=? cp) && (cp <=? 57343)) then None
                else cons cp <$> code_points s3
            | _, _ => None
            end
        | _ => None
        end
      else if b0 <? 245 then
        match s1 with
        | String c1 (String c2 (String c3 s4)) =>
            match continuation c1, continuation c2, continuation c3 with
            | Some b1, Some b2, Some b3 =>
                let cp := (b0 - 240) * 262144 + b1 * 4096 + b2 * 64 + b3 in
                if (cp <? 65536) || (1114111 <? cp) then None
                else cons cp <$> code_points s4
            | _, _, _ => None
            end
        | _ => None
        end
      else None
  end.

(** The white space that [int] skips around a literal: [Py_ISSPACE] for
    the ASCII characters, which leaves out the separators 0x1C to 0x1F
    although [str.isspace] holds of them, and [Py_UNICODE_ISSPACE] for the
    others. *)
Definition is_space (c : Z) : bool :=
  ((9 <=? c) && (c <=? 13)) || (c =? 32)
  || (c =? 133) || (c =? 160) || (c =? 5760)
  || ((8192 <=? c) && (c <=? 8202))
  || (c =? 8232) || (c =? 8233) || (c =? 8239) || (c =? 8287)
  || (c =? 12288).

(** The code points of the digits zero of Unicode 14.0: the decimal digits
    are the ten code points from each of them on. *)
Definition decimal_zeros : list Z :=
  [48; 1632; 1776; 1984; 2406; 2534; 2662; 2790; 2918; 3046; 3174; 3302;
   3430; 3558; 3664; 3792; 3872; 4160; 4240; 6112; 6160; 6470; 6608; 6784;
   6800; 6992; 7088; 7232; 7248; 42528; 43216; 43264; 43472; 43504; 43600;
   44016; 65296; 66720; 68912; 69734; 69872; 69942; 70096; 70384; 70736;
   70864; 71248; 71360; 71472; 71904; 72016; 72784; 73040; 73120; 92768;
   92864; 93008; 120782; 120792; 120802; 120812; 120822; 123200; 123632;
   125264; 130032].

(** [Py_UNICODE_TODECIMAL] *)
Definition digit (c : Z) : option Z :=
  match List.find (fun zero => (zero <=? c) && (c <? zero + 10))
                  decimal_zeros with
  | Some zero => Some (c - zero)
  | None => None
  end.

Fixpoint lstrip (l : list Z) : list Z :=
  match l with
  | c :: l' => if is_space c then lstrip l' else l
  | [] => []
  end.

Definition strip (l : list Z) : list Z :=
  List.rev (lstrip (List.rev (lstrip l))).

(** Decimal digits, with single underscores allowed between digits: the
    value and the number of digits. *)
Fixpoint digits (l : list Z) (acc : Z) (count : nat) (after_digit : bool)
  : option (Z * nat) :=
  match l with
  | [] => if after_digit then Some (acc, count) else None
  | c :: l' =>
      match digit c with
      | Some k => digits l' (10 * acc + k) (S count) true
      | None =>
          if (c =? 95) && after_digit then digits l' acc count false
          else None
      end
  end.

(** [sys.int_info.default_max_str_digits] *)
Definition max_str_digits : nat := 4300.

(** The literal: white space, a sign, digits, white space.  A literal of
    more than [max_str_digits] digits is refused. *)
Definition of_code_points (l : list Z) : option Z :=
  let l := strip l in
  let negative := match l with
                  | c :: _ => c =? 45
                  | [] => false
                  end in
  let l := match l with
           | c :: l' => if (c =? 45) || (c =? 43) then l' else l
           | [] => l
           end in
  match digits l 0 0%nat false with
  | Some (n, count) =>
      if (count <=? max_str_digits)%nat
      then Some (if negative then - n else n)
      else None
  | None => None
  end.

Definition of_string (s : string) : option Z :=
  match code_points s with
  | Some l => of_code_points l
  | None => None
  end.

End PyInt.

(** [assert b], the interpreter running without [-O] *)
Definition py_assert (b : bool) : exn + unit :=
  if b then inr tt else inl AssertionError.

(** [try: body / except Exception: handler]; every exception of [exn] is a
    subclass of [Exception]. *)
Definition try_except {A : Type} (body : exn + A) (handler : exn -> exn + A)
  : exn + A :=
  match body with
  | inl e => handler e
  | inr a => inr a
  end.

(** ** HTTP exchanges *)

(** A call of [OpenIDCClient.send_request], with the keyword arguments that
    the package uses; a keyword that a call leaves out is [None] (the
    library then takes ["POST"] for [http_method]). *)
Record request : Type := mkRequest {
  req_url : string;
  req_new_token : bool;
  req_scopes : list string;
  req_http_method : option string;
  req_params : option (list (string * Z));
  req_json : option (store * loc)
}.

(** What the package reads of a [requests.Response]. *)
Record Response : Type := mkResponse {
  status_code : Z;
  reason : string;
  url : string;
  text : string
}.

(** The collaborators of the package: the token client and transport, the
    JSON parser of [requests], and some builtins. *)
Class Collaborators : Type := {
  (** [OpenIDCClient.send_request], which may answer according to the
      requests made before *)
  send_request : list request -> request -> exn + Response;
  (** [Response.json()]: a freshly built value *)
  Response_json : Response -> exn + (store * val);
  (** [urllib.parse.quote] *)
  quote : string -> string;
  (** [repr] *)
  repr : val -> string;
  (** the message of the exception that [int] raises on a string or on a
      value that is no number, which quotes the value or names its type *)
  int_message : val -> string;
  (** the stack frames left for [_strip_nulls_in_place] *)
  stack_depth : nat
}.

(** [int(v)]: an integer as it is, a Boolean as 0 or 1, a float truncated
    towards zero, a string read as a decimal literal. *)
Definition py_int {collaborators : Collaborators} (v : val) : exn + Z :=
  match v with
  | VInt n => inr n
  | VBool b => inr (if b then 1 else 0)%Z
  | VFloat x =>
      match float_trunc x with
      | Some n => inr n
      | None =>
          if PrimFloat.is_nan x
          then inl (ValueError "cannot convert float NaN to integer")
          else inl OverflowError
      end
  | VStr s =>
      match PyInt.of_string s with
      | Some n => inr n
      | None => inl (ValueError (int_message v))
      end
  | VNone | VRef _ => inl (TypeError (int_message v))
  end.

(** What [@dataclass_json] adds to a class: [to_dict()], which builds a
    fresh dictionary, and [schema().load()]. *)
Class DataclassJson (A : Type) : Type := {
  to_dict : A -> store * loc;
  schema_load : store * val -> exn + A
}.

(** [Response.raise_for_status()], as the requests package defines it. *)
Definition raise_for_status (resp : Response) : exn + unit :=
  let http_error_msg :=
    if (400 <=? status_code resp)%Z && (status_code resp <? 500)%Z then
      PyStr.of_Z (status_code resp) +:+ " Client Error: " +:+ reason resp
        +:+ " for url: " +:+ url resp
    else if (500 <=? status_code resp)%Z && (status_code resp <? 600)%Z then
      PyStr.of_Z (status_code resp) +:+ " Server Error: " +:+ reason resp
        +:+ " for url: " +:+ url resp
    else "" in
  if negb (String.eqb http_error_msg "") then inl (HTTPError http_error_msg)
  else inr tt.

(** ** Computations that talk to the network

    The state is the list of the requests made so far, oldest first. *)

Definition M (A : Type) : Type := list request -> (exn + A) * list request.

Definition ret {A : Type} (a : A) : M A := fun trace => (inr a, trace).

Definition lift {A : Type} (r : exn + A) : M A := fun trace => (r, trace).

Definition bind {A B : Type} (m : M A) (k : A -> M B) : M B :=
  fun trace =>
    match m trace with
    | (inl e, trace') => (inl e, trace')
    | (inr a, trace') => k a trace'
    end.

Notation "x <~ m ;; k" := (bind m (fun x => k))
  (at level 100, m at next level, right associativity).

(** ** [CxClient] *)

Record CxClient : Type := mkCxClient { _config : ClientConfig }.

Definition CxClient_init (env : environ) (config : option ClientConfig)
  : exn + CxClient :=
  match config with
  | Some config => inr {| _config := config |}
  | None =>
      match new_default env with
      | inl e => inl e
      | inr config => inr {| _config := config |}
      end
  end.

Definition default_scopes : list string := ["profile"; "offline_access"].

(** [dict.pop("error")] on a decoded response. *)
Definition pop_error (j : store * val) : exn + (store * val) :=
  match snd j with
  | VRef l =>
      match fst j !! l with
      | Some (ODict items) =>
          match dict_del "error" items with
          | Some items' => inr (<[l := ODict items']> (fst j), VRef l)
          | None => inl (KeyError "error")
          end
      | _ => inl (TypeError "pop")
      end
  | _ => inl (AttributeError "pop")
  end.

(** ** The data classes of [__init__.py] *)

Module Cx.

Module ImageStorage.
Record t := mk { legacy_url_template : option string }.
End ImageStorage.

Module ImageSummary.
Record t := mk {
  id : string;
  handle_id : string;
  creation_date : string;
  note : string;
  storage : ImageStorage.t
}.
End ImageSummary.

Module FindImagesByLegacyRequest.
Record t := mk { wwt_legacy_url : string }.
End FindImagesByLegacyRequest.

Module FindImagesByLegacyResponse.
Record t := mk { error : bool; results : list ImageSummary.t }.
End FindImagesByLegacyResponse.

End Cx.

(** ** What the package reads of [wwt_data_formats] *)

Inductive DataSetType : Type :=
| EARTH | PLANET | SKY | PANORAMA | SOLAR_SYSTEM.

Definition DataSetType_eqb (a b : DataSetType) : bool :=
  match a, b with
  | EARTH, EARTH | PLANET, PLANET | SKY, SKY | PANORAMA, PANORAMA
  | SOLAR_SYSTEM, SOLAR_SYSTEM => true
  | _, _ => false
  end.

(** [str] of a member *)
Definition DataSetType_str (a : DataSetType) : string :=
  match a with
  | EARTH => "DataSetType.EARTH"
  | PLANET => "DataSetType.PLANET"
  | SKY => "DataSetType.SKY"
  | PANORAMA => "DataSetType.PANORAMA"
  | SOLAR_SYSTEM => "DataSetType.SOLAR_SYSTEM"
  end.

Module ImageSet.
(** [projection_value] is [imageset.projection.value]. *)
Record t := mk {
  data_set_type : DataSetType;
  base_tile_level : Z;
  base_degrees_per_tile : float;
  bottoms_up : bool;
  center_x : float;
  center_y : float;
  file_type : string;
  offset_x : float;
  offset_y : float;
  projection_value : string;
  quad_tree_map : string;
  rotation_deg : float;
  tile_levels : Z;
  width_factor : Z;
  thumbnail_url : string;
  url : string;
  name : string
}.
End ImageSet.

Module Place.
Record t := mk {
  background_image_set : option ImageSet.t;
  image_set : option ImageSet.t;
  foreground_image_set : option ImageSet.t;
  ra_hr : float;
  dec_deg : float;
  zoom_level : float;
  rotation_deg : float;
  name : string
}.
End Place.

(** [s or dflt] on strings *)
Definition str_or (s dflt : string) : string :=
  if String.eqb s "" then dflt else s.

(** ** The request and response classes of [handles.py] *)

(** [math.pi], the double nearest to pi *)
Definition math_pi : float := 0x1.921fb54442d18p+1%float.

Definition H2R : float := (math_pi / 12)%float.
Definition D2R : float := (math_pi / 180)%float.

Module AddImageRequest.
Record t := mk {
  wwt : Data.ImageWwt.t;
  storage : Data.ImageStorage.t;
  note : string
}.
End AddImageRequest.

Module AddImageResponse.
Record t := mk { id : string; rel_url : string }.
End AddImageResponse.

Module AddSceneRequest.
Record t := mk {
  place : Data.ScenePlace.t;
  content : Data.SceneContent.t;
  outgoing_url : option string;
  text : string
}.
End AddSceneRequest.

Module AddSceneResponse.
Record t := mk { id : string; rel_url : string }.
End AddSceneResponse.

Module SceneInfoResponse.
Record t := mk { total_count : Z; results : list Data.SceneInfo.t }.
End SceneInfoResponse.

Record HandleClient : Type := mkHandleClient {
  client : CxClient;
  _url_base : string
}.

Section Client.

Context {collaborators : Collaborators}.

(** *** [CxClient], continued *)

(** The keyword arguments of the callers are [http_method], [params] and
    [json].  The request is recorded as made whether or not the transport
    answers it. *)
Definition _send_and_check (self : CxClient) (rel_url : string)
    (scopes : list string) (http_method : option string)
    (params : option (list (string * Z))) (json : option (store * loc))
  : M Response :=
  fun trace =>
    let req := {| req_url := api_url (_config self) +:+ rel_url;
                  req_new_token := true;
                  req_scopes := scopes;
                  req_http_method := http_method;
                  req_params := params;
                  req_json := json |} in
    match send_request trace req with
    | inl e => (inl e, trace ++ [req])
    | inr resp =>
        match raise_for_status resp with
        | inl (HTTPError e) =>
            (* digest the response into the message *)
            (inl (HTTPError (e +:+ ": " +:+ text resp)), trace ++ [req])
        | inl e => (inl e, trace ++ [req])
        | inr _ => (inr resp, trace ++ [req])
        end
    end.

Context {find_request_json : DataclassJson Cx.FindImagesByLegacyRequest.t}.
Context {find_response_json : DataclassJson Cx.FindImagesByLegacyResponse.t}.

Definition find_images_by_wwt_url (self : CxClient) (wwt_url : string)
  : M (list Cx.ImageSummary.t) :=
  let req := {| Cx.FindImagesByLegacyRequest.wwt_legacy_url := wwt_url |} in
  body <~ lift (_strip_nulls_in_place stack_depth
                  (fst (to_dict req)) (snd (to_dict req))) ;;
  resp <~ _send_and_check self "/images/find-by-legacy-url" default_scopes
            None None (Some body) ;;
  j <~ lift (Response_json resp) ;;
  resp <~ lift (schema_load j) ;;
  ret (Cx.FindImagesByLegacyResponse.results resp).

(** *** [HandleClient] *)

Definition HandleClient_init (client : CxClient) (handle : string)
  : HandleClient :=
  {| client := client; _url_base := "/handle/" +:+ quote handle |}.

Context {handle_info_json : DataclassJson Data.HandleInfo.t}.
Context {handle_permissions_json : DataclassJson Data.HandlePermissions.t}.
Context {handle_stats_json : DataclassJson Data.HandleStats.t}.
Context {scene_info_response_json : DataclassJson SceneInfoResponse.t}.
Context {handle_update_json : DataclassJson Data.HandleUpdate.t}.
Context {add_image_request_json : DataclassJson AddImageRequest.t}.
Context {add_image_response_json : DataclassJson AddImageResponse.t}.
Context {add_scene_request_json : DataclassJson AddSceneRequest.t}.
Context {add_scene_response_json : DataclassJson AddSceneResponse.t}.

(** [handles.py] imports [TimelineResponse] from the package, where no
    such class is declared; it is taken as given, with its [results]. *)
Context {TimelineResponse : Type}.
Context (TimelineResponse_results : TimelineResponse -> list Data.SceneHydrated.t).
Context {timeline_response_json : DataclassJson TimelineResponse}.

Definition get (self : HandleClient) : M Data.HandleInfo.t :=
  resp <~ _send_and_check (client self) (_url_base self) default_scopes
            (Some "GET") None None ;;
  resp <~ lift (Response_json resp) ;;
  resp <~ lift (pop_error resp) ;;
  lift (schema_load resp).

Definition permissions (self : HandleClient) : M Data.HandlePermissions.t :=
  resp <~ _send_and_check (client self) (_url_base self +:+ "/permissions")
            default_scopes (Some "GET") None None ;;
  resp <~ lift (Response_json resp) ;;
  resp <~ lift (pop_error resp) ;;
  lift (schema_load resp).

Definition stats (self : HandleClient) : M Data.HandleStats.t :=
  resp <~ _send_and_check (client self) (_url_base self +:+ "/stats")
            default_scopes (Some "GET") None None ;;
  resp <~ lift (Response_json resp) ;;
  resp <~ lift (pop_error resp) ;;
  lift (schema_load resp).

(** [page_size] is [None] when the caller leaves it out. *)
Definition scene_info (self : HandleClient) (page_num : val)
    (page_size : option val) : M (list Data.SceneInfo.t) :=
  let page_size := default (VInt 10) page_size in
  use_page_num <~ lift (try_except
      (match py_int page_num with
       | inl e => inl e
       | inr use_page_num =>
           match py_assert (0 <=? use_page_num)%Z with
           | inl e => inl e
           | inr _ => inr use_page_num
           end
       end)
      (fun _ => inl (ValueError ("invalid page_num argument "
                                 +:+ repr page_num)))) ;;
  use_page_size <~ lift (try_except
      (match py_int page_size with
       | inl e => inl e
       | inr use_page_size =>
           match py_assert ((1 <=? use_page_size)%Z
                            && (use_page_size <=? 100)%Z) with
           | inl e => inl e
           | inr _ => inr use_page_size
           end
       end)
      (fun _ => inl (ValueError ("invalid page_size argument "
                                 +:+ repr page_size)))) ;;
  resp <~ _send_and_check (client self) (_url_base self +:+ "/sceneinfo")
            default_scopes (Some "GET")
            (Some [("page", use_page_num); ("pagesize", use_page_size)])
            None ;;
  resp <~ lift (Response_json resp) ;;
  resp <~ lift (pop_error resp) ;;
  (* For now (?) we just throw away the total count field *)
  resp <~ lift (schema_load resp) ;;
  ret (SceneInfoResponse.results resp).

Definition update (self : HandleClient) (updates : Data.HandleUpdate.t)
  : M (store * val) :=
  body <~ lift (_strip_nulls_in_place stack_depth
                  (fst (to_dict updates)) (snd (to_dict updates))) ;;
  resp <~ _send_and_check (client self) (_url_base self) default_scopes
            (Some "PATCH") None (Some body) ;;
  resp <~ lift (Response_json resp) ;;
  resp <~ lift (pop_error resp) ;;
  (* Might as well return the response, although it's currently vacuous *)
  ret resp.

Definition add_image (self : HandleClient) (image : AddImageRequest.t)
  : M string :=
  body <~ lift (_strip_nulls_in_place stack_depth
                  (fst (to_dict image)) (snd (to_dict image))) ;;
  resp <~ _send_and_check (client self) (_url_base self +:+ "/image")
            default_scopes (Some "POST") None (Some body) ;;
  resp <~ lift (Response_json resp) ;;
  resp <~ lift (pop_error resp) ;;
  resp <~ lift (schema_load resp) ;;
  ret (AddImageResponse.id resp).

Definition add_image_from_set (self : HandleClient) (imageset : ImageSet.t)
  : M string :=
  if negb (DataSetType_eqb (ImageSet.data_set_type imageset) SKY) then
    lift (inl (ValueError
      ("Constellations imagesets must be of Sky type; this is "
       +:+ DataSetType_str (ImageSet.data_set_type imageset))))
  else if negb (ImageSet.base_tile_level imageset =? 0)%Z then
    lift (inl (ValueError
      "Constellations imagesets must have base tile levels of 0"))
  else
    let api_wwt :=
      {| Data.ImageWwt.base_degrees_per_tile :=
           ImageSet.base_degrees_per_tile imageset;
         Data.ImageWwt.bottoms_up := ImageSet.bottoms_up imageset;
         Data.ImageWwt.center_x := ImageSet.center_x imageset;
         Data.ImageWwt.center_y := ImageSet.center_y imageset;
         Data.ImageWwt.file_type := ImageSet.file_type imageset;
         Data.ImageWwt.offset_x := ImageSet.offset_x imageset;
         Data.ImageWwt.offset_y := ImageSet.offset_y imageset;
         Data.ImageWwt.projection := ImageSet.projection_value imageset;
         Data.ImageWwt.quad_tree_map :=
           str_or (ImageSet.quad_tree_map imageset) "";
         Data.ImageWwt.rotation := ImageSet.rotation_deg imageset;
         Data.ImageWwt.tile_levels := ImageSet.tile_levels imageset;
         Data.ImageWwt.width_factor := ImageSet.width_factor imageset;
         Data.ImageWwt.thumbnail_url := ImageSet.thumbnail_url imageset |} in
    let storage :=
      {| Data.ImageStorage.legacy_url_template :=
           Some (ImageSet.url imageset) |} in
    let req :=
      {| AddImageRequest.wwt := api_wwt;
         AddImageRequest.storage := storage;
         AddImageRequest.note := ImageSet.name imageset |} in
    add_image self req.

Definition add_scene (self : HandleClient) (scene : AddSceneRequest.t)
  : M string :=
  body <~ lift (_strip_nulls_in_place stack_depth
                  (fst (to_dict scene)) (snd (to_dict scene))) ;;
  resp <~ _send_and_check (client self) (_url_base self +:+ "/scene")
            default_scopes (Some "POST") None (Some body) ;;
  resp <~ lift (Response_json resp) ;;
  resp <~ lift (pop_error resp) ;;
  resp <~ lift (schema_load resp) ;;
  ret (AddSceneResponse.id resp).

(** The loop of [add_scene_from_place] over the image sets of the place. *)
Fixpoint lookup_layers (self : HandleClient) (isets : list (option ImageSet.t))
    (image_layers : list Data.SceneImageLayer.t)
  : M (list Data.SceneImageLayer.t) :=
  match isets with
  | [] => ret image_layers
  | None :: isets' => lookup_layers self isets' image_layers
  | Some iset :: isets' =>
      hits <~ find_images_by_wwt_url (client self) (ImageSet.url iset) ;;
      match hits with
      | [] =>
          lift (inl (Exception
            ("unable to find Constellations record for image URL `"
             +:+ ImageSet.url iset +:+ "`")))
      | hit :: _ =>
          lookup_layers self isets'
            (image_layers ++
             [ {| Data.SceneImageLayer.image_id := Cx.ImageSummary.id hit;
                  Data.SceneImageLayer.opacity := 1%float |} ])
      end
  end.

Definition add_scene_from_place (self : HandleClient) (place : Place.t)
  : M string :=
  (* The trick here is that we need to query the API to
     get the ID(s) for the imageset(s) *)
  image_layers <~ lookup_layers self
      [ Place.background_image_set place;
        Place.image_set place;
        Place.foreground_image_set place ] [] ;;
  (* Now we can build the rest *)
  api_place <~ lift (Data.ScenePlace.new
      [ ("ra_rad", (Place.ra_hr place * H2R)%float);
        ("dec_rad", (Place.dec_deg place * D2R)%float);
        ("zoom_deg", Place.zoom_level place);
        ("roll_rad", (Place.rotation_deg place * D2R)%float) ]) ;;
  let content := {| Data.SceneContent.image_layers := Some image_layers |} in
  let req := {| AddSceneRequest.place := api_place;
                AddSceneRequest.content := content;
                AddSceneRequest.text := Place.name place;
                AddSceneRequest.outgoing_url := None |} in
  add_scene self req.

Definition get_timeline (self : HandleClient) (page_num : val)
  : M (list Data.SceneHydrated.t) :=
  use_page_num <~ lift (try_except
      (match py_int page_num with
       | inl e => inl e
       | inr use_page_num =>
           match py_assert (0 <=? use_page_num)%Z with
           | inl e => inl e
           | inr _ => inr use_page_num
           end
       end)
      (fun _ => inl (ValueError ("invalid page_num argument "
                                 +:+ repr page_num)))) ;;
  resp <~ _send_and_check (client self) (_url_base self +:+ "/timeline")
            default_scopes (Some "GET") (Some [("page", use_page_num)])
            None ;;
  resp <~ lift (Response_json resp) ;;
  resp <~ lift (pop_error resp) ;;
  resp <~ lift (schema_load resp) ;;
  ret (TimelineResponse_results resp).

End Client.

(** ** Reading an operation of the facade *)

Definition map_result {A B : Type} (f : A -> B) (r : exn + A) : exn + B :=
  match r with
  | inl e => inl e
  | inr a => inr (f a)
  end.

(** [op] ends as the operations of [HandleClient] do: when its [exchange]
    has returned a response and the body of that response is JSON, the
    result of [op] is [decode] applied to the decoded body from which
    [pop("error")] has removed the key, and is what [pop] raises when it
    raises; nothing more is sent. *)
Definition unwraps {collaborators : Collaborators} {A : Type} (op : M A)
    (exchange : M Response) (decode : store * val -> exn + A) : Prop :=
  forall trace resp trace' j,
    exchange trace = (inr resp, trace') ->
    Response_json resp = inr j ->
    op trace = (match pop_error j with
                | inl e => inl e
                | inr j' => decode j'
                end, trace').

(** ** Sample collaborators *)

(** A transport that answers [resp] to every request, [j] being what the
    body of [resp] decodes to. *)
Definition constant_transport (resp : Response) (j : exn + (store * val))
  : Collaborators :=
  {| send_request := fun _ _ => inr resp;
     Response_json := fun _ => j;
     quote := fun s => s;
     repr := fun _ => "?";
     int_message := fun _ => "?";
     stack_depth := 1000 |}.

Definition dquote : string := String "034" EmptyString.

(** The body [{"error":true,"detail":"bad request"}]. *)
Definition bad_request_body : string :=
  "{" +:+ dquote +:+ "error" +:+ dquote +:+ ":true," +:+ dquote +:+ "detail"
  +:+ dquote +:+ ":" +:+ dquote +:+ "bad request" +:+ dquote +:+ "}".

Definition bad_request : Response :=
  {| status_code := 400;
     reason := "Bad Request";
     url := "http://localhost:7000/handle/test";
     text := bad_request_body |}.

Definition not_modified : Response :=
  {| status_code := 304;
     reason := "Not Modified";
     url := "http://localhost:7000/handle/test";
     text := EmptyString |}.

Definition sample_client : CxClient :=
  {| _config := {| id_provider_url := "http://localhost:8080/realms/constellations";
                   client_id := "cli-tool";
                   api_url := "http://localhost:7000" |} |}.

(** A class whose schema accepts nothing and whose dictionary is empty. *)
Definition opaque_schema (A : Type) : DataclassJson A :=
  {| to_dict := fun _ => ([ODict []], 0);
     schema_load := fun _ => inl (ValidationError "Unknown field.") |}.

Definition sample_handle : HandleClient :=
  {| client := sample_client; _url_base := "/handle/test" |}.

(** The request that [scene_info] makes for a page. *)
Definition sceneinfo_request (self : HandleClient) (page pagesize : Z)
  : request :=
  {| req_url := api_url (_config (client self))
                +:+ (_url_base self +:+ "/sceneinfo");
     req_new_token := true;
     req_scopes := default_scopes;
     req_http_method := Some "GET";
     req_params := Some [("page", page); ("pagesize", pagesize)];
     req_json := None |}.

(** The request that [get_timeline] makes for a page. *)
Definition timeline_request (self : HandleClient) (page : Z) : request :=
  {| req_url := api_url (_config (client self))
                +:+ (_url_base self +:+ "/timeline");
     req_new_token := true;
     req_scopes := default_scopes;
     req_http_method := Some "GET";
     req_params := Some [("page", page)];
     req_json := None |}.

(** A stand-in for the class [TimelineResponse]. *)
Definition sample_timeline_results (r : unit) : list Data.SceneHydrated.t := [].

(** A transport that answers 304 to everything. *)
Definition not_modified_transport : Collaborators :=
  constant_transport not_modified (inl JSONDecodeError).

(** The double that Python reads for [3.9]. *)
Definition float_3_9 : float := 0x1.f333333333333p+1%float.

Definition sample_imageset (type : DataSetType) (level : Z) : ImageSet.t :=
  {| ImageSet.data_set_type := type;
     ImageSet.base_tile_level := level;
     ImageSet.base_degrees_per_tile := 1%float;
     ImageSet.bottoms_up := false;
     ImageSet.center_x := 0%float;
     ImageSet.center_y := 0%float;
     ImageSet.file_type := ".png";
     ImageSet.offset_x := 0%float;
     ImageSet.offset_y := 0%float;
     ImageSet.projection_value := "Tan";
     ImageSet.quad_tree_map := EmptyString;
     ImageSet.rotation_deg := 0%float;
     ImageSet.tile_levels := 4;
     ImageSet.width_factor := 2;
     ImageSet.thumbnail_url := "http://example.org/thumb.jpg";
     ImageSet.url := "http://example.org/{1}/{3}/{3}_{2}.png";
     ImageSet.name := "Sample" |}.

(** A place with no image set, at 12 h of right ascension and 45 degrees of
    declination. *)
Definition sample_place : Place.t :=
  {| Place.background_image_set := None;
     Place.image_set := None;
     Place.foreground_image_set := None;
     Place.ra_hr := 12%float;
     Place.dec_deg := 45%float;
     Place.zoom_level := 1%float;
     Place.rotation_deg := 0%float;
     Place.name := "Sample" |}.

(** [dict.get(key)] on the items of a dictionary *)
Definition dict_get (key : string) (items : list (string * val)) : option val :=
  snd <$> List.find (fun p => String.eqb (fst p) key) items.

(** A schema for [HandleInfo] in the manner of marshmallow: both fields are
    required strings, and a key that names no field is refused. *)
Definition HandleInfo_schema : DataclassJson Data.HandleInfo.t :=
  {| to_dict := fun x =>
       ([ODict [("handle", VStr (Data.HandleInfo.handle x));
                ("display_name", VStr (Data.HandleInfo.display_name x))]], 0);
     schema_load := fun j =>
       match snd j with
       | VRef l =>
           match fst j !! l with
           | Some (ODict items) =>
               if forallb (fun p => String.eqb (fst p) "handle"
                                    || String.eqb (fst p) "display_name") items
               then
                 match dict_get "handle" items, dict_get "display_name" items with
                 | Some (VStr handle), Some (VStr display_name) =>
                     inr {| Data.HandleInfo.handle := handle;
                            Data.HandleInfo.display_name := display_name |}
                 | _, _ => inl (ValidationError "Missing data for required field.")
                 end
               else inl (ValidationError "Unknown field.")
           | _ => inl (ValidationError "Invalid input type.")
           end
       | _ => inl (ValidationError "Invalid input type.")
       end |}.

Definition ok_response : Response :=
  {| status_code := 200;
     reason := "OK";
     url := "http://localhost:7000/handle/test";
     text := "{...}" |}.

(** The decoded body
    [{"error": false, "handle": "test", "display_name": "Test"}]. *)
Definition handle_info_body : store * val :=
  ([ODict [("error", VBool false); ("handle", VStr "test");
           ("display_name", VStr "Test")]], VRef 0).

(** A transport that answers every request with that body. *)
Definition handle_info_transport : Collaborators :=
  constant_transport ok_response (inr handle_info_body).

(** The request that [get] makes. *)
Definition get_request (self : HandleClient) : request :=
  {| req_url := api_url (_config (client self)) +:+ _url_base self;
     req_new_token := true;
     req_scopes := default_scopes;
     req_http_method := Some "GET";
     req_params := None;
     req_json := None |}.

(** The decoded body [{"handle": "test", "display_name": "Test"}], with no
    ["error"] in it. *)
Definition bare_handle_info_body : store * val :=
  ([ODict [("handle", VStr "test"); ("display_name", VStr "Test")]], VRef 0).

(** A transport that answers 200 to everything, with a body that is not
    JSON. *)
Definition ok_transport : Collaborators :=
  constant_transport ok_response (inl JSONDecodeError).

(** A transport that answers 400 with [bad_request_body]. *)
Definition bad_request_transport : Collaborators :=
  constant_transport bad_request (inl JSONDecodeError).

(** A validator that knows one licence, and a sanitizer that drops every
    [<] and so leaves its own results unchanged. *)
Definition sample_validate (license : string) : list string :=
  if String.eqb license "MIT" then [] else ["Unknown license key(s): " +:+ license].

Fixpoint sample_sanitize (s : string) : string :=
  match s with
  | EmptyString => EmptyString
  | String c s' =>
      if Ascii.eqb c "<" then sample_sanitize s' else String c (sample_sanitize s')
  end.

(** A schema for [FindImagesByLegacyResponse] that reads every body as an
    answer with no result. *)
Definition no_result_schema : DataclassJson Cx.FindImagesByLegacyResponse.t :=
  {| to_dict := fun _ => ([ODict []], 0);
     schema_load := fun _ =>
       inr {| Cx.FindImagesByLegacyResponse.error := false;
              Cx.FindImagesByLegacyResponse.results := [] |} |}.

(** A transport that answers 200 with an empty JSON object. *)
Definition empty_object_transport : Collaborators :=
  constant_transport ok_response (inr ([ODict []], VRef 0)).

(** A place whose only image set is the main one. *)
Definition sample_place_with_image : Place.t :=
  {| Place.background_image_set := None;
     Place.image_set := Some (sample_imageset SKY 0);
     Place.foreground_image_set := None;
     Place.ra_hr := 12%float;
     Place.dec_deg := 45%float;
     Place.zoom_level := 1%float;
     Place.rotation_deg := 0%float;
     Place.name := "Sample" |}.

Definition sample_summary : Cx.ImageSummary.t :=
  {| Cx.ImageSummary.id := "0123456789abcdef01234567";
     Cx.ImageSummary.handle_id := "76543210fedcba9876543210";
     Cx.ImageSummary.creation_date := "2023-03-28T16:53:18.364Z";
     Cx.ImageSummary.note := "Sample";
     Cx.ImageSummary.storage :=
       {| Cx.ImageStorage.legacy_url_template := None |} |}.

(** A schema for [FindImagesByLegacyResponse] that reads every body as an
    answer with [sample_summary] as only result. *)
Definition one_result_schema : DataclassJson Cx.FindImagesByLegacyResponse.t :=
  {| to_dict := fun _ => ([ODict []], 0);
     schema_load := fun _ =>
       inr {| Cx.FindImagesByLegacyResponse.error := false;
              Cx.FindImagesByLegacyResponse.results := [sample_summary] |} |}.

(** The request that [find_images_by_wwt_url] makes when [to_dict] gives an
    empty dictionary. *)
Definition find_request (self : CxClient) : request :=
  {| req_url := api_url (_config self) +:+ "/images/find-by-legacy-url";
     req_new_token := true;
     req_scopes := default_scopes;
     req_http_method := None;
     req_params := None;
     req_json := Some ([ODict []], 0) |}.

(** Requests to run the operations on. *)
Definition sample_update : Data.HandleUpdate.t :=
  {| Data.HandleUpdate.display_name := None |}.

Definition sample_image_request : AddImageRequest.t :=
  {| AddImageRequest.wwt :=
       {| Data.ImageWwt.base_degrees_per_tile := 1%float;
          Data.ImageWwt.bottoms_up := false;
          Data.ImageWwt.center_x := 0%float;
          Data.ImageWwt.center_y := 0%float;
          Data.ImageWwt.file_type := ".png";
          Data.ImageWwt.offset_x := 0%float;
          Data.ImageWwt.offset_y := 0%float;
          Data.ImageWwt.projection := "Tan";
          Data.ImageWwt.quad_tree_map := EmptyString;
          Data.ImageWwt.rotation := 0%float;
          Data.ImageWwt.tile_levels := 4;
          Data.ImageWwt.width_factor := 2;
          Data.ImageWwt.thumbnail_url := "http://example.org/thumb.jpg" |};
     AddImageRequest.storage :=
       {| Data.ImageStorage.legacy_url_template :=
            Some "http://example.org/{1}/{3}/{3}_{2}.png" |};
     AddImageRequest.note := "Sample" |}.

Definition sample_scene_request : AddSceneRequest.t :=
  {| AddSceneRequest.place :=
       {| Data.ScenePlace.ra_rad := 0%float;
          Data.ScenePlace.dec_rad := 0%float;
          Data.ScenePlace.roll_rad := 0%float;
          Data.ScenePlace.roi_height_deg := 1%float;
          Data.ScenePlace.roi_aspect_ratio := 1%float |};
     AddSceneRequest.content := {| Data.SceneContent.image_layers := None |};
     AddSceneRequest.outgoing_url := None;
     AddSceneRequest.text := "Sample" |}.

(** ** Reading what an operation sends *)

(** [r] is a request for [rel_url] on the API of [self], made the way
    [_send_and_check] makes them for the callers of the package. *)
Definition request_to (self : CxClient) (rel_url : string)
    (http_method : option string) (r : request) : Prop :=
  req_url r = api_url (_config self) +:+ rel_url /\
  req_http_method r = http_method /\
  req_new_token r = true /\
  req_scopes r = default_scopes.

(** From any trace, [op] adds at most [k] requests, all of them of the
    given [shape], and removes none. *)
Definition sends_at_most {A : Type} (op : M A) (k : nat)
    (shape : request -> Prop) : Prop :=
  forall trace,
    exists reqs,
      snd (op trace) = trace ++ reqs /\ length reqs <= k /\ Forall shape reqs.

(** A failure of the [exchange] of [op], or of the decoding of the body of
    its response, is the failure of [op], unchanged. *)
Definition fails_with {collaborators : Collaborators} {A : Type} (op : M A)
    (exchange : M Response) : Prop :=
  (forall trace e trace',
     exchange trace = (inl e, trace') -> op trace = (inl e, trace')) /\
  (forall trace resp trace' e,
     exchange trace = (inr resp, trace') ->
     Response_json resp = inl e ->
     op trace = (inl e, trace')).


(** The nesting of dictionaries below [d] is well founded: no chain of
    dictionaries held as values goes on for ever, as it does when a
    dictionary contains itself.  Nothing is asked of the keys. *)
Inductive well_nested (h : store) : loc -> Prop :=
| well_nested_intro d items :
    h !! d = Some (ODict items) ->
    (forall key c, In (key, VRef c) items -> is_dict h c -> well_nested h c) ->
    well_nested h d.

(** The keys of every dictionary are distinct, as in every store that
    Python can build. *)
Definition keys_distinct (h : store) : Prop :=
  forall l items, h !! l = Some (ODict items) -> NoDup (map fst items).

(** [h'] differs from [h] only at dictionaries of well-founded nesting,
    which are still dictionaries. *)
Definition visited (h h' : store) : Prop :=
  forall l, h' !! l = h !! l \/ (well_nested h l /\ is_dict h' l).

(** The dictionaries below [d] are nested at most [k] deep, [d] itself
    counting for one level: what a stack of [k] frames can go through. *)
Inductive nested_within (h : store) : nat -> loc -> Prop :=
| nested_within_intro k d items :
    h !! d = Some (ODict items) ->
    (forall key c, In (key, VRef c) items -> is_dict h c ->
       nested_within h k c) ->
    nested_within h (S k) d.

(** A store with nothing to strip:
    [{"a": 1, "b": {"y": "s"}, "c": [None]}]. *)
Definition tidy_store : store :=
  [ ODict [("a", VInt 1); ("b", VRef 1); ("c", VRef 2)];
    ODict [("y", VStr "s")];
    OList [VNone] ].

(** The request that [update] makes with the body [body]. *)
Definition update_request (self : HandleClient) (body : store * loc)
  : request :=
  {| req_url := api_url (_config (client self)) +:+ _url_base self;
     req_new_token := true;
     req_scopes := default_scopes;
     req_http_method := Some "PATCH";
     req_params := None;
     req_json := Some body |}.

(** ** Decimal numerals *)

(** The code points of the digits of a numeral of the Standard Library,
    and the value that reading them from the left after [acc] gives. *)
Fixpoint uint_codes (d : Decimal.uint) : list Z :=
  match d with
  | Decimal.Nil => []
  | Decimal.D0 d => 48%Z :: uint_codes d
  | Decimal.D1 d => 49%Z :: uint_codes d
  | Decimal.D2 d => 50%Z :: uint_codes d
  | Decimal.D3 d => 51%Z :: uint_codes d
  | Decimal.D4 d => 52%Z :: uint_codes d
  | Decimal.D5 d => 53%Z :: uint_codes d
  | Decimal.D6 d => 54%Z :: uint_codes d
  | Decimal.D7 d => 55%Z :: uint_codes d
  | Decimal.D8 d => 56%Z :: uint_codes d
  | Decimal.D9 d => 57%Z :: uint_codes d
  end.

Fixpoint uint_value (d : Decimal.uint) (acc : Z) : Z :=
  match d with
  | Decimal.Nil => acc
  | Decimal.D0 d => uint_value d (10 * acc)
  | Decimal.D1 d => uint_value d (10 * acc + 1)
  | Decimal.D2 d => uint_value d (10 * acc + 2)
  | Decimal.D3 d => uint_value d (10 * acc + 3)
  | Decimal.D4 d => uint_value d (10 * acc + 4)
  | Decimal.D5 d => uint_value d (10 * acc + 5)
  | Decimal.D6 d => uint_value d (10 * acc + 6)
  | Decimal.D7 d => uint_value d (10 * acc + 7)
  | Decimal.D8 d => uint_value d (10 * acc + 8)
  | Decimal.D9 d => uint_value d (10 * acc + 9)
  end%Z.

(** ** The lookups of [add_scene_from_place] *)

(** The request that [find_images_by_wwt_url] makes for [wwt_url], once
    [_strip_nulls_in_place] has returned its body. *)
Definition lookup_request {collaborators : Collaborators}
    {find_request_json : DataclassJson Cx.FindImagesByLegacyRequest.t}
    (self : CxClient) (wwt_url : string) : request :=
  let req := {| Cx.FindImagesByLegacyRequest.wwt_legacy_url := wwt_url |} in
  {| req_url := api_url (_config self) +:+ "/images/find-by-legacy-url";
     req_new_token := true;
     req_scopes := default_scopes;
     req_http_method := None;
     req_params := None;
     req_json :=
       match _strip_nulls_in_place stack_depth
               (fst (to_dict req)) (snd (to_dict req)) with
       | inr body => Some body
       | inl _ => None
       end |}.

(** The layer that [add_scene_from_place] makes of a hit. *)
Definition layer_of (hit : Cx.ImageSummary.t) : Data.SceneImageLayer.t :=
  {| Data.SceneImageLayer.image_id := Cx.ImageSummary.id hit;
     Data.SceneImageLayer.opacity := 1%float |}.

(** A schema for [FindImagesByLegacyRequest] whose dictionary holds the
    URL. *)
Definition find_request_schema
  : DataclassJson Cx.FindImagesByLegacyRequest.t :=
  {| to_dict := fun x =>
       ([ODict [("wwt_legacy_url",
                 VStr (Cx.FindImagesByLegacyRequest.wwt_legacy_url x))]], 0);
     schema_load := fun _ => inl (ValidationError "Unknown field.") |}.

(** [sample_imageset], stored at [url]. *)
Definition sample_imageset_at (url : string) : ImageSet.t :=
  let iset := sample_imageset SKY 0 in
  {| ImageSet.data_set_type := ImageSet.data_set_type iset;
     ImageSet.base_tile_level := ImageSet.base_tile_level iset;
     ImageSet.base_degrees_per_tile := ImageSet.base_degrees_per_tile iset;
     ImageSet.bottoms_up := ImageSet.bottoms_up iset;
     ImageSet.center_x := ImageSet.center_x iset;
     ImageSet.center_y := ImageSet.center_y iset;
     ImageSet.file_type := ImageSet.file_type iset;
     ImageSet.offset_x := ImageSet.offset_x iset;
     ImageSet.offset_y := ImageSet.offset_y iset;
     ImageSet.projection_value := ImageSet.projection_value iset;
     ImageSet.quad_tree_map := ImageSet.quad_tree_map iset;
     ImageSet.rotation_deg := ImageSet.rotation_deg iset;
     ImageSet.tile_levels := ImageSet.tile_levels iset;
     ImageSet.width_factor := ImageSet.width_factor iset;
     ImageSet.thumbnail_url := ImageSet.thumbnail_url iset;
     ImageSet.url := url;
     ImageSet.name := ImageSet.name iset |}.

(** A place with a background and a foreground, and no main image set. *)
Definition sample_place_layered : Place.t :=
  {| Place.background_image_set :=
       Some (sample_imageset_at "http://example.org/background.png");
     Place.image_set := None;
     Place.foreground_image_set :=
       Some (sample_imageset_at "http://example.org/foreground.png");
     Place.ra_hr := 12%float;
     Place.dec_deg := 45%float;
     Place.zoom_level := 1%float;
     Place.rotation_deg := 0%float;
     Place.name := "Sample" |}.

(** The string of the bytes 0x1C, ["3"], 0x1F, the string of the
    Arabic-Indic digit three (U+0663), and the string of a no-break space
    (U+00A0) before ["3"]. *)
Definition separators_3 : string :=
  String "028" (String "3" (String "031" EmptyString)).

Definition arabic_indic_3 : string :=
  String "217" (String "163" EmptyString).

Definition nbsp_3 : string :=
  String "194" (String "160" (String "3" EmptyString)).

(** A numeral of [n] digits one. *)
Definition ones (n : nat) : string :=
  string_of_list_ascii (repeat "1"%char n).
(** * Properties *)

(** ** Strings *)

Section Strings.

Implicit Types s t u : string.

Lemma append_nil t : "" +:+ t = t.
Proof. reflexivity. Qed.

Lemma append_cons c s t : String c s +:+ t = String c (s +:+ t).
Proof. reflexivity. Qed.

Lemma append_empty_r s : s +:+ "" = s.
Proof.
  induction s as [|c s IH]; [reflexivity|]. now rewrite append_cons, IH.
Qed.

Lemma append_assoc s t u : (s +:+ t) +:+ u = s +:+ (t +:+ u).
Proof.
  induction s as [|c s IH]; [reflexivity|]. now rewrite !append_cons, IH.
Qed.

Lemma prefix_append s t : String.prefix s (s +:+ t) = true.
Proof.
  induction s as [|c s IH]; [now destruct t|].
  rewrite append_cons. simpl.
  destruct (ascii_dec c c); [exact IH|congruence].
Qed.

Lemma prefix_append_r s t u :
  String.prefix s t = true -> String.prefix s (t +:+ u) = true.
Proof.
  revert t. induction s as [|c s IH]; intros [|c' t]; simpl;
    try discriminate; auto.
  - now destruct u.
  - rewrite ?append_cons. simpl.
    destruct (ascii_dec c c'); [apply IH|discriminate].
Qed.

Lemma contains_self s : PyStr.contains s s = true.
Proof.
  destruct s as [|c s]; [reflexivity|].
  cbn [PyStr.contains]. apply orb_true_iff. left.
  rewrite <- (append_empty_r (String c s)) at 2. apply prefix_append.
Qed.

Lemma contains_append_r needle s t :
  PyStr.contains needle s = true -> PyStr.contains needle (s +:+ t) = true.
Proof.
  induction s as [|c s IH]; cbn [PyStr.contains]; intros Hc.
  - rewrite orb_false_r in Hc. destruct needle; [|discriminate].
    destruct t; reflexivity.
  - rewrite append_cons. cbn [PyStr.contains].
    apply orb_true_iff in Hc. apply orb_true_iff.
    destruct Hc as [Hp|Hc]; [left|right; now apply IH].
    rewrite <- append_cons.
    now apply (prefix_append_r needle (String c s) t).
Qed.

Lemma contains_append_l needle s t :
  PyStr.contains needle t = true -> PyStr.contains needle (s +:+ t) = true.
Proof.
  intros Hc. induction s as [|c s IH]; [exact Hc|].
  rewrite append_cons. cbn [PyStr.contains]. apply orb_true_iff. now right.
Qed.

Lemma endswith_self s : PyStr.endswith s s = true.
Proof.
  destruct s as [|c s]; [reflexivity|].
  cbn [PyStr.endswith]. now rewrite String.eqb_refl.
Qed.

Lemma endswith_append s t : PyStr.endswith (s +:+ t) t = true.
Proof.
  induction s as [|c s IH]; [apply endswith_self|].
  rewrite append_cons. cbn [PyStr.endswith]. rewrite IH. apply orb_true_r.
Qed.

Lemma endswith_append_suffix s t u :
  PyStr.endswith s t = true -> PyStr.endswith (s +:+ u) (t +:+ u) = true.
Proof.
  induction s as [|c s IH]; cbn [PyStr.endswith]; intros Hs.
  - rewrite orb_false_r in Hs. apply String.eqb_eq in Hs. subst t.
    apply endswith_self.
  - apply orb_true_iff in Hs. destruct Hs as [Hs|Hs].
    + apply String.eqb_eq in Hs. subst t. apply endswith_self.
    + rewrite append_cons. cbn [PyStr.endswith].
      rewrite (IH Hs). apply orb_true_r.
Qed.


End Strings.

(** ** Client configuration *)

Section Config.

Implicit Types env : environ.

(** Whatever the environment, the identity provider URL that
    [new_default] builds ends in a slash followed by the realm. *)
Lemma new_default_id_provider_suffix env cfg :
  new_default env = inr cfg ->
  PyStr.endswith (id_provider_url cfg) "/realms/constellations" = true.
Proof.
  unfold new_default, environ_get.
  destruct (env !! "NUXT_PUBLIC_API_URL") as [u|]; [|discriminate].
  set (dflt := if PyStr.contains "localhost" u then _ else _).
  destruct (env !! "NUXT_PUBLIC_KEYCLOAK_URL") as [k|].
  - intros [= <-]. cbn [id_provider_url].
    destruct (PyStr.endswith k "/") eqn:E; cbn [negb].
    + now apply (endswith_append_suffix k "/" "realms/constellations").
    + rewrite append_assoc. apply endswith_append.
  - destruct (env !! "KEYCLOAK_URL") as [k|]; [|destruct dflt as [k|]];
      [| |discriminate].
    all: intros [= <-]; cbn [id_provider_url];
      destruct (PyStr.endswith k "/") eqn:E; cbn [negb];
      [ now apply (endswith_append_suffix k "/" "realms/constellations")
      | rewrite append_assoc; apply endswith_append ].
Qed.

Lemma new_dev_id_provider_suffix :
  PyStr.endswith (id_provider_url new_dev) "/realms/constellations" = true.
Proof. reflexivity. Qed.


End Config.

(** X1: the identity provider URL of every configuration that [new_default]
    or [new_dev] builds ends in a slash followed by [realms/constellations]. *)
Theorem id_provider_url_realm_suffix :
  (forall (env : environ) (cfg : ClientConfig),
     new_default env = inr cfg ->
     PyStr.endswith (id_provider_url cfg) "/realms/constellations" = true) /\
  PyStr.endswith (id_provider_url new_dev) "/realms/constellations" = true.
Proof.
  split; [apply new_default_id_provider_suffix|apply new_dev_id_provider_suffix].
Qed.

Lemma id_provider_url_realm_suffix_witness :
  new_default sample_env_keycloak
    = inr {| id_provider_url := "https://id.example.org/realms/constellations";
             client_id := "my-tool";
             api_url := "https://example.org/api" |} /\
  PyStr.endswith "https://id.example.org/realms/constellations"
    "/realms/constellations" = true.
Proof.
  assert (H : new_default sample_env_keycloak
              = inr {| id_provider_url := "https://id.example.org/realms/constellations";
                       client_id := "my-tool";
                       api_url := "https://example.org/api" |}) by reflexivity.
  split; [exact H|].
  exact (proj1 id_provider_url_realm_suffix sample_env_keycloak _ H).
Defined.



(** X3: when [NUXT_PUBLIC_API_URL] is set, an identity provider named by
    [NUXT_PUBLIC_KEYCLOAK_URL], or else by [KEYCLOAK_URL], is used whatever
    the API URL contains: a slash is appended when it does not end in one,
    then the realm; and the client id is [WWT_API_CLIENT_ID], or [cli-tool]
    when that is unset. *)
Theorem new_default_explicit_id_base (env : environ) (u k : string) :
  env !! "NUXT_PUBLIC_API_URL" = Some u ->
  (env !! "NUXT_PUBLIC_KEYCLOAK_URL" = Some k \/
   (env !! "NUXT_PUBLIC_KEYCLOAK_URL" = None /\ env !! "KEYCLOAK_URL" = Some k)) ->
  exists cfg,
    new_default env = inr cfg /\
    id_provider_url cfg
      = (if PyStr.endswith k "/" then k else k +:+ "/") +:+ "realms/constellations" /\
    client_id cfg = default "cli-tool" (env !! "WWT_API_CLIENT_ID").
Proof.
  intros Hu Hk. unfold new_default, environ_get. rewrite Hu.
  destruct Hk as [Hk|[Hk1 Hk2]]; [rewrite Hk|rewrite Hk1, Hk2];
    (eexists; split; [reflexivity|]; cbn [id_provider_url client_id];
     split; [now destruct (PyStr.endswith k "/")
            |now destruct (env !! "WWT_API_CLIENT_ID")]).
Qed.

Lemma new_default_explicit_id_base_witness :
  (sample_env_keycloak !! "NUXT_PUBLIC_API_URL" = Some "https://example.org/api" /\
   (sample_env_keycloak !! "NUXT_PUBLIC_KEYCLOAK_URL" = Some "https://id.example.org" \/
    (sample_env_keycloak !! "NUXT_PUBLIC_KEYCLOAK_URL" = None /\
     sample_env_keycloak !! "KEYCLOAK_URL" = Some "https://id.example.org"))) /\
  exists cfg,
    new_default sample_env_keycloak = inr cfg /\
    id_provider_url cfg
      = (if PyStr.endswith "https://id.example.org" "/"
         then "https://id.example.org"
         else "https://id.example.org" +:+ "/") +:+ "realms/constellations" /\
    client_id cfg = default "cli-tool" (sample_env_keycloak !! "WWT_API_CLIENT_ID").
Proof.
  assert (H1 : sample_env_keycloak !! "NUXT_PUBLIC_API_URL"
               = Some "https://example.org/api") by reflexivity.
  assert (H2 : sample_env_keycloak !! "NUXT_PUBLIC_KEYCLOAK_URL"
                 = Some "https://id.example.org" \/
               (sample_env_keycloak !! "NUXT_PUBLIC_KEYCLOAK_URL" = None /\
                sample_env_keycloak !! "KEYCLOAK_URL"
                  = Some "https://id.example.org"))
    by (left; reflexivity).
  split; [auto|].
  exact (new_default_explicit_id_base sample_env_keycloak _ _ H1 H2).
Defined.

(** C1, as amended: with [NUXT_PUBLIC_API_URL] set and neither
    [NUXT_PUBLIC_KEYCLOAK_URL] nor [KEYCLOAK_URL] set, [new_default] gives
    the local identity provider when the API URL contains ["localhost"];
    the development one when it contains ["wwtelescope.dev"] and not
    ["localhost"]; and raises when it contains neither.  With
    [NUXT_PUBLIC_API_URL] unset it raises, whatever else is set. *)
Theorem new_default_id_provider_url (env : environ) :
  (env !! "NUXT_PUBLIC_API_URL" = None ->
   exists msg, new_default env = inl (Exception msg)) /\
  (forall u,
     env !! "NUXT_PUBLIC_API_URL" = Some u ->
     env !! "NUXT_PUBLIC_KEYCLOAK_URL" = None ->
     env !! "KEYCLOAK_URL" = None ->
     (PyStr.contains "localhost" u = true ->
      exists cfg, new_default env = inr cfg /\
        id_provider_url cfg = "http://localhost:8080/realms/constellations") /\
     (PyStr.contains "localhost" u = false ->
      PyStr.contains "wwtelescope.dev" u = true ->
      exists cfg, new_default env = inr cfg /\
        id_provider_url cfg = "https://wwtelescope.dev/auth/realms/constellations") /\
     (PyStr.contains "localhost" u = false ->
      PyStr.contains "wwtelescope.dev" u = false ->
      exists msg, new_default env = inl (Exception msg))).
Proof.
  split.
  - intros Hu. unfold new_default, environ_get. rewrite Hu. eauto.
  - intros u Hu Hk1 Hk2. unfold new_default, environ_get.
    rewrite Hu, Hk1, Hk2. repeat split.
    + intros ->. eexists. split; reflexivity.
    + intros -> ->. eexists. split; reflexivity.
    + intros -> ->. eauto.
Qed.

(** The environments of the documentation, one with an API URL that has
    neither substring, and the empty one. *)
Lemma new_default_id_provider_url_witness :
  (((∅ : environ) !! "NUXT_PUBLIC_API_URL" = None /\
    exists msg, new_default ∅ = inl (Exception msg)) /\
   ((sample_env_local !! "NUXT_PUBLIC_API_URL" = Some "http://localhost:7000" /\
     sample_env_local !! "NUXT_PUBLIC_KEYCLOAK_URL" = None /\
     sample_env_local !! "KEYCLOAK_URL" = None /\
     PyStr.contains "localhost" "http://localhost:7000" = true) /\
    exists cfg, new_default sample_env_local = inr cfg /\
      id_provider_url cfg = "http://localhost:8080/realms/constellations")) /\
  ((sample_env_dev !! "NUXT_PUBLIC_API_URL" = Some "https://api.wwtelescope.dev/" /\
    sample_env_dev !! "NUXT_PUBLIC_KEYCLOAK_URL" = None /\
    sample_env_dev !! "KEYCLOAK_URL" = None /\
    PyStr.contains "localhost" "https://api.wwtelescope.dev/" = false /\
    PyStr.contains "wwtelescope.dev" "https://api.wwtelescope.dev/" = true) /\
   exists cfg, new_default sample_env_dev = inr cfg /\
     id_provider_url cfg = "https://wwtelescope.dev/auth/realms/constellations") /\
  ((sample_env_other !! "NUXT_PUBLIC_API_URL" = Some "https://example.org/api" /\
    sample_env_other !! "NUXT_PUBLIC_KEYCLOAK_URL" = None /\
    sample_env_other !! "KEYCLOAK_URL" = None /\
    PyStr.contains "localhost" "https://example.org/api" = false /\
    PyStr.contains "wwtelescope.dev" "https://example.org/api" = false) /\
   exists msg, new_default sample_env_other = inl (Exception msg)).
Proof.
  assert (H0 : (∅ : environ) !! "NUXT_PUBLIC_API_URL" = None) by reflexivity.
  assert (Hl : sample_env_local !! "NUXT_PUBLIC_API_URL"
               = Some "http://localhost:7000") by reflexivity.
  assert (Hd : sample_env_dev !! "NUXT_PUBLIC_API_URL"
               = Some "https://api.wwtelescope.dev/") by reflexivity.
  assert (Ho : sample_env_other !! "NUXT_PUBLIC_API_URL"
               = Some "https://example.org/api") by reflexivity.
  split; [split|split].
  - split; [exact H0|].
    exact (proj1 (new_default_id_provider_url ∅) H0).
  - split; [repeat split; reflexivity|].
    exact (proj1 (proj2 (new_default_id_provider_url sample_env_local)
                    _ Hl eq_refl eq_refl) eq_refl).
  - split; [repeat split; reflexivity|].
    exact (proj1 (proj2 (proj2 (new_default_id_provider_url sample_env_dev)
                           _ Hd eq_refl eq_refl)) eq_refl eq_refl).
  - split; [repeat split; reflexivity|].
    exact (proj2 (proj2 (proj2 (new_default_id_provider_url sample_env_other)
                           _ Ho eq_refl eq_refl)) eq_refl eq_refl).
Defined.

(** C1 as stated fails on an API URL that contains both substrings: the
    check for ["localhost"] comes first. *)
Lemma new_default_both_substrings :
  sample_env_both !! "NUXT_PUBLIC_API_URL"
    = Some "http://wwtelescope.dev.localhost:7000" /\
  sample_env_both !! "NUXT_PUBLIC_KEYCLOAK_URL" = None /\
  sample_env_both !! "KEYCLOAK_URL" = None /\
  PyStr.contains "wwtelescope.dev" "http://wwtelescope.dev.localhost:7000" = true /\
  exists cfg, new_default sample_env_both = inr cfg /\
    id_provider_url cfg = "http://localhost:8080/realms/constellations" /\
    id_provider_url cfg <> "https://wwtelescope.dev/auth/realms/constellations".
Proof.
  repeat split; try reflexivity.
  eexists. split; [reflexivity|]. split; [reflexivity|discriminate].
Qed.

(** C8: the configuration that [new_dev] builds has an API URL that ends in
    a slash, against the normalisation that [new_default] documents and
    performs. *)
Theorem new_dev_api_url_ends_in_slash :
  PyStr.endswith (api_url new_dev) "/" = true.
Proof. reflexivity. Qed.

(** [new_default] removes one slash only. *)
Lemma new_default_api_url_double_slash :
  exists cfg, new_default sample_env_slashes = inr cfg /\
    PyStr.endswith (api_url cfg) "/" = true.
Proof. eexists. split; reflexivity. Qed.

(** ** Null stripping *)

Section StripNulls.

Implicit Types (h : store) (d l : loc) (items : list (string * val)).

Lemma clean_idem items : clean (clean items) = clean items.
Proof.
  unfold clean. induction items as [|[k v] its IH]; simpl; [reflexivity|].
  destruct (is_None v) eqn:E; simpl; [exact IH|].
  rewrite E. simpl. now rewrite IH.
Qed.

Lemma in_clean items key v :
  In (key, v) (clean items) <-> In (key, v) items /\ v <> VNone.
Proof.
  unfold clean. rewrite List.filter_In. simpl.
  destruct v; simpl; split; intros [H1 H2]; split; auto; congruence.
Qed.

Lemma in_clean_ref items key c :
  In (key, VRef c) (clean items) <-> In (key, VRef c) items.
Proof.
  rewrite in_clean. split; [tauto|]. intros H; split; [exact H|discriminate].
Qed.

Lemma NoDup_keys_filter (f : string * val -> bool) items :
  NoDup (map fst items) -> NoDup (map fst (List.filter f items)).
Proof.
  induction items as [|p its IH]; simpl; intros Hnd; [constructor|].
  inversion Hnd as [|? ? Hnotin Hnd']; subst. rewrite list_elem_of_In in Hnotin.
  destruct (f p); simpl; [|auto].
  constructor; [|auto].
  rewrite list_elem_of_In. intros Hin. apply Hnotin.
  apply List.in_map_iff in Hin. destruct Hin as [q [Hq Hin]].
  apply List.filter_In in Hin. apply List.in_map_iff. exists q. tauto.
Qed.

Lemma NoDup_keys_inj items p q :
  NoDup (map fst items) -> In p items -> In q items -> fst p = fst q -> p = q.
Proof.
  induction items as [|r its IH]; simpl; intros Hnd Hp Hq Heq; [contradiction|].
  inversion Hnd as [|? ? Hnotin Hnd']; subst. rewrite list_elem_of_In in Hnotin.
  destruct Hp as [Hp|Hp], Hq as [Hq|Hq]; subst; auto.
  - exfalso. apply Hnotin. rewrite Heq. now apply List.in_map.
  - exfalso. apply Hnotin. rewrite <- Heq. now apply List.in_map.
Qed.

Lemma existsb_eqb_In (k : string) (ks : list string) :
  existsb (String.eqb k) ks = true <-> In k ks.
Proof.
  rewrite List.existsb_exists. split.
  - intros [x [Hin Hx]]. apply String.eqb_eq in Hx. now subst.
  - intros Hin. exists k. split; [exact Hin|apply String.eqb_refl].
Qed.

Lemma remove_keys_of_None items :
  NoDup (map fst items) -> remove_keys (keys_of_None items) items = clean items.
Proof.
  intros Hnd. unfold remove_keys, clean. apply List.filter_ext_in.
  intros p Hp. f_equal.
  apply eq_true_iff_eq. rewrite existsb_eqb_In. unfold keys_of_None.
  rewrite List.in_map_iff. split.
  - intros [q [Hq Hin]]. apply List.filter_In in Hin. destruct Hin as [Hin Hn].
    assert (q = p) by (eapply NoDup_keys_inj; eauto). now subst.
  - intros Hn. exists p. split; [reflexivity|]. apply List.filter_In. auto.
Qed.

Lemma remove_keys_nil items : remove_keys [] items = items.
Proof.
  unfold remove_keys. simpl. induction items; simpl; congruence.
Qed.

Lemma remove_keys_cons key keys items :
  remove_keys keys (List.filter (fun p => negb (String.eqb (fst p) key)) items)
  = remove_keys (key :: keys) items.
Proof.
  unfold remove_keys. induction items as [|p its IH]; simpl; [reflexivity|].
  destruct (String.eqb (fst p) key) eqn:E; simpl; [exact IH|].
  destruct (existsb (String.eqb (fst p)) keys); simpl; [exact IH|].
  now rewrite IH.
Qed.

(** The second loop deletes exactly the keys it is given, when they are
    distinct keys of the dictionary. *)
Lemma del_keys_spec keys : forall h d items,
  h !! d = Some (ODict items) ->
  NoDup keys ->
  (forall k, In k keys -> In k (map fst items)) ->
  del_keys h d keys = inr (<[d := ODict (remove_keys keys items)]> h).
Proof.
  induction keys as [|key keys IH]; intros h d items Hd Hnd Hin; simpl.
  - rewrite remove_keys_nil. now rewrite list_insert_id.
  - rewrite Hd. unfold dict_del.
    inversion Hnd as [|? ? Hnotin Hnd']; subst. rewrite list_elem_of_In in Hnotin.
    assert (Hex : existsb (fun p => String.eqb (fst p) key) items = true).
    { apply List.existsb_exists.
      destruct (proj1 (List.in_map_iff _ _ _) (Hin key (or_introl eq_refl)))
        as [p [Hp Hpin]].
      exists p. split; [exact Hpin|]. rewrite Hp. apply String.eqb_refl. }
    rewrite Hex.
    assert (Hlt : d < length h) by (eapply lookup_lt_Some; eauto).
    rewrite (IH _ d (List.filter (fun p => negb (String.eqb (fst p) key)) items)).
    + rewrite list_insert_insert_eq. now rewrite remove_keys_cons.
    + now apply list_lookup_insert_eq.
    + exact Hnd'.
    + intros k Hk.
      destruct (proj1 (List.in_map_iff _ _ _) (Hin k (or_intror Hk)))
        as [p [Hp Hpin]].
      apply List.in_map_iff. exists p. split; [exact Hp|].
      apply List.filter_In. split; [exact Hpin|].
      rewrite Hp. apply negb_true_iff. apply String.eqb_neq.
      intros ->. contradiction.
Qed.

Lemma NoDup_keys_of_None items :
  NoDup (map fst items) -> NoDup (keys_of_None items).
Proof. apply NoDup_keys_filter. Qed.

Lemma keys_of_None_keys items k :
  In k (keys_of_None items) -> In k (map fst items).
Proof.
  unfold keys_of_None. rewrite !List.in_map_iff.
  intros [p [Hp Hin]]. apply List.filter_In in Hin. exists p. tauto.
Qed.

Lemma strip_unfold depth h d :
  _strip_nulls_in_place (S depth) h d =
  match h !! d with
  | Some (ODict items) =>
      match strip_items (strip_call depth) items h [] with
      | inl e => inl e
      | inr (h1, keys_to_remove) =>
          match del_keys h1 d keys_to_remove with
          | inl e => inl e
          | inr h2 => inr (h2, d)
          end
      end
  | _ => inl (AttributeError "items")
  end.
Proof. reflexivity. Qed.

(** The loop only depends on the calls that return. *)
Lemma strip_items_mono (rec1 rec2 : store -> loc -> exn + store) :
  (forall h l r, rec1 h l = inr r -> rec2 h l = inr r) ->
  forall items h acc r,
    strip_items rec1 items h acc = inr r ->
    strip_items rec2 items h acc = inr r.
Proof.
  intros Hrec. induction items as [|[key v] its IH]; intros h acc r; simpl;
    [auto|].
  destruct v; auto.
  destruct (h !! l) as [[?|?]|]; auto.
  destruct (rec1 h l) as [e|h'] eqn:E1; [discriminate|].
  rewrite (Hrec _ _ _ E1). auto.
Qed.

(** A deeper stack does not change a result. *)
Lemma strip_depth_S depth : forall h d r,
  _strip_nulls_in_place depth h d = inr r ->
  _strip_nulls_in_place (S depth) h d = inr r.
Proof.
  induction depth as [|n IH]; intros h d r; [discriminate|].
  rewrite (strip_unfold (S n)), (strip_unfold n).
  destruct (h !! d) as [[items|?]|]; auto.
  destruct (strip_items (strip_call n) items h []) as [e|[h1 ks]] eqn:E;
    [discriminate|].
  assert (Hcall : forall h' l r',
    strip_call n h' l = inr r' -> strip_call (S n) h' l = inr r').
  { intros h' l r'. unfold strip_call.
    destruct (_strip_nulls_in_place n h' l) as [e|[h'' x]] eqn:E';
      [discriminate|].
    now rewrite (IH _ _ _ E'). }
  now rewrite (strip_items_mono _ _ Hcall _ _ _ _ E).
Qed.

Lemma strip_depth_le depth depth' h d r :
  depth <= depth' ->
  _strip_nulls_in_place depth h d = inr r ->
  _strip_nulls_in_place depth' h d = inr r.
Proof.
  induction 1; auto using strip_depth_S.
Qed.

Lemma strip_call_le depth depth' h l r :
  depth <= depth' ->
  strip_call depth h l = inr r -> strip_call depth' h l = inr r.
Proof.
  intros Hle. unfold strip_call.
  destruct (_strip_nulls_in_place depth h l) as [e|[h' x]] eqn:E; [discriminate|].
  now rewrite (strip_depth_le _ _ _ _ _ Hle E).
Qed.

(** *** Reachability through dictionaries *)

Lemma nested_in_trans h d c e :
  nested_in h d c -> nested_in h c e -> nested_in h d e.
Proof.
  induction 1; auto. intros. eapply nested_deeper; eauto.
Qed.

(** A dictionary of finite nesting is not nested in its own values. *)
Lemma finite_dict_acyclic h d :
  finite_dict h d ->
  forall c, dict_child h d c -> ~ nested_in h c d.
Proof.
  induction 1 as [d items Hd Hnd Hch IH].
  intros c Hdc Hcd.
  assert (Hc := Hdc). destruct Hc as [its [key [Hd' [Hin Hisd]]]].
  rewrite Hd in Hd'. injection Hd' as <-.
  inversion Hcd as [|c0 c' e0 Hcc' Hc'd]; subst.
  - exact (IH key d Hin Hisd d Hdc (nested_here _ _)).
  - apply (IH key c Hin Hisd c' Hcc').
    eapply nested_in_trans; [exact Hc'd|].
    eapply nested_deeper; [exact Hdc|apply nested_here].
Qed.

Lemma cleaned_refl h : cleaned h h.
Proof. intros l. now left. Qed.

Lemma cleaned_is_dict h h' l : cleaned h h' -> is_dict h' l <-> is_dict h l.
Proof.
  intros Hc. destruct (Hc l) as [Heq|[its [H1 H2]]]; unfold is_dict.
  - now rewrite Heq.
  - rewrite H1, H2. split; eauto.
Qed.

(** Cleaning removes no reference, so it keeps the nesting. *)
Lemma cleaned_child h h' d c :
  cleaned h h' -> dict_child h' d c <-> dict_child h d c.
Proof.
  intros Hc. unfold dict_child.
  split; intros [its [key [Hd [Hin Hisd]]]].
  - apply (cleaned_is_dict _ _ _ Hc) in Hisd.
    destruct (Hc d) as [Heq|[its' [H1 H2]]].
    + exists its, key. rewrite <- Heq. (split; [|split]; assumption).
    + rewrite H2 in Hd. injection Hd as <-.
      apply (proj1 (in_clean_ref _ _ _)) in Hin.
      exists its', key. (split; [|split]; assumption).
  - apply (cleaned_is_dict _ _ _ Hc) in Hisd.
    destruct (Hc d) as [Heq|[its' [H1 H2]]].
    + exists its, key. rewrite Heq. (split; [|split]; assumption).
    + rewrite H1 in Hd. injection Hd as <-.
      exists (clean its'), key. rewrite in_clean_ref. (split; [|split]; assumption).
Qed.

Lemma cleaned_nested_in h h' d e :
  cleaned h h' -> nested_in h' d e <-> nested_in h d e.
Proof.
  intros Hc. split; induction 1; try apply nested_here.
  - eapply nested_deeper; [|eassumption]. now apply (cleaned_child _ _ _ _ Hc).
  - eapply nested_deeper; [|eassumption]. now apply (cleaned_child _ _ _ _ Hc).
Qed.

Lemma cleaned_at_no_None h h' l : cleaned_at h h' l -> no_None_at h' l.
Proof.
  intros [its [H1 H2]] items key v Hl Hin.
  rewrite H2 in Hl. injection Hl as <-.
  apply in_clean in Hin. tauto.
Qed.

(** *** The first loop *)

(** An item that holds no dictionary: the loop goes on in the same store. *)
Lemma loop_post_skip h key v items hc acc acc' depth hr :
  (forall c, v = VRef c -> ~ is_dict h c) ->
  acc' ++ keys_of_None items = acc ++ keys_of_None ((key, v) :: items) ->
  strip_items (strip_call depth) ((key, v) :: items) hc acc
    = strip_items (strip_call depth) items hc acc' ->
  loop_post h items hc acc' depth hr ->
  loop_post h ((key, v) :: items) hc acc depth hr.
Proof.
  unfold loop_post, below.
  intros Hv Hacc Hstep [Hrun [Hcl [Hfr Hre]]].
  split; [now rewrite Hstep, Hrun, Hacc|].
  split; [exact Hcl|]. split.
  - intros l. destruct (Hfr l) as [Heq|[[k [c [Hin [Hd Hn]]]] Hca]];
      [now left|right].
    split; [|exact Hca]. exists k, c. split; [now right|now split].
  - intros k c e [Heq|Hin] Hd Hn; [|now apply (Hre k c e)].
    injection Heq as _ Heq. now destruct (Hv c Heq).
Qed.

Lemma strip_items_spec h items :
  child_ok h items ->
  forall hc acc, cleaned h hc ->
    exists depth hr, loop_post h items hc acc depth hr.
Proof.
  induction items as [|[key v] its IH]; intros Hch hc acc Hc.
  - exists 0, hc. unfold loop_post. simpl. rewrite app_nil_r.
    split; [reflexivity|]. split; [exact Hc|]. split.
    + intros l. now left.
    + intros key c e [].
  - assert (Hch' : child_ok h its).
    { intros k c Hin. apply (Hch k c). now right. }
    specialize (IH Hch').
    destruct v as [| b | n | x | s | l].
    1: destruct (IH hc (acc ++ [key]) Hc) as [depth [hr Hpost]].
    2-5: destruct (IH hc acc Hc) as [depth [hr Hpost]].
    1-5: exists depth, hr;
         eapply (loop_post_skip h); [discriminate| |reflexivity|exact Hpost];
         unfold keys_of_None; simpl; now rewrite <- ?app_assoc.
    destruct (hc !! l) as [[its_l|els]|] eqn:El.
    + assert (Hd : is_dict h l).
      { apply (cleaned_is_dict _ _ _ Hc). now exists its_l. }
      destruct (Hch key l (or_introl eq_refl) Hd hc Hc)
        as [n1 [h1 [Hrun1 [Hcl1 [Hfr1 Hre1]]]]].
      destruct (IH h1 acc Hcl1) as [n2 [hr [Hrun2 [Hcl2 [Hfr2 Hre2]]]]].
      exists (Nat.max n1 n2), hr. unfold loop_post, below.
      split; [|split; [exact Hcl2|split]].
      * simpl. rewrite El.
        assert (Hcall : strip_call (Nat.max n1 n2) hc l = inr h1).
        { unfold strip_call.
          now rewrite (strip_depth_le n1 _ _ _ _ (Nat.le_max_l _ _) Hrun1). }
        rewrite Hcall.
        apply (strip_items_mono (strip_call n2)); [|exact Hrun2].
        intros h' l' r. apply strip_call_le. apply Nat.le_max_r.
      * intros l'.
        destruct (Hfr2 l') as [Heq|[[k [c [Hin [Hdc Hn]]]] Hca]].
        -- destruct (Hfr1 l') as [Heq1|[Hn1 [its' [Ha Hb]]]].
           ++ left. now rewrite Heq.
           ++ right. split.
              ** exists key, l. split; [now left|now split].
              ** exists its'. split; [exact Ha|now rewrite Heq].
        -- right. split; [|exact Hca].
           exists k, c. split; [now right|now split].
      * intros k c e [Heq|Hin] Hdc Hn; [|now apply (Hre2 k c e)].
        injection Heq as _ <-.
        destruct (Hre1 e Hn) as [its' [Ha Hb]].
        destruct (Hfr2 e) as [Heq2|[_ Hca]]; [|exact Hca].
        exists its'. split; [exact Ha|now rewrite Heq2].
    + destruct (IH hc acc Hc) as [depth [hr Hpost]].
      exists depth, hr.
      eapply (loop_post_skip h); [| |simpl; rewrite El; reflexivity|exact Hpost].
      * intros c [= <-] Hd. apply (cleaned_is_dict _ _ _ Hc) in Hd.
        destruct Hd as [? Hd]. rewrite El in Hd. discriminate.
      * reflexivity.
    + destruct (IH hc acc Hc) as [depth [hr Hpost]].
      exists depth, hr.
      eapply (loop_post_skip h); [| |simpl; rewrite El; reflexivity|exact Hpost].
      * intros c [= <-] Hd. apply (cleaned_is_dict _ _ _ Hc) in Hd.
        destruct Hd as [? Hd]. rewrite El in Hd. discriminate.
      * reflexivity.
Qed.

(** *** One call *)

Lemma strip_spec h d :
  finite_dict h d ->
  forall h2, cleaned h h2 ->
    exists depth h3,
      _strip_nulls_in_place depth h2 d = inr (h3, d) /\
      strip_post h d h2 h3.
Proof.
  intros Hfin. assert (Hacyc := finite_dict_acyclic h d Hfin).
  induction Hfin as [d items Hd Hnd Hch IH].
  intros h2 Hc2.
  (* the items of [d] when the call starts *)
  assert (Hd2 : exists items2,
    h2 !! d = Some (ODict items2) /\ clean items2 = clean items /\
    NoDup (map fst items2) /\
    (forall key c, In (key, VRef c) items2 <-> In (key, VRef c) items)).
  { destruct (Hc2 d) as [Heq|[its [H1 H2]]].
    - exists items. rewrite Heq. repeat split; auto.
    - rewrite Hd in H1. injection H1 as <-.
      exists (clean items). split; [exact H2|]. split; [apply clean_idem|].
      split; [now apply NoDup_keys_filter|].
      intros. apply in_clean_ref. }
  destruct Hd2 as [items2 [Hd2 [Hclean [Hnd2 Hrefs]]]].
  assert (Hok : child_ok h items2).
  { intros key c Hin Hdc. apply Hrefs in Hin.
    apply (IH key c Hin Hdc).
    apply (finite_dict_acyclic h c). now apply (Hch key c). }
  destruct (strip_items_spec h items2 Hok h2 [] Hc2)
    as [n [hr [Hrun [Hclr [Hfr Hre]]]]].
  (* [d] itself is untouched by the loop *)
  assert (Hdr : hr !! d = Some (ODict items2)).
  { destruct (Hfr d) as [Heq|[[key [c [Hin [Hdc Hn]]]] _]]; [now rewrite Heq|].
    exfalso. apply (Hacyc c); [|exact Hn].
    exists items, key. split; [exact Hd|]. split; [|exact Hdc].
    now apply Hrefs. }
  exists (S n), (<[d := ODict (clean items)]> hr).
  assert (Hlt : d < length hr) by (eapply lookup_lt_Some; eauto).
  split; [|split; [|split]].
  - rewrite strip_unfold, Hd2, Hrun. simpl.
    rewrite (del_keys_spec _ _ _ items2 Hdr).
    + now rewrite remove_keys_of_None, Hclean.
    + now apply NoDup_keys_of_None.
    + apply keys_of_None_keys.
  - intros l. destruct (Nat.eq_dec l d) as [->|Hne].
    + right. exists items. split; [exact Hd|now apply list_lookup_insert_eq].
    + unfold cleaned_at. rewrite list_lookup_insert_ne by auto.
      destruct (Hclr l) as [Heq|[its [H1 H2]]]; [now left|right].
      exists its. split; assumption.
  - intros l. destruct (Nat.eq_dec l d) as [->|Hne].
    + right. split; [apply nested_here|].
      exists items. split; [exact Hd|now apply list_lookup_insert_eq].
    + unfold cleaned_at. rewrite list_lookup_insert_ne by auto.
      destruct (Hfr l) as [Heq|[[key [c [Hin [Hdc Hn]]]] [its [H1 H2]]]];
        [now left|right].
      split.
      * eapply nested_deeper; [|exact Hn].
        exists items, key. split; [exact Hd|]. split; [|exact Hdc].
        now apply Hrefs.
      * exists its. split; assumption.
  - intros e Hn. destruct (Nat.eq_dec e d) as [->|Hne].
    + exists items. split; [exact Hd|now apply list_lookup_insert_eq].
    + inversion Hn as [|d0 c e0 Hdc Hce]; subst; [congruence|].
      destruct Hdc as [its [key [Hd' [Hin Hisd]]]].
      rewrite Hd in Hd'. injection Hd' as <-.
      apply Hrefs in Hin.
      destruct (Hre key c e Hin Hisd Hce) as [its' [H1 H2]].
      exists its'. split; [exact H1|].
      now rewrite list_lookup_insert_ne by auto.
Qed.

Lemma finite_dict_cleaned h h' d :
  cleaned h h' -> finite_dict h d -> finite_dict h' d.
Proof.
  intros Hc. induction 1 as [d items Hd Hnd Hch IH].
  destruct (Hc d) as [Heq|[its [H1 H2]]].
  - apply (finite_dict_intro _ d items); [now rewrite Heq|exact Hnd|].
    intros key c Hin Hdc. apply (IH key c Hin).
    now apply (cleaned_is_dict _ _ _ Hc).
  - rewrite Hd in H1. injection H1 as <-.
    apply (finite_dict_intro _ d (clean items));
      [exact H2|now apply NoDup_keys_filter|].
    intros key c Hin Hdc. apply (IH key c); [now apply in_clean_ref|].
    now apply (cleaned_is_dict _ _ _ Hc).
Qed.

End StripNulls.

(** C2: on every dictionary [d] of finite nesting, [_strip_nulls_in_place]
    returns, given enough stack, the reference [d] it was given and a store
    [h'] mutated in place such that: every dictionary nested at any depth
    in [d] has lost the items whose value is [None] and kept the others, so
    that none of them binds a key to [None]; no list object is changed, nor
    is any object that is not nested in [d] through dictionaries only (so a
    [None] inside a dictionary that is only an element of a list survives);
    and a second call on [d] returns [d] again and leaves [h'] as it is. *)
Theorem strip_nulls_in_place_spec (h : store) (d : loc) :
  finite_dict h d ->
  exists depth h',
    (forall n, depth <= n -> _strip_nulls_in_place n h d = inr (h', d)) /\
    (forall e, nested_in h d e ->
       exists items,
         h !! e = Some (ODict items) /\ h' !! e = Some (ODict (clean items))) /\
    (forall e, nested_in h' d e -> no_None_at h' e) /\
    (forall l elems, h !! l = Some (OList elems) -> h' !! l = Some (OList elems)) /\
    (forall l, ~ nested_in h d l -> h' !! l = h !! l) /\
    (forall n, depth <= n -> _strip_nulls_in_place n h' d = inr (h', d)).
Proof.
  intros Hfin.
  destruct (strip_spec h d Hfin h (cleaned_refl h))
    as [n1 [h' [Hrun1 [Hc1 [Hfr1 Hre1]]]]].
  destruct (strip_spec h d Hfin h' Hc1)
    as [n2 [h'' [Hrun2 [Hc2 [Hfr2 Hre2]]]]].
  assert (Heq : h'' = h').
  { apply list_eq. intros l.
    destruct (Hfr2 l) as [Heq|[Hn [its [H1 H2]]]]; [exact Heq|].
    destruct (Hre1 l Hn) as [its' [H1' H2']].
    rewrite H1 in H1'. injection H1' as <-. now rewrite H2, H2'. }
  subst h''.
  exists (Nat.max n1 n2), h'. repeat split.
  - intros n Hn. apply (strip_depth_le n1); [lia|exact Hrun1].
  - exact Hre1.
  - intros e Hn. apply (cleaned_at_no_None h).
    apply Hre1. now apply (cleaned_nested_in h h' d e Hc1).
  - intros l elems Hl. destruct (Hc1 l) as [Heq|[its [H1 H2]]];
      [now rewrite Heq|congruence].
  - intros l Hn. destruct (Hfr1 l) as [Heq|[Hn' _]]; [exact Heq|contradiction].
  - intros n Hn. apply (strip_depth_le n2); [lia|exact Hrun2].
Qed.

(** [sample_store] has finite nesting from its first dictionary. *)
Lemma sample_store_finite : finite_dict sample_store 0.
Proof.
  assert (H1 : finite_dict sample_store 1).
  { eapply finite_dict_intro; [reflexivity| |].
    - apply (bool_decide_unpack _). reflexivity.
    - intros key c [Hin|[Hin|[]]]; discriminate. }
  eapply finite_dict_intro; [reflexivity| |].
  - apply (bool_decide_unpack _). reflexivity.
  - intros key c Hin [items Hd]. simpl in Hin.
    destruct Hin as [Hin|[Hin|[Hin|[Hin|[Hin|[]]]]]]; try discriminate;
      injection Hin as _ <-; [exact H1|discriminate|exact H1].
Qed.

Lemma strip_nulls_in_place_spec_witness :
  finite_dict sample_store 0 /\
  exists depth h',
    (forall n, depth <= n ->
       _strip_nulls_in_place n sample_store 0 = inr (h', 0)) /\
    (forall e, nested_in sample_store 0 e ->
       exists items,
         sample_store !! e = Some (ODict items) /\
         h' !! e = Some (ODict (clean items))) /\
    (forall e, nested_in h' 0 e -> no_None_at h' e) /\
    (forall l elems, sample_store !! l = Some (OList elems) ->
       h' !! l = Some (OList elems)) /\
    (forall l, ~ nested_in sample_store 0 l -> h' !! l = sample_store !! l) /\
    (forall n, depth <= n -> _strip_nulls_in_place n h' 0 = inr (h', 0)).
Proof.
  split; [exact sample_store_finite|].
  exact (strip_nulls_in_place_spec sample_store 0 sample_store_finite).
Defined.

(** On [sample_store] the call cleans the two dictionaries nested in the
    first one, and leaves alone the list and the dictionary inside it. *)
Example strip_sample_store :
  _strip_nulls_in_place 2 sample_store 0 =
  inr ([ ODict [("b", VRef 1); ("c", VRef 2); ("n", VInt 1); ("e", VRef 1)];
         ODict [("y", VStr "s")];
         OList [VNone; VRef 3];
         ODict [("z", VNone)] ], 0).
Proof. reflexivity. Qed.

(** A dictionary that contains itself exhausts any stack:
    [_strip_nulls_in_place] raises [RecursionError] whatever the depth
    available, and so never returns. *)
Theorem strip_cyclic_store (depth : nat) :
  _strip_nulls_in_place depth cyclic_store 0 = inl RecursionError.
Proof.
  induction depth as [|n IH]; [reflexivity|].
  rewrite strip_unfold. simpl. unfold strip_call. now rewrite IH.
Qed.

(** ** The data classes *)

(** X5: building an [ImageContentPermissions] again from the fields of one
    that the constructor has accepted, as decoding does, gives it back
    exactly when the sanitizer leaves its credits as they are. *)
Theorem ImageContentPermissions_rebuild (validate : string -> list string)
    (sanitize : string -> string) (copyright : string)
    (credits : option string) (license : string)
    (x : Data.ImageContentPermissions.t) :
  Data.ImageContentPermissions.new validate sanitize copyright credits license
    = inr x ->
  Data.ImageContentPermissions.new validate sanitize
    (Data.ImageContentPermissions.copyright x)
    (Data.ImageContentPermissions.credits x)
    (Data.ImageContentPermissions.license x) = inr x <->
  (forall c, Data.ImageContentPermissions.credits x = Some c ->
             c <> EmptyString -> sanitize c = c).
Proof.
  unfold Data.ImageContentPermissions.new.
  destruct (validate license) as [|err errs] eqn:Ev; [|discriminate].
  intros [= <-]. cbn [Data.ImageContentPermissions.copyright
                      Data.ImageContentPermissions.credits
                      Data.ImageContentPermissions.license].
  rewrite Ev.
  set (cr := match credits with
             | Some c => if String.eqb c "" then Some c else Some (sanitize c)
             | None => None
             end).
  split.
  - intros Heq c Hc Hne. injection Heq as Heq. rewrite Hc in Heq.
    destruct (String.eqb c "") eqn:E; [apply String.eqb_eq in E; contradiction|].
    congruence.
  - intros Hfix. f_equal. f_equal.
    destruct cr as [c|]; [|reflexivity].
    destruct (String.eqb c "") eqn:E; [reflexivity|].
    f_equal. apply Hfix; [reflexivity|]. now apply String.eqb_neq.
Qed.

Lemma ImageContentPermissions_rebuild_witness :
  Data.ImageContentPermissions.new sample_validate sample_sanitize
    "The authors" (Some "a <b>bold</b> claim") "MIT"
  = inr {| Data.ImageContentPermissions.copyright := "The authors";
           Data.ImageContentPermissions.credits := Some "a b>bold/b> claim";
           Data.ImageContentPermissions.license := "MIT" |} /\
  (Data.ImageContentPermissions.new sample_validate sample_sanitize
     "The authors" (Some "a b>bold/b> claim") "MIT"
   = inr {| Data.ImageContentPermissions.copyright := "The authors";
            Data.ImageContentPermissions.credits := Some "a b>bold/b> claim";
            Data.ImageContentPermissions.license := "MIT" |} <->
   (forall c, Some "a b>bold/b> claim" = Some c ->
              c <> EmptyString -> sample_sanitize c = c)).
Proof.
  assert (H : Data.ImageContentPermissions.new sample_validate sample_sanitize
                "The authors" (Some "a <b>bold</b> claim") "MIT"
              = inr {| Data.ImageContentPermissions.copyright := "The authors";
                       Data.ImageContentPermissions.credits :=
                         Some "a b>bold/b> claim";
                       Data.ImageContentPermissions.license := "MIT" |})
    by reflexivity.
  split; [exact H|].
  exact (ImageContentPermissions_rebuild sample_validate sample_sanitize
           "The authors" (Some "a <b>bold</b> claim") "MIT" _ H).
Defined.

(** ** The session *)

Section Session.

Context {collaborators : Collaborators}.

Lemma raise_for_status_error resp :
  (400 <= status_code resp < 600)%Z ->
  exists kind,
    raise_for_status resp =
    inl (HTTPError (PyStr.of_Z (status_code resp) +:+ kind +:+ reason resp
                    +:+ " for url: " +:+ url resp)).
Proof.
  intros Hs. unfold raise_for_status.
  destruct ((400 <=? status_code resp)%Z && (status_code resp <? 500)%Z) eqn:E4.
  - exists " Client Error: ".
    destruct (PyStr.of_Z (status_code resp)) eqn:Eo; [|reflexivity].
    unfold PyStr.of_Z in Eo.
    destruct (Z.to_int (status_code resp)) as [[]|[]]; discriminate.
  - assert (E5 : ((500 <=? status_code resp)%Z && (status_code resp <? 600)%Z)
                 = true).
    { apply andb_false_iff in E4. apply andb_true_iff. lia. }
    rewrite E5. exists " Server Error: ".
    destruct (PyStr.of_Z (status_code resp)) eqn:Eo; [|reflexivity].
    unfold PyStr.of_Z in Eo.
    destruct (Z.to_int (status_code resp)) as [[]|[]]; discriminate.
Qed.

Lemma raise_for_status_ok resp :
  ~ (400 <= status_code resp < 600)%Z -> raise_for_status resp = inr tt.
Proof.
  intros Hs. unfold raise_for_status.
  destruct ((400 <=? status_code resp)%Z && (status_code resp <? 500)%Z) eqn:E4.
  { apply andb_true_iff in E4. lia. }
  destruct ((500 <=? status_code resp)%Z && (status_code resp <? 600)%Z) eqn:E5.
  { apply andb_true_iff in E5. lia. }
  reflexivity.
Qed.

End Session.

(** C5, as amended: when the response has a status from 400 to 599,
    [_send_and_check] raises the [HTTPError] of [raise_for_status] with a
    message that holds the status, the reason and the text of the response
    body; for any other status, every 2xx one included, it returns the
    response as it came. *)
Theorem send_and_check_status {collaborators : Collaborators} (self : CxClient)
    (rel_url : string) (scopes : list string) (http_method : option string)
    (params : option (list (string * Z))) (json : option (store * loc))
    (trace : list request) (resp : Response) :
  let req := {| req_url := api_url (_config self) +:+ rel_url;
                req_new_token := true;
                req_scopes := scopes;
                req_http_method := http_method;
                req_params := params;
                req_json := json |} in
  send_request trace req = inr resp ->
  ((400 <= status_code resp < 600)%Z ->
   exists msg,
     _send_and_check self rel_url scopes http_method params json trace
       = (inl (HTTPError msg), trace ++ [req]) /\
     PyStr.contains (PyStr.of_Z (status_code resp)) msg = true /\
     PyStr.contains (reason resp) msg = true /\
     PyStr.contains (text resp) msg = true) /\
  (~ (400 <= status_code resp < 600)%Z ->
   _send_and_check self rel_url scopes http_method params json trace
     = (inr resp, trace ++ [req])).
Proof.
  intros req Hsend. unfold _send_and_check. fold req. rewrite Hsend. split.
  - intros Hs. destruct (raise_for_status_error resp Hs) as [kind ->].
    eexists. split; [reflexivity|]. repeat split.
    + apply contains_append_r, contains_append_r, contains_self.
    + apply contains_append_r, contains_append_l, contains_append_l,
        contains_append_r, contains_self.
    + apply contains_append_l, contains_append_l, contains_self.
  - intros Hs. now rewrite (raise_for_status_ok resp Hs).
Qed.

(** The 400 answer of the specification, and a 200 answer. *)
Lemma send_and_check_status_witness :
  ((send_request (Collaborators := bad_request_transport) []
      (get_request sample_handle) = inr bad_request /\
    (400 <= status_code bad_request < 600)%Z) /\
   exists msg,
     _send_and_check (collaborators := bad_request_transport) sample_client
       "/handle/test" default_scopes (Some "GET") None None []
       = (inl (HTTPError msg), [] ++ [get_request sample_handle]) /\
     PyStr.contains (PyStr.of_Z (status_code bad_request)) msg = true /\
     PyStr.contains (reason bad_request) msg = true /\
     PyStr.contains (text bad_request) msg = true) /\
  ((send_request (Collaborators := ok_transport) []
      (get_request sample_handle) = inr ok_response /\
    ~ (400 <= status_code ok_response < 600)%Z) /\
   _send_and_check (collaborators := ok_transport) sample_client
     "/handle/test" default_scopes (Some "GET") None None []
     = (inr ok_response, [] ++ [get_request sample_handle])).
Proof.
  assert (H1 : send_request (Collaborators := bad_request_transport) []
                 (get_request sample_handle) = inr bad_request) by reflexivity.
  assert (H2 : (400 <= status_code bad_request < 600)%Z) by (simpl; lia).
  assert (H3 : send_request (Collaborators := ok_transport) []
                 (get_request sample_handle) = inr ok_response) by reflexivity.
  assert (H4 : ~ (400 <= status_code ok_response < 600)%Z) by (simpl; lia).
  split; (split; [split; assumption|]).
  - exact (proj1 (send_and_check_status (collaborators := bad_request_transport)
                    sample_client "/handle/test" default_scopes (Some "GET")
                    None None [] bad_request H1) H2).
  - exact (proj2 (send_and_check_status (collaborators := ok_transport)
                    sample_client "/handle/test" default_scopes (Some "GET")
                    None None [] ok_response H3) H4).
Defined.

Example send_and_check_bad_request :
  fst (_send_and_check (collaborators := bad_request_transport) sample_client
         "/handle/test" default_scopes (Some "GET") None None [])
  = inl (HTTPError ("400 Client Error: Bad Request for url: http://localhost:7000/handle/test: "
                    +:+ bad_request_body)).
Proof. reflexivity. Qed.

(** C5 as stated fails on a status that is neither 2xx nor an error for
    [raise_for_status]: a 304 answer is returned, not raised. *)
Lemma send_and_check_not_modified :
  ~ (200 <= status_code not_modified < 300)%Z /\
  send_request (Collaborators := not_modified_transport) []
    (get_request sample_handle) = inr not_modified /\
  _send_and_check (collaborators := not_modified_transport) sample_client
    "/handle/test" default_scopes (Some "GET") None None []
  = (inr not_modified, [get_request sample_handle]).
Proof.
  split; [simpl; lia|]. split; reflexivity.
Qed.

(** ** The handle facade *)

Section Facade.

Context {collaborators : Collaborators}.
Context {find_request_json : DataclassJson Cx.FindImagesByLegacyRequest.t}.
Context {find_response_json : DataclassJson Cx.FindImagesByLegacyResponse.t}.
Context {handle_info_json : DataclassJson Data.HandleInfo.t}.
Context {handle_permissions_json : DataclassJson Data.HandlePermissions.t}.
Context {handle_stats_json : DataclassJson Data.HandleStats.t}.
Context {scene_info_response_json : DataclassJson SceneInfoResponse.t}.
Context {handle_update_json : DataclassJson Data.HandleUpdate.t}.
Context {add_image_request_json : DataclassJson AddImageRequest.t}.
Context {add_image_response_json : DataclassJson AddImageResponse.t}.
Context {add_scene_request_json : DataclassJson AddSceneRequest.t}.
Context {add_scene_response_json : DataclassJson AddSceneResponse.t}.
Context {TimelineResponse : Type}.
Context (TimelineResponse_results : TimelineResponse -> list Data.SceneHydrated.t).
Context {timeline_response_json : DataclassJson TimelineResponse}.

(** [_send_and_check] makes exactly one request. *)
Lemma send_and_check_trace self rel_url scopes http_method params json trace :
  snd (_send_and_check self rel_url scopes http_method params json trace)
  = trace ++ [ {| req_url := api_url (_config self) +:+ rel_url;
                  req_new_token := true;
                  req_scopes := scopes;
                  req_http_method := http_method;
                  req_params := params;
                  req_json := json |} ].
Proof.
  unfold _send_and_check.
  destruct (send_request _ _) as [e|resp]; [reflexivity|].
  destruct (raise_for_status resp) as [[]|]; reflexivity.
Qed.

(** What follows a request makes none. *)
Lemma bind_lift_trace {A B : Type} (m : M A) (k : A -> exn + B) trace :
  snd ((x <~ m ;; lift (k x)) trace) = snd (m trace).
Proof.
  unfold bind, lift. destruct (m trace) as [[e|a] t]; reflexivity.
Qed.

Lemma page_num_check (page_num : val) (n : Z) :
  py_int page_num = inr n ->
  try_except
    (match py_int page_num with
     | inl e => inl e
     | inr use_page_num =>
         match py_assert (0 <=? use_page_num)%Z with
         | inl e => inl e
         | inr _ => inr use_page_num
         end
     end)
    (fun _ => inl (ValueError ("invalid page_num argument " +:+ repr page_num)))
  = if (0 <=? n)%Z then inr n
    else inl (ValueError ("invalid page_num argument " +:+ repr page_num)).
Proof.
  intros ->. unfold py_assert, try_except. now destruct (0 <=? n)%Z.
Qed.

Lemma page_size_check (page_size : val) (m : Z) :
  py_int page_size = inr m ->
  try_except
    (match py_int page_size with
     | inl e => inl e
     | inr use_page_size =>
         match py_assert ((1 <=? use_page_size)%Z && (use_page_size <=? 100)%Z) with
         | inl e => inl e
         | inr _ => inr use_page_size
         end
     end)
    (fun _ => inl (ValueError ("invalid page_size argument " +:+ repr page_size)))
  = if ((1 <=? m)%Z && (m <=? 100)%Z) then inr m
    else inl (ValueError ("invalid page_size argument " +:+ repr page_size)).
Proof.
  intros ->. unfold py_assert, try_except.
  now destruct ((1 <=? m)%Z && (m <=? 100)%Z).
Qed.

(** With arguments that convert to a valid page and size, [scene_info]
    makes its request, and makes it with the converted integers. *)
Lemma scene_info_proceeds self page_num page_size n m trace :
  py_int page_num = inr n -> (0 <= n)%Z ->
  py_int (default (VInt 10) page_size) = inr m -> (1 <= m <= 100)%Z ->
  snd (scene_info self page_num page_size trace)
  = trace ++ [sceneinfo_request self n m].
Proof.
  intros Hn Hn0 Hm Hm1. unfold scene_info.
  rewrite (page_num_check _ _ Hn), (page_size_check _ _ Hm).
  replace (0 <=? n)%Z with true by (symmetry; apply Z.leb_le; lia).
  replace ((1 <=? m)%Z && (m <=? 100)%Z) with true
    by (symmetry; apply andb_true_iff; split; apply Z.leb_le; lia).
  unfold bind at 1 2. unfold lift at 1 2.
  unfold bind, lift, ret.
  pose proof (send_and_check_trace (client self) (_url_base self +:+ "/sceneinfo")
                default_scopes (Some "GET")
                (Some [("page", n); ("pagesize", m)]) None trace) as Ht.
  destruct (_send_and_check _ _ _ _ _ _ trace) as [[e|resp] t]; simpl in Ht;
    subst t; [reflexivity|].
  destruct (Response_json resp) as [e|j]; [reflexivity|].
  destruct (pop_error j) as [e|j']; [reflexivity|].
  destruct (schema_load j') as [e|r]; reflexivity.
Qed.

Lemma scene_info_bad_page_num self page_num page_size n trace :
  py_int page_num = inr n -> (n < 0)%Z ->
  scene_info self page_num page_size trace
  = (inl (ValueError ("invalid page_num argument " +:+ repr page_num)), trace).
Proof.
  intros Hn Hn0. unfold scene_info. rewrite (page_num_check _ _ Hn).
  replace (0 <=? n)%Z with false by (symmetry; apply Z.leb_gt; lia).
  reflexivity.
Qed.

Lemma scene_info_bad_page_size self page_num page_size n m trace :
  py_int page_num = inr n -> (0 <= n)%Z ->
  py_int (default (VInt 10) page_size) = inr m -> (m < 1 \/ 100 < m)%Z ->
  scene_info self page_num page_size trace
  = (inl (ValueError ("invalid page_size argument "
                      +:+ repr (default (VInt 10) page_size))), trace).
Proof.
  intros Hn Hn0 Hm Hm1. unfold scene_info.
  rewrite (page_num_check _ _ Hn), (page_size_check _ _ Hm).
  replace (0 <=? n)%Z with true by (symmetry; apply Z.leb_le; lia).
  replace ((1 <=? m)%Z && (m <=? 100)%Z) with false; [reflexivity|].
  symmetry. apply andb_false_iff.
  destruct Hm1; [left; apply Z.leb_gt|right; apply Z.leb_gt]; lia.
Qed.

Lemma get_timeline_proceeds self page_num n trace :
  py_int page_num = inr n -> (0 <= n)%Z ->
  snd (get_timeline TimelineResponse_results self page_num trace)
  = trace ++ [timeline_request self n].
Proof.
  intros Hn Hn0. unfold get_timeline. rewrite (page_num_check _ _ Hn).
  replace (0 <=? n)%Z with true by (symmetry; apply Z.leb_le; lia).
  unfold bind at 1. unfold lift at 1.
  unfold bind, lift, ret.
  pose proof (send_and_check_trace (client self) (_url_base self +:+ "/timeline")
                default_scopes (Some "GET") (Some [("page", n)]) None trace) as Ht.
  destruct (_send_and_check _ _ _ _ _ _ trace) as [[e|resp] t]; simpl in Ht;
    subst t; [reflexivity|].
  destruct (Response_json resp) as [e|j]; [reflexivity|].
  destruct (pop_error j) as [e|j']; [reflexivity|].
  destruct (schema_load j') as [e|r]; reflexivity.
Qed.

Lemma get_timeline_bad_page_num self page_num n trace :
  py_int page_num = inr n -> (n < 0)%Z ->
  get_timeline TimelineResponse_results self page_num trace
  = (inl (ValueError ("invalid page_num argument " +:+ repr page_num)), trace).
Proof.
  intros Hn Hn0. unfold get_timeline. rewrite (page_num_check _ _ Hn).
  replace (0 <=? n)%Z with false by (symmetry; apply Z.leb_gt; lia).
  reflexivity.
Qed.

(** C4: on integer arguments, [scene_info] raises a [ValueError] and makes
    no request when the page number is negative or the page size is
    outside 1..100; it makes its request when the page number is not
    negative and the page size is within 1..100; [get_timeline] raises a
    [ValueError] and makes no request when the page number is negative. *)
Theorem page_validation (self : HandleClient) (n m : Z) (trace : list request) :
  ((n < 0 \/ m < 1 \/ 100 < m)%Z ->
   exists msg,
     scene_info self (VInt n) (Some (VInt m)) trace
     = (inl (ValueError msg), trace)) /\
  ((0 <= n /\ 1 <= m <= 100)%Z ->
   snd (scene_info self (VInt n) (Some (VInt m)) trace)
   = trace ++ [sceneinfo_request self n m]) /\
  ((n < 0)%Z ->
   exists msg,
     get_timeline TimelineResponse_results self (VInt n) trace
     = (inl (ValueError msg), trace)).
Proof.
  repeat split.
  - intros Hbad. destruct (Z.lt_ge_cases n 0) as [Hn|Hn].
    + eexists. now apply (scene_info_bad_page_num self (VInt n) _ n).
    + eexists. apply (scene_info_bad_page_size self (VInt n) _ n m);
        [reflexivity|lia|reflexivity|lia].
  - intros [Hn Hm].
    now apply (scene_info_proceeds self (VInt n) (Some (VInt m)) n m).
  - intros Hn. eexists.
    now apply (get_timeline_bad_page_num self (VInt n) n).
Qed.

(** *** What [int] converts *)

(** The numerals of the Standard Library are read back digit by digit. *)
Lemma code_points_ascii c s :
  (PyInt.byte c <? 128)%Z = true ->
  PyInt.code_points (String c s) = cons (PyInt.byte c) <$> PyInt.code_points s.
Proof. intros H. cbn [PyInt.code_points]. cbv zeta. now rewrite H. Qed.

Lemma code_points_uint (d : Decimal.uint) :
  PyInt.code_points (NilEmpty.string_of_uint d) = Some (uint_codes d).
Proof.
  induction d; cbn [NilEmpty.string_of_uint uint_codes]; [reflexivity|..];
    (rewrite code_points_ascii by reflexivity); rewrite IHd; reflexivity.
Qed.

Lemma uint_codes_digits (d : Decimal.uint) :
  Forall (fun c => (48 <= c <= 57)%Z) (uint_codes d).
Proof. induction d; cbn [uint_codes]; constructor; (lia || assumption). Qed.

Lemma digit_ascii (c : Z) :
  (48 <= c <= 57)%Z -> PyInt.digit c = Some (c - 48)%Z.
Proof.
  intros Hc. unfold PyInt.digit, PyInt.decimal_zeros. cbn [List.find].
  replace ((48 <=? c)%Z && (c <? 48 + 10)%Z) with true; [reflexivity|].
  symmetry. apply andb_true_iff. split; [apply Z.leb_le|apply Z.ltb_lt]; lia.
Qed.

Lemma is_space_digit (c : Z) : (48 <= c <= 57)%Z -> PyInt.is_space c = false.
Proof.
  intros Hc. unfold PyInt.is_space.
  repeat (apply orb_false_iff; split);
    try (apply Z.eqb_neq; lia);
    apply andb_false_iff; (left; apply Z.leb_gt; lia) || (right; apply Z.leb_gt; lia).
Qed.

Lemma lstrip_digits (l : list Z) :
  Forall (fun c => (48 <= c <= 57)%Z) l -> PyInt.lstrip l = l.
Proof.
  intros [|c l' Hc _]; [reflexivity|].
  cbn [PyInt.lstrip]. now rewrite (is_space_digit c Hc).
Qed.

Lemma strip_digits (l : list Z) :
  Forall (fun c => (48 <= c <= 57)%Z) l -> PyInt.strip l = l.
Proof.
  intros Hl. unfold PyInt.strip. rewrite (lstrip_digits l Hl).
  rewrite lstrip_digits; [apply List.rev_involutive|].
  apply List.Forall_forall. intros c Hc. apply List.in_rev in Hc.
  exact (proj1 (List.Forall_forall _ _) Hl c Hc).
Qed.

Lemma digits_uint (d : Decimal.uint) : forall acc count after_digit,
  d <> Decimal.Nil \/ after_digit = true ->
  PyInt.digits (uint_codes d) acc count after_digit
  = Some (uint_value d acc, (count + Decimal.nb_digits d)%nat).
Proof.
  induction d; intros acc count after_digit Hd;
    cbn [uint_codes uint_value Decimal.nb_digits PyInt.digits].
  1: { destruct Hd as [Hd| ->]; [congruence|]. now rewrite Nat.add_0_r. }
  all: rewrite digit_ascii by lia; rewrite IHd by (now right);
       rewrite Nat.add_succ_r; repeat f_equal; lia.
Qed.

Lemma uint_value_pos (d : Decimal.uint) : forall p,
  uint_value d (Zpos p) = Zpos (Pos.of_uint_acc d p).
Proof.
  induction d; intros p; cbn [uint_value Pos.of_uint_acc]; [reflexivity|..];
    rewrite <- IHd; f_equal; lia.
Qed.

Lemma uint_value_0 (d : Decimal.uint) : uint_value d 0 = Z.of_uint d.
Proof.
  unfold Z.of_uint.
  induction d; cbn [uint_value Pos.of_uint]; [reflexivity|exact IHd|..];
    apply uint_value_pos.
Qed.

Lemma length_string_of_uint (d : Decimal.uint) :
  String.length (NilEmpty.string_of_uint d) = Decimal.nb_digits d.
Proof.
  induction d; cbn [NilEmpty.string_of_uint String.length Decimal.nb_digits];
    congruence.
Qed.

Lemma of_string_uint (d : Decimal.uint) :
  String.length (NilZero.string_of_uint d) <= PyInt.max_str_digits ->
  PyInt.of_string (NilZero.string_of_uint d) = Some (Z.of_uint d).
Proof.
  assert (Hnil : d = Decimal.Nil \/ d <> Decimal.Nil)
    by (destruct d; (now left) || (right; discriminate)).
  destruct Hnil as [->|Hd]; [reflexivity|].
  replace (NilZero.string_of_uint d) with (NilEmpty.string_of_uint d)
    by (destruct d; [congruence|reflexivity..]).
  rewrite length_string_of_uint. intros Hlen.
  unfold PyInt.of_string. rewrite code_points_uint.
  unfold PyInt.of_code_points.
  rewrite (strip_digits _ (uint_codes_digits d)).
  assert (Hhead : match uint_codes d with
                  | c :: _ => (48 <= c <= 57)%Z
                  | [] => False
                  end).
  { destruct d; cbn [uint_codes]; (congruence || lia). }
  assert (Hsign : match uint_codes d with
                  | c :: _ => (c =? 45)%Z
                  | [] => false
                  end = false).
  { destruct (uint_codes d) as [|c l]; [reflexivity|]. apply Z.eqb_neq. lia. }
  assert (Hrest : match uint_codes d with
                  | c :: l' => if (c =? 45)%Z || (c =? 43)%Z then l'
                               else uint_codes d
                  | [] => uint_codes d
                  end = uint_codes d).
  { destruct (uint_codes d) as [|c l] eqn:E; [reflexivity|].
    replace (c =? 45)%Z with false by (symmetry; apply Z.eqb_neq; lia).
    replace (c =? 43)%Z with false by (symmetry; apply Z.eqb_neq; lia).
    reflexivity. }
  cbv zeta. rewrite Hsign, Hrest.
  rewrite (digits_uint d 0%Z 0%nat false (or_introl Hd)).
  cbn [Nat.add].
  replace (Decimal.nb_digits d <=? PyInt.max_str_digits)%nat with true
    by (symmetry; now apply Nat.leb_le).
  now rewrite uint_value_0.
Qed.

(** The decimal numeral of a non-negative integer converts back to it,
    within the limit on the number of digits. *)
Lemma py_int_of_Z (n : Z) :
  (0 <= n)%Z -> String.length (PyStr.of_Z n) <= 4300 ->
  py_int (VStr (PyStr.of_Z n)) = inr n.
Proof.
  intros Hn. unfold PyStr.of_Z, py_int.
  destruct n as [|p|p]; [reflexivity| |lia].
  change (Z.to_int (Zpos p)) with (Decimal.Pos (Pos.to_uint p)).
  cbn [NilZero.string_of_int]. intros Hlen.
  rewrite (of_string_uint _ Hlen).
  change (Z.of_uint (Pos.to_uint p)) with (Z.of_int (Z.to_int (Zpos p))).
  now rewrite DecimalZ.of_to.
Qed.

(** A finite float converts to the integer part of its value: the integer
    of the same sign whose absolute value is the greatest one not above
    that of the float, [m * 2 ^ e]. *)
Lemma py_int_float (x : float) (s : bool) (m : positive) (e : Z) :
  Prim2SF x = S754_finite s m e ->
  exists r,
    py_int (VFloat x) = inr r /\
    (if s then r <= 0 else 0 <= r)%Z /\
    (0 <= e -> Z.abs r = Zpos m * 2 ^ e)%Z /\
    (e < 0 -> Z.abs r * 2 ^ (- e) <= Zpos m < (Z.abs r + 1) * 2 ^ (- e))%Z.
Proof.
  intros Hx. unfold py_int, float_trunc. rewrite Hx.
  destruct e as [|p|p].
  - exists (if s then (- Zpos m) else Zpos m)%Z.
    split; [reflexivity|]. destruct s; cbn [Z.abs Z.opp]; (split; [lia|]);
      split; lia.
  - exists (if s then (- (Zpos m * 2 ^ Zpos p)) else Zpos m * 2 ^ Zpos p)%Z.
    split; [now rewrite Z.shiftl_mul_pow2 by lia|].
    assert (0 < Zpos m * 2 ^ Zpos p)%Z by (apply Z.mul_pos_pos; lia).
    destruct s; (split; [lia|]); split; lia.
  - set (q := (Zpos m / 2 ^ Zpos p)%Z).
    assert (Hpow : (0 < 2 ^ Zpos p)%Z) by lia.
    assert (Hq0 : (0 <= q)%Z) by (apply Z.div_pos; lia).
    assert (Hlo : (q * 2 ^ Zpos p <= Zpos m)%Z).
    { rewrite Z.mul_comm. apply Z.mul_div_le. lia. }
    assert (Hhi : (Zpos m < (q + 1) * 2 ^ Zpos p)%Z).
    { rewrite Z.mul_comm. apply Z.mul_succ_div_gt. lia. }
    exists (if s then (- q) else q)%Z.
    split; [now rewrite Z.shiftr_div_pow2 by lia|].
    change (- Zneg p)%Z with (Zpos p).
    destruct s; (split; [lia|]); (split; [lia|]); intros _;
      rewrite ?Z.abs_opp, (Z.abs_eq q) by lia; lia.
Qed.

(** C10: a page number that [int] converts to a non-negative integer, and
    a page size that it converts to an integer within 1..100, are accepted
    whatever their type: [get_timeline] and [scene_info] make their
    requests with the converted integers.  And [int] converts an integer
    to itself, a Boolean to 0 or 1, the decimal numeral of a non-negative
    integer (of at most 4300 digits, the limit of the interpreter) to that
    integer, a float that is zero to 0, and any other finite float to its
    integer part, truncated towards zero.  So the string ["3"] and the
    float 3.9 are both sent as page 3. *)
Theorem page_arguments_coerced (self : HandleClient) (trace : list request) :
  (forall (page_num : val) (n : Z),
     py_int page_num = inr n -> (0 <= n)%Z ->
     snd (get_timeline TimelineResponse_results self page_num trace)
       = trace ++ [timeline_request self n] /\
     (forall (page_size : option val) (m : Z),
        py_int (default (VInt 10) page_size) = inr m -> (1 <= m <= 100)%Z ->
        snd (scene_info self page_num page_size trace)
          = trace ++ [sceneinfo_request self n m])) /\
  (forall n : Z, py_int (VInt n) = inr n) /\
  (forall b : bool, py_int (VBool b) = inr (if b then 1 else 0)%Z) /\
  (forall n : Z,
     (0 <= n)%Z -> String.length (PyStr.of_Z n) <= 4300 ->
     py_int (VStr (PyStr.of_Z n)) = inr n) /\
  (forall (x : float) (s : bool),
     Prim2SF x = S754_zero s -> py_int (VFloat x) = inr 0%Z) /\
  (forall (x : float) (s : bool) (m : positive) (e : Z),
     Prim2SF x = S754_finite s m e ->
     exists r,
       py_int (VFloat x) = inr r /\
       (if s then r <= 0 else 0 <= r)%Z /\
       (0 <= e -> Z.abs r = Zpos m * 2 ^ e)%Z /\
       (e < 0 -> Z.abs r * 2 ^ (- e) <= Zpos m < (Z.abs r + 1) * 2 ^ (- e))%Z).
Proof.
  split.
  { intros page_num n Hn Hn0. split.
    - now apply get_timeline_proceeds.
    - intros page_size m Hm Hm1. now apply scene_info_proceeds. }
  split; [reflexivity|]. split; [reflexivity|].
  split; [exact py_int_of_Z|].
  split; [|exact py_int_float].
  intros x s Hx. unfold py_int, float_trunc. now rewrite Hx.
Qed.

Lemma str_or_empty s : str_or s "" = s.
Proof.
  unfold str_or. destruct (String.eqb s "") eqn:E; [|reflexivity].
  apply String.eqb_eq in E. now subst.
Qed.

(** C7: [add_image_from_set] raises a [ValueError] and makes no request
    when the image set is not of Sky type or its base tile level is not 0;
    otherwise it hands to [add_image] a request whose WWT fields are those
    of the image set, whose storage has the URL of the image set as legacy
    URL template, and whose note is the name of the image set. *)
Theorem add_image_from_set_spec (self : HandleClient) (imageset : ImageSet.t)
    (trace : list request) :
  (ImageSet.data_set_type imageset <> SKY \/
   ImageSet.base_tile_level imageset <> 0%Z ->
   exists msg,
     add_image_from_set self imageset trace = (inl (ValueError msg), trace)) /\
  (ImageSet.data_set_type imageset = SKY ->
   ImageSet.base_tile_level imageset = 0%Z ->
   add_image_from_set self imageset trace =
   add_image self
     {| AddImageRequest.wwt :=
          {| Data.ImageWwt.base_degrees_per_tile :=
               ImageSet.base_degrees_per_tile imageset;
             Data.ImageWwt.bottoms_up := ImageSet.bottoms_up imageset;
             Data.ImageWwt.center_x := ImageSet.center_x imageset;
             Data.ImageWwt.center_y := ImageSet.center_y imageset;
             Data.ImageWwt.file_type := ImageSet.file_type imageset;
             Data.ImageWwt.offset_x := ImageSet.offset_x imageset;
             Data.ImageWwt.offset_y := ImageSet.offset_y imageset;
             Data.ImageWwt.projection := ImageSet.projection_value imageset;
             Data.ImageWwt.quad_tree_map := ImageSet.quad_tree_map imageset;
             Data.ImageWwt.rotation := ImageSet.rotation_deg imageset;
             Data.ImageWwt.tile_levels := ImageSet.tile_levels imageset;
             Data.ImageWwt.width_factor := ImageSet.width_factor imageset;
             Data.ImageWwt.thumbnail_url := ImageSet.thumbnail_url imageset |};
        AddImageRequest.storage :=
          {| Data.ImageStorage.legacy_url_template :=
               Some (ImageSet.url imageset) |};
        AddImageRequest.note := ImageSet.name imageset |} trace).
Proof.
  unfold add_image_from_set. split.
  - intros Hbad.
    destruct (DataSetType_eqb (ImageSet.data_set_type imageset) SKY) eqn:Et;
      cbn [negb]; [|eexists; reflexivity].
    destruct (ImageSet.base_tile_level imageset =? 0)%Z eqn:El;
      cbn [negb]; [|eexists; reflexivity].
    apply Z.eqb_eq in El. destruct Hbad as [Ht|Hl]; [|contradiction].
    destruct (ImageSet.data_set_type imageset); try discriminate.
    now destruct Ht.
  - intros -> ->. cbn [DataSetType_eqb negb Z.eqb]. now rewrite str_or_empty.
Qed.

(** *** The envelope *)

Ltac unwrap_tail Hex Hj :=
  rewrite Hex; cbn beta iota; rewrite Hj; cbn beta iota;
  match goal with
  | |- context [pop_error ?j] => destruct (pop_error j) as [?|?]
  end; cbn beta iota; try reflexivity;
  match goal with
  | |- context [schema_load ?j] => destruct (schema_load j) as [?|?]
  end; reflexivity.

Lemma get_unwraps self :
  unwraps (get self)
    (_send_and_check (client self) (_url_base self) default_scopes
       (Some "GET") None None)
    schema_load.
Proof.
  intros trace resp trace' j Hex Hj. unfold get, bind, lift.
  unwrap_tail Hex Hj.
Qed.

Lemma permissions_unwraps self :
  unwraps (permissions self)
    (_send_and_check (client self) (_url_base self +:+ "/permissions")
       default_scopes (Some "GET") None None)
    schema_load.
Proof.
  intros trace resp trace' j Hex Hj. unfold permissions, bind, lift.
  unwrap_tail Hex Hj.
Qed.

Lemma stats_unwraps self :
  unwraps (stats self)
    (_send_and_check (client self) (_url_base self +:+ "/stats")
       default_scopes (Some "GET") None None)
    schema_load.
Proof.
  intros trace resp trace' j Hex Hj. unfold stats, bind, lift.
  unwrap_tail Hex Hj.
Qed.

Lemma scene_info_unwraps self n m :
  (0 <= n)%Z -> (1 <= m <= 100)%Z ->
  unwraps (scene_info self (VInt n) (Some (VInt m)))
    (_send_and_check (client self) (_url_base self +:+ "/sceneinfo")
       default_scopes (Some "GET") (Some [("page", n); ("pagesize", m)]) None)
    (fun j => map_result SceneInfoResponse.results (schema_load j)).
Proof.
  intros Hn Hm trace resp trace' j Hex Hj. unfold scene_info.
  rewrite (page_num_check (VInt n) n eq_refl).
  rewrite (page_size_check (default (VInt 10) (Some (VInt m))) m eq_refl).
  replace (0 <=? n)%Z with true by (symmetry; apply Z.leb_le; lia).
  replace ((1 <=? m)%Z && (m <=? 100)%Z) with true
    by (symmetry; apply andb_true_iff; split; apply Z.leb_le; lia).
  unfold bind, lift, ret, map_result. unwrap_tail Hex Hj.
Qed.

Lemma get_timeline_unwraps self n :
  (0 <= n)%Z ->
  unwraps (get_timeline TimelineResponse_results self (VInt n))
    (_send_and_check (client self) (_url_base self +:+ "/timeline")
       default_scopes (Some "GET") (Some [("page", n)]) None)
    (fun j => map_result TimelineResponse_results (schema_load j)).
Proof.
  intros Hn trace resp trace' j Hex Hj. unfold get_timeline.
  rewrite (page_num_check (VInt n) n eq_refl).
  replace (0 <=? n)%Z with true by (symmetry; apply Z.leb_le; lia).
  unfold bind, lift, ret, map_result. unwrap_tail Hex Hj.
Qed.

Ltac unwrap_body Hex Hj :=
  match type of Hex with
  | context [_strip_nulls_in_place ?d ?h ?l] =>
      destruct (_strip_nulls_in_place d h l) as [?|?]; [discriminate|]
  end;
  cbn beta iota in Hex; unwrap_tail Hex Hj.

Lemma update_unwraps self updates :
  unwraps (update self updates)
    (body <~ lift (_strip_nulls_in_place stack_depth
                     (fst (to_dict updates)) (snd (to_dict updates))) ;;
     _send_and_check (client self) (_url_base self) default_scopes
       (Some "PATCH") None (Some body))
    inr.
Proof.
  intros trace resp trace' j Hex Hj. unfold update.
  unfold bind, lift, ret in *. unwrap_body Hex Hj.
Qed.

Lemma add_image_unwraps self image :
  unwraps (add_image self image)
    (body <~ lift (_strip_nulls_in_place stack_depth
                     (fst (to_dict image)) (snd (to_dict image))) ;;
     _send_and_check (client self) (_url_base self +:+ "/image")
       default_scopes (Some "POST") None (Some body))
    (fun j => map_result AddImageResponse.id (schema_load j)).
Proof.
  intros trace resp trace' j Hex Hj. unfold add_image.
  unfold bind, lift, ret, map_result in *. unwrap_body Hex Hj.
Qed.

Lemma add_scene_unwraps self scene :
  unwraps (add_scene self scene)
    (body <~ lift (_strip_nulls_in_place stack_depth
                     (fst (to_dict scene)) (snd (to_dict scene))) ;;
     _send_and_check (client self) (_url_base self +:+ "/scene")
       default_scopes (Some "POST") None (Some body))
    (fun j => map_result AddSceneResponse.id (schema_load j)).
Proof.
  intros trace resp trace' j Hex Hj. unfold add_scene.
  unfold bind, lift, ret, map_result in *. unwrap_body Hex Hj.
Qed.

(** [pop("error")] on a dictionary: the key goes, or its absence raises. *)
Lemma pop_error_dict (h : store) (l : loc) (items : list (string * val)) :
  h !! l = Some (ODict items) ->
  (In "error" (map fst items) ->
   pop_error (h, VRef l)
   = inr (<[l := ODict (List.filter
                          (fun p => negb (String.eqb (fst p) "error")) items)]> h,
          VRef l)) /\
  (~ In "error" (map fst items) ->
   pop_error (h, VRef l) = inl (KeyError "error")).
Proof.
  intros Hl. unfold pop_error, dict_del. cbn [fst snd]. rewrite Hl.
  destruct (existsb (fun p => String.eqb (fst p) "error") items) eqn:E.
  - split; [reflexivity|]. intros Hnot. exfalso. apply Hnot.
    apply List.existsb_exists in E. destruct E as [p [Hin Hp]].
    apply String.eqb_eq in Hp. rewrite <- Hp. now apply List.in_map.
  - split; [|reflexivity]. intros Hin. exfalso.
    apply List.in_map_iff in Hin. destruct Hin as [p [Hp Hin]].
    assert (Ht : existsb (fun p => String.eqb (fst p) "error") items = true).
    { apply List.existsb_exists. exists p. split; [exact Hin|].
      rewrite Hp. apply String.eqb_refl. }
    congruence.
Qed.

(** C9: each operation of [HandleClient] that decodes a response (with a
    valid page and page size where it takes them) removes the key
    ["error"] from the decoded body before the schema, or the caller, sees
    it, and raises the [KeyError] of [pop] when the body is a dictionary
    without that key. *)
Theorem handle_operations_pop_error (self : HandleClient)
    (updates : Data.HandleUpdate.t) (image : AddImageRequest.t)
    (scene : AddSceneRequest.t) :
  unwraps (get self)
    (_send_and_check (client self) (_url_base self) default_scopes
       (Some "GET") None None)
    schema_load /\
  unwraps (permissions self)
    (_send_and_check (client self) (_url_base self +:+ "/permissions")
       default_scopes (Some "GET") None None)
    schema_load /\
  unwraps (stats self)
    (_send_and_check (client self) (_url_base self +:+ "/stats")
       default_scopes (Some "GET") None None)
    schema_load /\
  (forall n m : Z,
     (0 <= n)%Z -> (1 <= m <= 100)%Z ->
     unwraps (scene_info self (VInt n) (Some (VInt m)))
       (_send_and_check (client self) (_url_base self +:+ "/sceneinfo")
          default_scopes (Some "GET")
          (Some [("page", n); ("pagesize", m)]) None)
       (fun j => map_result SceneInfoResponse.results (schema_load j))) /\
  unwraps (update self updates)
    (body <~ lift (_strip_nulls_in_place stack_depth
                     (fst (to_dict updates)) (snd (to_dict updates))) ;;
     _send_and_check (client self) (_url_base self) default_scopes
       (Some "PATCH") None (Some body))
    inr /\
  unwraps (add_image self image)
    (body <~ lift (_strip_nulls_in_place stack_depth
                     (fst (to_dict image)) (snd (to_dict image))) ;;
     _send_and_check (client self) (_url_base self +:+ "/image")
       default_scopes (Some "POST") None (Some body))
    (fun j => map_result AddImageResponse.id (schema_load j)) /\
  unwraps (add_scene self scene)
    (body <~ lift (_strip_nulls_in_place stack_depth
                     (fst (to_dict scene)) (snd (to_dict scene))) ;;
     _send_and_check (client self) (_url_base self +:+ "/scene")
       default_scopes (Some "POST") None (Some body))
    (fun j => map_result AddSceneResponse.id (schema_load j)) /\
  (forall n : Z,
     (0 <= n)%Z ->
     unwraps (get_timeline TimelineResponse_results self (VInt n))
       (_send_and_check (client self) (_url_base self +:+ "/timeline")
          default_scopes (Some "GET") (Some [("page", n)]) None)
       (fun j => map_result TimelineResponse_results (schema_load j))) /\
  (forall (h : store) (l : loc) (items : list (string * val)),
     h !! l = Some (ODict items) ->
     (In "error" (map fst items) ->
      pop_error (h, VRef l)
      = inr (<[l := ODict (List.filter
                             (fun p => negb (String.eqb (fst p) "error"))
                             items)]> h,
             VRef l)) /\
     (~ In "error" (map fst items) ->
      pop_error (h, VRef l) = inl (KeyError "error"))).
Proof.
  split; [apply get_unwraps|].
  split; [apply permissions_unwraps|].
  split; [apply stats_unwraps|].
  split; [intros n m; apply scene_info_unwraps|].
  split; [apply update_unwraps|].
  split; [apply add_image_unwraps|].
  split; [apply add_scene_unwraps|].
  split; [intros n; apply get_timeline_unwraps|].
  apply pop_error_dict.
Qed.

(** *** The scene adapter *)

(** The keyword [zoom_deg] names no field of [ScenePlace]. *)
Lemma ScenePlace_new_zoom_deg (ra dec zoom roll : float) :
  Data.ScenePlace.new
    [("ra_rad", ra); ("dec_rad", dec); ("zoom_deg", zoom); ("roll_rad", roll)]
  = inl (TypeError
           "ScenePlace.__init__() got an unexpected keyword argument 'zoom_deg'").
Proof. reflexivity. Qed.

(** C3: [add_scene_from_place] never returns a scene: once the lookups are
    done, the construction of [ScenePlace] is given the keyword [zoom_deg],
    which names no field of the class, and raises a [TypeError].  On the
    place of the specification (12 h, 45 degrees, no image set) nothing is
    sent at all, although the conversions would give pi and pi/4. *)
Theorem add_scene_from_place_raises (self : HandleClient) (place : Place.t)
    (trace : list request) :
  (exists e, fst (add_scene_from_place self place trace) = inl e) /\
  add_scene_from_place self sample_place trace
  = (inl (TypeError
            "ScenePlace.__init__() got an unexpected keyword argument 'zoom_deg'"),
     trace) /\
  (Place.ra_hr sample_place * H2R)%float = math_pi /\
  (Place.dec_deg sample_place * D2R)%float = (math_pi / 4)%float.
Proof.
  split; [|split; [reflexivity|split; reflexivity]].
  unfold add_scene_from_place. unfold bind at 1.
  destruct (lookup_layers _ _ _ trace) as [[e|layers] t]; [now exists e|].
  unfold bind at 1. rewrite ScenePlace_new_zoom_deg. eexists. reflexivity.
Qed.

(** The request of a lookup that returns. *)
Lemma find_images_trace (self : CxClient) (wwt_url : string)
    (trace trace' : list request) (hits : list Cx.ImageSummary.t) :
  find_images_by_wwt_url self wwt_url trace = (inr hits, trace') ->
  trace' = trace ++ [lookup_request self wwt_url].
Proof.
  unfold find_images_by_wwt_url, lookup_request, bind, lift, ret.
  destruct (_strip_nulls_in_place _ _ _) as [e|body]; [discriminate|].
  pose proof (send_and_check_trace self "/images/find-by-legacy-url"
                default_scopes None None (Some body) trace) as Ht.
  destruct (_send_and_check _ _ _ _ _ _ trace) as [[e|resp] t]; simpl in Ht;
    subst t; [discriminate|].
  destruct (Response_json resp) as [e|j]; [discriminate|].
  destruct (schema_load j) as [e|r]; [discriminate|].
  now intros [= _ <-].
Qed.

(** When every lookup finds an image, the loop goes through the image
    sets in the order of the list: it makes one lookup request and adds
    one layer for each image set that is not [None], the layer carrying
    the id of the first hit and opacity 1.0. *)
Lemma lookup_layers_found (self : HandleClient)
    (isets : list (option ImageSet.t)) (layers : list Data.SceneImageLayer.t)
    (trace : list request) (first_hit : ImageSet.t -> Cx.ImageSummary.t) :
  (forall iset t, In iset (omap id isets) ->
     exists hits t',
       find_images_by_wwt_url (client self) (ImageSet.url iset) t
       = (inr (first_hit iset :: hits), t')) ->
  lookup_layers self isets layers trace
  = (inr (layers ++ map (fun iset => layer_of (first_hit iset)) (omap id isets)),
     trace ++ map (fun iset => lookup_request (client self) (ImageSet.url iset))
                  (omap id isets)).
Proof.
  revert layers trace. induction isets as [|[iset|] isets IH];
    intros layers trace Hfind.
  - cbn. now rewrite !app_nil_r.
  - destruct (Hfind iset trace (or_introl eq_refl)) as [hits [t1 Hhit]].
    assert (Ht1 := find_images_trace _ _ _ _ _ Hhit). subst t1.
    cbn [lookup_layers]. unfold bind at 1. rewrite Hhit.
    rewrite IH by (intros i t Hi; apply Hfind; now right).
    cbn [omap id map]. now rewrite <- !app_assoc.
  - apply IH. intros i t Hi. now apply Hfind.
Qed.

(** X6: in [add_scene_from_place], a lookup that finds no image raises the
    [Exception] that names the URL, once the lookup request is made and
    before anything else is. *)
Theorem add_scene_from_place_no_match (self : HandleClient) (place : Place.t)
    (iset : ImageSet.t) (trace trace' : list request) :
  Place.background_image_set place = None ->
  Place.image_set place = Some iset ->
  find_images_by_wwt_url (client self) (ImageSet.url iset) trace
    = (inr [], trace') ->
  add_scene_from_place self place trace
  = (inl (Exception ("unable to find Constellations record for image URL `"
                     +:+ ImageSet.url iset +:+ "`")), trace').
Proof.
  intros Hb Hi Hfind. unfold add_scene_from_place. rewrite Hb, Hi.
  cbn [lookup_layers]. unfold bind at 1 2. now rewrite Hfind.
Qed.

(** X7: [add_scene_from_place] looks the image sets of the place up in
    the order background, main, foreground.  When every lookup finds an
    image, the requests it makes are the lookups of the image sets that
    are not [None], in that order, and the layers that its loop has built
    by then are those of the first hits, in that order, each with opacity
    1.0; after which the construction of the place raises. *)
Theorem add_scene_from_place_lookups (self : HandleClient) (place : Place.t)
    (trace : list request) (first_hit : ImageSet.t -> Cx.ImageSummary.t) :
  (forall iset t,
     In iset (omap id [Place.background_image_set place;
                       Place.image_set place;
                       Place.foreground_image_set place]) ->
     exists hits t',
       find_images_by_wwt_url (client self) (ImageSet.url iset) t
       = (inr (first_hit iset :: hits), t')) ->
  lookup_layers self
    [Place.background_image_set place; Place.image_set place;
     Place.foreground_image_set place] [] trace
  = (inr (map (fun iset => layer_of (first_hit iset))
              (omap id [Place.background_image_set place;
                        Place.image_set place;
                        Place.foreground_image_set place])),
     trace ++ map (fun iset => lookup_request (client self) (ImageSet.url iset))
                  (omap id [Place.background_image_set place;
                            Place.image_set place;
                            Place.foreground_image_set place])) /\
  add_scene_from_place self place trace
  = (inl (TypeError
            "ScenePlace.__init__() got an unexpected keyword argument 'zoom_deg'"),
     trace ++ map (fun iset => lookup_request (client self) (ImageSet.url iset))
                  (omap id [Place.background_image_set place;
                            Place.image_set place;
                            Place.foreground_image_set place])).
Proof.
  intros Hfind.
  pose proof (lookup_layers_found self _ [] trace first_hit Hfind) as Hloop.
  rewrite app_nil_l in Hloop. split; [exact Hloop|].
  unfold add_scene_from_place. unfold bind at 1. rewrite Hloop.
  unfold bind at 1. now rewrite ScenePlace_new_zoom_deg.
Qed.

End Facade.

(** A place with a background and a foreground, against a server that
    finds [sample_summary] for every URL: the background is looked up
    first. *)
Lemma add_scene_from_place_lookups_witness :
  (forall iset t,
     In iset (omap id [Place.background_image_set sample_place_layered;
                       Place.image_set sample_place_layered;
                       Place.foreground_image_set sample_place_layered]) ->
     exists hits t',
       find_images_by_wwt_url (collaborators := empty_object_transport)
         (find_request_json := find_request_schema)
         (find_response_json := one_result_schema)
         (client sample_handle) (ImageSet.url iset) t
       = (inr ((fun _ => sample_summary) iset :: hits), t')) /\
  add_scene_from_place (collaborators := empty_object_transport)
    (find_request_json := find_request_schema)
    (find_response_json := one_result_schema)
    (add_scene_request_json := opaque_schema _)
    (add_scene_response_json := opaque_schema _)
    sample_handle sample_place_layered []
  = (inl (TypeError
            "ScenePlace.__init__() got an unexpected keyword argument 'zoom_deg'"),
     [] ++ map (fun iset =>
                  lookup_request (collaborators := empty_object_transport)
                    (find_request_json := find_request_schema)
                    (client sample_handle) (ImageSet.url iset))
               (omap id [Place.background_image_set sample_place_layered;
                         Place.image_set sample_place_layered;
                         Place.foreground_image_set sample_place_layered])).
Proof.
  assert (H : forall iset t,
     In iset (omap id [Place.background_image_set sample_place_layered;
                       Place.image_set sample_place_layered;
                       Place.foreground_image_set sample_place_layered]) ->
     exists hits t',
       find_images_by_wwt_url (collaborators := empty_object_transport)
         (find_request_json := find_request_schema)
         (find_response_json := one_result_schema)
         (client sample_handle) (ImageSet.url iset) t
       = (inr ((fun _ => sample_summary) iset :: hits), t')).
  { intros iset t _. eexists. eexists. reflexivity. }
  split; [exact H|].
  exact (proj2 (add_scene_from_place_lookups
                  (collaborators := empty_object_transport)
                  (find_request_json := find_request_schema)
                  (find_response_json := one_result_schema)
                  (add_scene_request_json := opaque_schema _)
                  (add_scene_response_json := opaque_schema _)
                  sample_handle sample_place_layered []
                  (fun _ => sample_summary) H)).
Defined.

(** The requests of that call, in full: the body of the first holds the
    URL of the background, that of the second the URL of the foreground. *)
Example add_scene_from_place_layered :
  map req_json
    (snd (add_scene_from_place (collaborators := empty_object_transport)
            (find_request_json := find_request_schema)
            (find_response_json := one_result_schema)
            (add_scene_request_json := opaque_schema _)
            (add_scene_response_json := opaque_schema _)
            sample_handle sample_place_layered []))
  = [ Some ([ODict [("wwt_legacy_url",
                     VStr "http://example.org/background.png")]], 0);
      Some ([ODict [("wwt_legacy_url",
                     VStr "http://example.org/foreground.png")]], 0) ].
Proof. reflexivity. Qed.

(** With an image set that is found, the lookup is made and the
    construction of the place then fails: no scene is posted. *)
Example add_scene_from_place_after_lookup :
  add_scene_from_place (collaborators := empty_object_transport)
    (find_request_json := opaque_schema _)
    (find_response_json := one_result_schema)
    (add_scene_request_json := opaque_schema _)
    (add_scene_response_json := opaque_schema _)
    sample_handle sample_place_with_image []
  = (inl (TypeError
            "ScenePlace.__init__() got an unexpected keyword argument 'zoom_deg'"),
     [find_request sample_client]).
Proof. reflexivity. Qed.

(** A client configured by [new_dev] asks for URLs with two slashes. *)
Example new_dev_request_url :
  map req_url
    (snd (_send_and_check (collaborators := not_modified_transport)
            {| _config := new_dev |} "/handle/test" default_scopes
            (Some "GET") None None []))
  = ["https://api.wwtelescope.dev//handle/test"].
Proof. reflexivity. Qed.

Lemma add_scene_from_place_no_match_witness :
  (Place.background_image_set sample_place_with_image = None /\
   Place.image_set sample_place_with_image = Some (sample_imageset SKY 0) /\
   find_images_by_wwt_url (collaborators := empty_object_transport)
     (find_request_json := opaque_schema _)
     (find_response_json := no_result_schema)
     sample_client (ImageSet.url (sample_imageset SKY 0)) []
   = (inr [], [find_request sample_client])) /\
  add_scene_from_place (collaborators := empty_object_transport)
    (find_request_json := opaque_schema _)
    (find_response_json := no_result_schema)
    (add_scene_request_json := opaque_schema _)
    (add_scene_response_json := opaque_schema _)
    sample_handle sample_place_with_image []
  = (inl (Exception ("unable to find Constellations record for image URL `"
                     +:+ ImageSet.url (sample_imageset SKY 0) +:+ "`")),
     [find_request sample_client]).
Proof.
  assert (H3 : find_images_by_wwt_url (collaborators := empty_object_transport)
                 (find_request_json := opaque_schema _)
                 (find_response_json := no_result_schema)
                 sample_client (ImageSet.url (sample_imageset SKY 0)) []
               = (inr [], [find_request sample_client])) by reflexivity.
  split; [auto|].
  exact (add_scene_from_place_no_match
           (collaborators := empty_object_transport)
           (find_request_json := opaque_schema _)
           (find_response_json := no_result_schema)
           (add_scene_request_json := opaque_schema _)
           (add_scene_response_json := opaque_schema _)
           sample_handle sample_place_with_image (sample_imageset SKY 0)
           [] [find_request sample_client] eq_refl eq_refl H3).
Defined.

(** An image set of Earth type, one of Sky type at level 1, and one that
    passes. *)
Lemma add_image_from_set_spec_witness :
  (((ImageSet.data_set_type (sample_imageset EARTH 0) <> SKY \/
     ImageSet.base_tile_level (sample_imageset EARTH 0) <> 0%Z) /\
    exists msg,
      add_image_from_set (collaborators := not_modified_transport)
        (add_image_request_json := opaque_schema _)
        (add_image_response_json := opaque_schema _)
        sample_handle (sample_imageset EARTH 0) []
      = (inl (ValueError msg), [])) /\
   ((ImageSet.data_set_type (sample_imageset SKY 1) <> SKY \/
     ImageSet.base_tile_level (sample_imageset SKY 1) <> 0%Z) /\
    exists msg,
      add_image_from_set (collaborators := not_modified_transport)
        (add_image_request_json := opaque_schema _)
        (add_image_response_json := opaque_schema _)
        sample_handle (sample_imageset SKY 1) []
      = (inl (ValueError msg), []))) /\
  (ImageSet.data_set_type (sample_imageset SKY 0) = SKY /\
   ImageSet.base_tile_level (sample_imageset SKY 0) = 0%Z) /\
  add_image_from_set (collaborators := not_modified_transport)
    (add_image_request_json := opaque_schema _)
    (add_image_response_json := opaque_schema _)
    sample_handle (sample_imageset SKY 0) [] =
  add_image (collaborators := not_modified_transport)
    (add_image_request_json := opaque_schema _)
    (add_image_response_json := opaque_schema _)
    sample_handle sample_image_request [].
Proof.
  pose (thm := add_image_from_set_spec (collaborators := not_modified_transport)
                 (add_image_request_json := opaque_schema _)
                 (add_image_response_json := opaque_schema _) sample_handle).
  assert (H1 : ImageSet.data_set_type (sample_imageset EARTH 0) <> SKY \/
               ImageSet.base_tile_level (sample_imageset EARTH 0) <> 0%Z)
    by (left; discriminate).
  assert (H2 : ImageSet.data_set_type (sample_imageset SKY 1) <> SKY \/
               ImageSet.base_tile_level (sample_imageset SKY 1) <> 0%Z)
    by (right; discriminate).
  split; [split; split; try assumption|split; [split; reflexivity|]].
  - exact (proj1 (thm (sample_imageset EARTH 0) []) H1).
  - exact (proj1 (thm (sample_imageset SKY 1) []) H2).
  - exact (proj2 (thm (sample_imageset SKY 0) []) eq_refl eq_refl).
Defined.

(** [get] against a server that answers
    [{"error": false, "handle": "test", "display_name": "Test"}]. *)
Lemma handle_operations_pop_error_witness :
  (_send_and_check (collaborators := handle_info_transport)
     (client sample_handle) (_url_base sample_handle) default_scopes
     (Some "GET") None None []
   = (inr ok_response, [get_request sample_handle]) /\
   Response_json (Collaborators := handle_info_transport) ok_response
   = inr handle_info_body) /\
  get (collaborators := handle_info_transport)
    (handle_info_json := HandleInfo_schema) sample_handle []
  = (match pop_error handle_info_body with
     | inl e => inl e
     | inr j' => schema_load (DataclassJson := HandleInfo_schema) j'
     end, [get_request sample_handle]).
Proof.
  assert (H3 : _send_and_check (collaborators := handle_info_transport)
                 (client sample_handle) (_url_base sample_handle)
                 default_scopes (Some "GET") None None []
               = (inr ok_response, [get_request sample_handle]))
    by reflexivity.
  assert (H4 : Response_json (Collaborators := handle_info_transport)
                 ok_response = inr handle_info_body) by reflexivity.
  split; [auto|].
  exact (proj1 (handle_operations_pop_error
                  (collaborators := handle_info_transport)
                  (handle_info_json := HandleInfo_schema)
                  (handle_permissions_json := opaque_schema _)
                  (handle_stats_json := opaque_schema _)
                  (scene_info_response_json := opaque_schema _)
                  (handle_update_json := opaque_schema _)
                  (add_image_request_json := opaque_schema _)
                  (add_image_response_json := opaque_schema _)
                  (add_scene_request_json := opaque_schema _)
                  (add_scene_response_json := opaque_schema _)
                  sample_timeline_results
                  (timeline_response_json := opaque_schema _)
                  sample_handle sample_update sample_image_request
                  sample_scene_request)
           [] ok_response [get_request sample_handle] handle_info_body H3 H4).
Defined.

(** The same exchange, run: the schema, which refuses unknown keys, is
    given the body without ["error"]. *)
Example get_handle_info :
  get (collaborators := handle_info_transport)
    (handle_info_json := HandleInfo_schema) sample_handle []
  = (inr {| Data.HandleInfo.handle := "test";
            Data.HandleInfo.display_name := "Test" |},
     [get_request sample_handle]).
Proof. reflexivity. Qed.

(** A success status with a body that lacks ["error"] makes [get] raise. *)
Example get_without_error_key :
  get (collaborators := constant_transport ok_response (inr bare_handle_info_body))
    (handle_info_json := HandleInfo_schema) sample_handle []
  = (inl (KeyError "error"), [get_request sample_handle]).
Proof. reflexivity. Qed.

(** The three calls of the specification, and a negative timeline page. *)
Lemma page_validation_witness :
  (((-1 < 0 \/ 10 < 1 \/ 100 < 10)%Z /\
    exists msg,
      @scene_info not_modified_transport (opaque_schema _) sample_handle
        (VInt (-1)) (Some (VInt 10)) []
      = (inl (ValueError msg), [])) /\
   ((0 < 0 \/ 101 < 1 \/ 100 < 101)%Z /\
    exists msg,
      @scene_info not_modified_transport (opaque_schema _) sample_handle
        (VInt 0) (Some (VInt 101)) []
      = (inl (ValueError msg), []))) /\
  ((0 <= 0 /\ 1 <= 100 <= 100)%Z /\
   snd (@scene_info not_modified_transport (opaque_schema _) sample_handle
          (VInt 0) (Some (VInt 100)) [])
   = [] ++ [sceneinfo_request sample_handle 0 100]) /\
  ((-1 < 0)%Z /\
   exists msg,
     @get_timeline not_modified_transport unit sample_timeline_results
       (opaque_schema _) sample_handle (VInt (-1)) []
     = (inl (ValueError msg), [])).
Proof.
  pose (thm := @page_validation not_modified_transport (opaque_schema _) unit
                 sample_timeline_results (opaque_schema _) sample_handle).
  assert (H1 : (-1 < 0 \/ 10 < 1 \/ 100 < 10)%Z) by lia.
  assert (H2 : (0 < 0 \/ 101 < 1 \/ 100 < 101)%Z) by lia.
  assert (H3 : (0 <= 0 /\ 1 <= 100 <= 100)%Z) by lia.
  assert (H4 : (-1 < 0)%Z) by lia.
  split; [split|split]; split; try assumption.
  - exact (proj1 (thm (-1)%Z 10%Z []) H1).
  - exact (proj1 (thm 0%Z 101%Z []) H2).
  - exact (proj1 (proj2 (thm 0%Z 100%Z [])) H3).
  - exact (proj2 (proj2 (thm (-1)%Z 10%Z [])) H4).
Defined.

(** The float 3.9 as page number and the string ["3"] as page size: both
    are converted to 3, the float by truncation. *)
Lemma page_arguments_coerced_witness :
  (((py_int (collaborators := not_modified_transport) (VFloat float_3_9)
     = inr 3%Z /\ (0 <= 3)%Z) /\
    snd (get_timeline (collaborators := not_modified_transport)
           sample_timeline_results (timeline_response_json := opaque_schema _)
           sample_handle (VFloat float_3_9) [])
    = [] ++ [timeline_request sample_handle 3]) /\
   ((py_int (collaborators := not_modified_transport)
       (default (VInt 10) (Some (VStr "3"))) = inr 3%Z /\
     (1 <= 3 <= 100)%Z) /\
    snd (scene_info (collaborators := not_modified_transport)
           (scene_info_response_json := opaque_schema _) sample_handle
           (VFloat float_3_9) (Some (VStr "3")) [])
    = [] ++ [sceneinfo_request sample_handle 3 3])) /\
  (((0 <= 3)%Z /\ String.length (PyStr.of_Z 3) <= 4300) /\
   py_int (collaborators := not_modified_transport) (VStr (PyStr.of_Z 3))
   = inr 3%Z) /\
  (Prim2SF float_3_9 = S754_finite false 8782019273372467 (-51) /\
   exists r,
     py_int (collaborators := not_modified_transport) (VFloat float_3_9)
     = inr r /\
     (0 <= r)%Z /\
     (0 <= -51 -> Z.abs r = 8782019273372467 * 2 ^ (-51))%Z /\
     (-51 < 0 ->
      Z.abs r * 2 ^ (- -51) <= 8782019273372467
      < (Z.abs r + 1) * 2 ^ (- -51))%Z).
Proof.
  assert (H1 : py_int (collaborators := not_modified_transport)
                 (VFloat float_3_9) = inr 3%Z) by (vm_compute; reflexivity).
  assert (H2 : (0 <= 3)%Z) by lia.
  assert (H3 : py_int (collaborators := not_modified_transport)
                 (default (VInt 10) (Some (VStr "3"))) = inr 3%Z)
    by (vm_compute; reflexivity).
  assert (H4 : (1 <= 3 <= 100)%Z) by lia.
  assert (H5 : String.length (PyStr.of_Z 3) <= 4300)
    by (apply Nat.leb_le; vm_compute; reflexivity).
  assert (H6 : Prim2SF float_3_9 = S754_finite false 8782019273372467 (-51))
    by (vm_compute; reflexivity).
  pose (thm := page_arguments_coerced (collaborators := not_modified_transport)
                 (scene_info_response_json := opaque_schema _)
                 sample_timeline_results
                 (timeline_response_json := opaque_schema _)
                 sample_handle []).
  split; [split; (split; [split; assumption|])|split].
  - exact (proj1 (proj1 thm (VFloat float_3_9) 3%Z H1 H2)).
  - exact (proj2 (proj1 thm (VFloat float_3_9) 3%Z H1 H2)
             (Some (VStr "3")) 3%Z H3 H4).
  - split; [split; assumption|].
    exact (proj1 (proj2 (proj2 (proj2 thm))) 3%Z H2 H5).
  - split; [exact H6|].
    exact (proj2 (proj2 (proj2 (proj2 (proj2 thm))))
             float_3_9 false 8782019273372467%positive (-51)%Z H6).
Defined.

(** [int] on values that are not integers: among the strings, the
    separators 0x1C to 0x1F are no white space for [int], a no-break space
    is, and the digits of other scripts are digits. *)
Example py_int_examples :
  py_int (collaborators := not_modified_transport) (VStr "3") = inr 3%Z /\
  py_int (collaborators := not_modified_transport) (VStr " +1_000 ")
  = inr 1000%Z /\
  py_int (collaborators := not_modified_transport) (VStr "3.9")
  = inl (ValueError (int_message (Collaborators := not_modified_transport)
                       (VStr "3.9"))) /\
  py_int (collaborators := not_modified_transport) (VStr separators_3)
  = inl (ValueError (int_message (Collaborators := not_modified_transport)
                       (VStr separators_3))) /\
  py_int (collaborators := not_modified_transport) (VStr arabic_indic_3)
  = inr 3%Z /\
  py_int (collaborators := not_modified_transport) (VStr nbsp_3) = inr 3%Z /\
  py_int (collaborators := not_modified_transport) (VFloat float_3_9)
  = inr 3%Z /\
  py_int (collaborators := not_modified_transport) (VFloat (-0.5)) = inr 0%Z /\
  py_int (collaborators := not_modified_transport) (VFloat infinity)
  = inl OverflowError /\
  py_int (collaborators := not_modified_transport) (VFloat nan)
  = inl (ValueError "cannot convert float NaN to integer") /\
  py_int (collaborators := not_modified_transport) (VBool true) = inr 1%Z /\
  py_int (collaborators := not_modified_transport) VNone
  = inl (TypeError (int_message (Collaborators := not_modified_transport)
                      VNone)).
Proof. vm_compute. repeat split; reflexivity. Qed.

(** The limit of the interpreter on the digits of a literal: 4300 digits
    are converted, 4301 are refused. *)
Example py_int_limit :
  (exists n, py_int (collaborators := not_modified_transport)
               (VStr (ones 4300)) = inr n) /\
  py_int (collaborators := not_modified_transport) (VStr (ones 4301))
  = inl (ValueError (int_message (Collaborators := not_modified_transport)
                       (VStr (ones 4301)))).
Proof.
  split; [|vm_compute; reflexivity].
  destruct (py_int (collaborators := not_modified_transport)
              (VStr (ones 4300))) as [e|n] eqn:E;
    [vm_compute in E; discriminate|now exists n].
Qed.

(** The separators are refused as a page number, and nothing is sent; the
    Arabic-Indic three is sent as page 3. *)
Example get_timeline_strings :
  get_timeline (collaborators := not_modified_transport)
    sample_timeline_results (timeline_response_json := opaque_schema _)
    sample_handle (VStr separators_3) []
  = (inl (ValueError ("invalid page_num argument "
                      +:+ repr (Collaborators := not_modified_transport)
                            (VStr separators_3))), []) /\
  snd (get_timeline (collaborators := not_modified_transport)
         sample_timeline_results (timeline_response_json := opaque_schema _)
         sample_handle (VStr arabic_indic_3) [])
  = [timeline_request sample_handle 3].
Proof. split; reflexivity. Qed.

(** The message of a licence with two errors names both, and that of a
    constructor call with missing fields counts and names them. *)
Example constructor_messages :
  Data.ImageContentPermissions.new (fun _ => ["E1"; "E2"]) id "c" None "x"
  = inl (ExpressionError
           ("Invalid SPDX license:" +:+ String "010" "E1"
            +:+ String "010" "E2")) /\
  Data.ScenePlace.new [("dec_rad", 1%float); ("roi_aspect_ratio", 1%float)]
  = inl (TypeError "ScenePlace.__init__() missing 3 required positional arguments: 'ra_rad', 'roll_rad', and 'roi_height_deg'") /\
  Data.ScenePlace.new [("ra_rad", 1%float); ("dec_rad", 1%float);
                       ("roll_rad", 1%float); ("roi_height_deg", 1%float)]
  = inl (TypeError "ScenePlace.__init__() missing 1 required positional argument: 'roi_aspect_ratio'").
Proof. vm_compute. repeat split; reflexivity. Qed.

(** * Further properties *)

(** ** Client configuration, continued *)

(** X8: [new_default] raises exactly when [NUXT_PUBLIC_API_URL] is unset,
    or when neither [NUXT_PUBLIC_KEYCLOAK_URL] nor [KEYCLOAK_URL] is set
    and the API URL contains neither ["localhost"] nor
    ["wwtelescope.dev"]. *)
Theorem new_default_raises_iff (env : environ) :
  (exists e, new_default env = inl e) <->
  env !! "NUXT_PUBLIC_API_URL" = None \/
  (exists u,
     env !! "NUXT_PUBLIC_API_URL" = Some u /\
     env !! "NUXT_PUBLIC_KEYCLOAK_URL" = None /\
     env !! "KEYCLOAK_URL" = None /\
     PyStr.contains "localhost" u = false /\
     PyStr.contains "wwtelescope.dev" u = false).
Proof.
  unfold new_default, environ_get.
  destruct (env !! "NUXT_PUBLIC_API_URL") as [u|].
  - destruct (env !! "NUXT_PUBLIC_KEYCLOAK_URL") as [k1|].
    { split; [intros [e He]; discriminate|].
      intros [Hn|[u' [_ [Hk _]]]]; discriminate. }
    destruct (env !! "KEYCLOAK_URL") as [k2|].
    { split; [intros [e He]; discriminate|].
      intros [Hn|[u' [_ [_ [Hk _]]]]]; discriminate. }
    destruct (PyStr.contains "localhost" u) eqn:El.
    { split; [intros [e He]; discriminate|].
      intros [Hn|[u' [[= <-] [_ [_ [Hl _]]]]]]; [discriminate|congruence]. }
    destruct (PyStr.contains "wwtelescope.dev" u) eqn:Ed.
    { split; [intros [e He]; discriminate|].
      intros [Hn|[u' [[= <-] [_ [_ [_ Hd]]]]]]; [discriminate|congruence]. }
    split; [|eauto]. intros _. right. exists u. repeat split; assumption.
  - split; eauto.
Qed.

(** ** What the operations send *)

Section Sending.

Context {A B : Type}.
Implicit Types (shape : request -> Prop).

Lemma sends_lift (r : exn + A) shape : sends_at_most (lift r) 0 shape.
Proof.
  intros trace. exists []. rewrite app_nil_r. repeat split; auto.
Qed.

Lemma sends_ret (a : A) shape : sends_at_most (ret a) 0 shape.
Proof.
  intros trace. exists []. rewrite app_nil_r. repeat split; auto.
Qed.

Lemma sends_weaken (op : M A) (k k' : nat) shape :
  k <= k' -> sends_at_most op k shape -> sends_at_most op k' shape.
Proof.
  intros Hk Hop trace. destruct (Hop trace) as [reqs [H1 [H2 H3]]].
  exists reqs. repeat split; auto. lia.
Qed.

Lemma sends_bind (m : M A) (k : A -> M B) (a b : nat) shape :
  sends_at_most m a shape ->
  (forall x, sends_at_most (k x) b shape) ->
  sends_at_most (bind m k) (a + b) shape.
Proof.
  intros Hm Hk trace. unfold bind.
  destruct (Hm trace) as [reqs [H1 [H2 H3]]].
  destruct (m trace) as [[e|x] t]; simpl in H1; subst t.
  - exists reqs. repeat split; auto. lia.
  - destruct (Hk x (trace ++ reqs)) as [reqs' [H1' [H2' H3']]].
    exists (reqs ++ reqs'). rewrite H1', app_assoc. repeat split.
    + rewrite length_app. lia.
    + apply Forall_app. split; assumption.
Qed.

End Sending.

Section FacadeRequests.

Context {collaborators : Collaborators}.
Context {find_request_json : DataclassJson Cx.FindImagesByLegacyRequest.t}.
Context {find_response_json : DataclassJson Cx.FindImagesByLegacyResponse.t}.
Context {handle_info_json : DataclassJson Data.HandleInfo.t}.
Context {handle_permissions_json : DataclassJson Data.HandlePermissions.t}.
Context {handle_stats_json : DataclassJson Data.HandleStats.t}.
Context {scene_info_response_json : DataclassJson SceneInfoResponse.t}.
Context {handle_update_json : DataclassJson Data.HandleUpdate.t}.
Context {add_image_request_json : DataclassJson AddImageRequest.t}.
Context {add_image_response_json : DataclassJson AddImageResponse.t}.
Context {add_scene_request_json : DataclassJson AddSceneRequest.t}.
Context {add_scene_response_json : DataclassJson AddSceneResponse.t}.
Context {TimelineResponse : Type}.
Context (TimelineResponse_results : TimelineResponse -> list Data.SceneHydrated.t).
Context {timeline_response_json : DataclassJson TimelineResponse}.

Lemma sends_bind_lift {A B : Type} (r : exn + A) (k : A -> M B) (n : nat)
    (shape : request -> Prop) :
  (forall x, sends_at_most (k x) n shape) ->
  sends_at_most (bind (lift r) k) n shape.
Proof. intros Hk. apply (sends_bind _ _ 0 n); [apply sends_lift|exact Hk]. Qed.

Lemma sends_bind_last {A B : Type} (m : M A) (k : A -> M B) (n : nat)
    (shape : request -> Prop) :
  sends_at_most m n shape ->
  (forall x, sends_at_most (k x) 0 shape) ->
  sends_at_most (bind m k) n shape.
Proof.
  intros Hm Hk. apply (sends_weaken _ (n + 0)); [lia|].
  now apply sends_bind.
Qed.

Lemma sends_send_and_check self rel_url http_method params json :
  sends_at_most
    (_send_and_check self rel_url default_scopes http_method params json) 1
    (request_to self rel_url http_method).
Proof.
  intros trace. eexists. split; [apply send_and_check_trace|].
  split; [reflexivity|]. repeat constructor.
Qed.

Ltac sends_nothing :=
  repeat (apply sends_bind_lift; intros ?);
  first [apply sends_lift | apply sends_ret].

Ltac sends_one :=
  repeat (apply sends_bind_lift; intros ?);
  apply sends_bind_last; [apply sends_send_and_check|intros ?; sends_nothing].

Lemma add_image_sends self image :
  sends_at_most (add_image self image) 1
    (request_to (client self) (_url_base self +:+ "/image") (Some "POST")).
Proof. unfold add_image. sends_one. Qed.

Lemma find_images_sends self wwt_url :
  sends_at_most (find_images_by_wwt_url self wwt_url) 1
    (request_to self "/images/find-by-legacy-url" None).
Proof. unfold find_images_by_wwt_url. sends_one. Qed.

(** X9: every operation of [HandleClient] other than
    [add_scene_from_place], and [find_images_by_wwt_url], makes at most one
    request whatever its arguments and whatever the server answers: there
    is no retry.  The request goes to the API URL followed by the path of
    the operation, with the method of the operation, [new_token=True] and
    the default scopes. *)
Theorem operations_send_one_request (self : HandleClient)
    (page_num : val) (page_size : option val)
    (updates : Data.HandleUpdate.t) (image : AddImageRequest.t)
    (imageset : ImageSet.t) (scene : AddSceneRequest.t) (wwt_url : string) :
  sends_at_most (get self) 1
    (request_to (client self) (_url_base self) (Some "GET")) /\
  sends_at_most (permissions self) 1
    (request_to (client self) (_url_base self +:+ "/permissions") (Some "GET")) /\
  sends_at_most (stats self) 1
    (request_to (client self) (_url_base self +:+ "/stats") (Some "GET")) /\
  sends_at_most (scene_info self page_num page_size) 1
    (request_to (client self) (_url_base self +:+ "/sceneinfo") (Some "GET")) /\
  sends_at_most (update self updates) 1
    (request_to (client self) (_url_base self) (Some "PATCH")) /\
  sends_at_most (add_image self image) 1
    (request_to (client self) (_url_base self +:+ "/image") (Some "POST")) /\
  sends_at_most (add_image_from_set self imageset) 1
    (request_to (client self) (_url_base self +:+ "/image") (Some "POST")) /\
  sends_at_most (add_scene self scene) 1
    (request_to (client self) (_url_base self +:+ "/scene") (Some "POST")) /\
  sends_at_most (get_timeline TimelineResponse_results self page_num) 1
    (request_to (client self) (_url_base self +:+ "/timeline") (Some "GET")) /\
  sends_at_most (find_images_by_wwt_url (client self) wwt_url) 1
    (request_to (client self) "/images/find-by-legacy-url" None).
Proof.
  split; [unfold get; sends_one|].
  split; [unfold permissions; sends_one|].
  split; [unfold stats; sends_one|].
  split; [unfold scene_info; sends_one|].
  split; [unfold update; sends_one|].
  split; [apply add_image_sends|].
  split.
  { unfold add_image_from_set.
    destruct (negb _); [apply (sends_weaken _ 0); [lia|apply sends_lift]|].
    destruct (negb _); [apply (sends_weaken _ 0); [lia|apply sends_lift]|].
    apply add_image_sends. }
  split; [unfold add_scene; sends_one|].
  split; [unfold get_timeline; sends_one|].
  apply find_images_sends.
Qed.

Lemma lookup_layers_sends self isets layers :
  sends_at_most (lookup_layers self isets layers) (length isets)
    (request_to (client self) "/images/find-by-legacy-url" None).
Proof.
  revert layers. induction isets as [|[iset|] isets IH]; intros layers;
    cbn [lookup_layers length].
  - apply sends_ret.
  - apply (sends_bind _ _ 1 (length isets)); [apply find_images_sends|].
    intros [|hit hits]; [|apply IH].
    apply (sends_weaken _ 0); [lia|apply sends_lift].
  - apply (sends_weaken _ (length isets)); [lia|apply IH].
Qed.

(** X10: [add_scene_from_place] makes lookup requests only, at most one for
    each of the three image sets of the place: whatever the place and the
    answers of the server, it posts no scene. *)
Theorem add_scene_from_place_sends_lookups_only (self : HandleClient)
    (place : Place.t) :
  sends_at_most (add_scene_from_place self place) 3
    (request_to (client self) "/images/find-by-legacy-url" None).
Proof.
  unfold add_scene_from_place.
  apply (sends_bind_last _ _ 3); [apply lookup_layers_sends|].
  intros layers. unfold bind at 1. rewrite ScenePlace_new_zoom_deg.
  intros trace. exists []. rewrite app_nil_r. repeat split; auto.
Qed.

End FacadeRequests.

(** ** Page arguments, whatever they are *)

Section FacadeValidation.

Context {collaborators : Collaborators}.
Context {scene_info_response_json : DataclassJson SceneInfoResponse.t}.
Context {TimelineResponse : Type}.
Context (TimelineResponse_results : TimelineResponse -> list Data.SceneHydrated.t).
Context {timeline_response_json : DataclassJson TimelineResponse}.





End FacadeValidation.

(** ** Failures *)

Section FacadeFailures.

Context {collaborators : Collaborators}.
Context {find_request_json : DataclassJson Cx.FindImagesByLegacyRequest.t}.
Context {find_response_json : DataclassJson Cx.FindImagesByLegacyResponse.t}.
Context {handle_info_json : DataclassJson Data.HandleInfo.t}.
Context {handle_permissions_json : DataclassJson Data.HandlePermissions.t}.
Context {handle_stats_json : DataclassJson Data.HandleStats.t}.
Context {scene_info_response_json : DataclassJson SceneInfoResponse.t}.
Context {handle_update_json : DataclassJson Data.HandleUpdate.t}.
Context {add_image_request_json : DataclassJson AddImageRequest.t}.
Context {add_image_response_json : DataclassJson AddImageResponse.t}.
Context {add_scene_request_json : DataclassJson AddSceneRequest.t}.
Context {add_scene_response_json : DataclassJson AddSceneResponse.t}.
Context {TimelineResponse : Type}.
Context (TimelineResponse_results : TimelineResponse -> list Data.SceneHydrated.t).
Context {timeline_response_json : DataclassJson TimelineResponse}.

Ltac fails_plain :=
  split;
  [ intros trace e trace' Hex; unfold bind, lift; now rewrite Hex
  | intros trace resp trace' e Hex Hj; unfold bind, lift;
    rewrite Hex; cbn beta iota; now rewrite Hj ].

Ltac fails_body :=
  split;
  [ intros trace e trace' Hex; unfold bind, lift in *;
    match type of Hex with
    | context [_strip_nulls_in_place ?d ?h ?l] =>
        destruct (_strip_nulls_in_place d h l) as [?|?]; [now inversion Hex|]
    end; cbn beta iota in *; now rewrite Hex
  | intros trace resp trace' e Hex Hj; unfold bind, lift in *;
    match type of Hex with
    | context [_strip_nulls_in_place ?d ?h ?l] =>
        destruct (_strip_nulls_in_place d h l) as [?|?]; [discriminate|]
    end; cbn beta iota in *; rewrite Hex; cbn beta iota; now rewrite Hj ].

Lemma scene_info_fails_with self n m :
  (0 <= n)%Z -> (1 <= m <= 100)%Z ->
  fails_with (scene_info self (VInt n) (Some (VInt m)))
    (_send_and_check (client self) (_url_base self +:+ "/sceneinfo")
       default_scopes (Some "GET") (Some [("page", n); ("pagesize", m)]) None).
Proof.
  intros Hn Hm. unfold scene_info.
  rewrite (page_num_check (VInt n) n eq_refl).
  rewrite (page_size_check (default (VInt 10) (Some (VInt m))) m eq_refl).
  replace (0 <=? n)%Z with true by (symmetry; apply Z.leb_le; lia).
  replace ((1 <=? m)%Z && (m <=? 100)%Z) with true
    by (symmetry; apply andb_true_iff; split; apply Z.leb_le; lia).
  fails_plain.
Qed.

Lemma get_timeline_fails_with self n :
  (0 <= n)%Z ->
  fails_with (get_timeline TimelineResponse_results self (VInt n))
    (_send_and_check (client self) (_url_base self +:+ "/timeline")
       default_scopes (Some "GET") (Some [("page", n)]) None).
Proof.
  intros Hn. unfold get_timeline.
  rewrite (page_num_check (VInt n) n eq_refl).
  replace (0 <=? n)%Z with true by (symmetry; apply Z.leb_le; lia).
  fails_plain.
Qed.

(** X12: no operation swallows a failure.  When the transport raises,
    [_send_and_check] raises the same exception; and in every operation
    that makes a request, an exception of the exchange (of the transport,
    of [raise_for_status], or of the preparation of the body) and an
    exception of [Response.json()] come out as they are, with nothing more
    sent. *)
Theorem operations_propagate_failures (self : HandleClient)
    (updates : Data.HandleUpdate.t) (image : AddImageRequest.t)
    (scene : AddSceneRequest.t) (wwt_url : string) :
  (forall rel_url scopes http_method params json trace e,
     send_request trace
       {| req_url := api_url (_config (client self)) +:+ rel_url;
          req_new_token := true;
          req_scopes := scopes;
          req_http_method := http_method;
          req_params := params;
          req_json := json |} = inl e ->
     fst (_send_and_check (client self) rel_url scopes http_method params json
            trace) = inl e) /\
  fails_with (get self)
    (_send_and_check (client self) (_url_base self) default_scopes
       (Some "GET") None None) /\
  fails_with (permissions self)
    (_send_and_check (client self) (_url_base self +:+ "/permissions")
       default_scopes (Some "GET") None None) /\
  fails_with (stats self)
    (_send_and_check (client self) (_url_base self +:+ "/stats")
       default_scopes (Some "GET") None None) /\
  (forall n m : Z,
     (0 <= n)%Z -> (1 <= m <= 100)%Z ->
     fails_with (scene_info self (VInt n) (Some (VInt m)))
       (_send_and_check (client self) (_url_base self +:+ "/sceneinfo")
          default_scopes (Some "GET")
          (Some [("page", n); ("pagesize", m)]) None)) /\
  fails_with (update self updates)
    (body <~ lift (_strip_nulls_in_place stack_depth
                     (fst (to_dict updates)) (snd (to_dict updates))) ;;
     _send_and_check (client self) (_url_base self) default_scopes
       (Some "PATCH") None (Some body)) /\
  fails_with (add_image self image)
    (body <~ lift (_strip_nulls_in_place stack_depth
                     (fst (to_dict image)) (snd (to_dict image))) ;;
     _send_and_check (client self) (_url_base self +:+ "/image")
       default_scopes (Some "POST") None (Some body)) /\
  fails_with (add_scene self scene)
    (body <~ lift (_strip_nulls_in_place stack_depth
                     (fst (to_dict scene)) (snd (to_dict scene))) ;;
     _send_and_check (client self) (_url_base self +:+ "/scene")
       default_scopes (Some "POST") None (Some body)) /\
  (forall n : Z,
     (0 <= n)%Z ->
     fails_with (get_timeline TimelineResponse_results self (VInt n))
       (_send_and_check (client self) (_url_base self +:+ "/timeline")
          default_scopes (Some "GET") (Some [("page", n)]) None)) /\
  fails_with (find_images_by_wwt_url (client self) wwt_url)
    (body <~ lift (_strip_nulls_in_place stack_depth
                     (fst (to_dict
                        {| Cx.FindImagesByLegacyRequest.wwt_legacy_url := wwt_url |}))
                     (snd (to_dict
                        {| Cx.FindImagesByLegacyRequest.wwt_legacy_url := wwt_url |}))) ;;
     _send_and_check (client self) "/images/find-by-legacy-url"
       default_scopes None None (Some body)).
Proof.
  split.
  { intros rel_url scopes http_method params json trace e He.
    unfold _send_and_check. now rewrite He. }
  split; [unfold get; fails_plain|].
  split; [unfold permissions; fails_plain|].
  split; [unfold stats; fails_plain|].
  split; [intros n m; apply scene_info_fails_with|].
  split; [unfold update; fails_body|].
  split; [unfold add_image; fails_body|].
  split; [unfold add_scene; fails_body|].
  split; [intros n; apply get_timeline_fails_with|].
  unfold find_images_by_wwt_url. fails_body.
Qed.

(** X13: whenever [update] returns, what it returns is the body of the
    response, changed in place.  The body of the update was stripped, the
    request was made with it and answered, the answer decoded to a
    dictionary with an ["error"] key, and the result is the reference to
    that very dictionary in the store of the decoded answer, where it now
    holds the items of the answer other than ["error"], in their order;
    nothing else of that store has changed. *)
Theorem update_returns_body_without_error (self : HandleClient)
    (updates : Data.HandleUpdate.t) (trace trace' : list request)
    (h' : store) (v : val) :
  update self updates trace = (inr (h', v), trace') ->
  exists body resp h l items,
    _strip_nulls_in_place stack_depth
      (fst (to_dict updates)) (snd (to_dict updates)) = inr body /\
    _send_and_check (client self) (_url_base self) default_scopes
      (Some "PATCH") None (Some body) trace = (inr resp, trace') /\
    Response_json resp = inr (h, VRef l) /\
    h !! l = Some (ODict items) /\
    In "error" (map fst items) /\
    v = VRef l /\
    h' = <[l := ODict (List.filter
                         (fun p => negb (String.eqb (fst p) "error")) items)]> h /\
    ~ In "error"
        (map fst (List.filter
                    (fun p => negb (String.eqb (fst p) "error")) items)).
Proof.
  unfold update, bind, lift, ret.
  destruct (_strip_nulls_in_place _ _ _) as [e|body]; [discriminate|].
  destruct (_send_and_check _ _ _ _ _ _ trace) as [[e|resp] t] eqn:Hsend;
    [discriminate|].
  destruct (Response_json resp) as [e|[h j]] eqn:Hjson; [discriminate|].
  unfold pop_error, dict_del. cbn [fst snd].
  destruct j as [| | | | |l]; try discriminate.
  destruct (h !! l) as [[items|elems]|] eqn:Hl; try discriminate.
  destruct (existsb _ items) eqn:Hex; [|discriminate].
  intros [= <- <- <-]. exists body, resp, h, l, items.
  split; [reflexivity|]. split; [exact Hsend|]. split; [exact Hjson|].
  split; [exact Hl|]. split.
  - apply List.existsb_exists in Hex. destruct Hex as [p [Hin Hp]].
    apply String.eqb_eq in Hp. rewrite <- Hp. now apply List.in_map.
  - split; [reflexivity|]. split; [reflexivity|].
    intros Hin. apply List.in_map_iff in Hin. destruct Hin as [p [Hp Hin]].
    apply List.filter_In in Hin. destruct Hin as [_ Hne].
    rewrite Hp, String.eqb_refl in Hne. discriminate.
Qed.

End FacadeFailures.

(** ** When [_strip_nulls_in_place] returns *)

Section StripReturns.

Lemma well_nested_is_dict h d : well_nested h d -> is_dict h d.
Proof. intros [d' items Hd _]. now exists items. Qed.

Lemma visited_refl h : visited h h.
Proof. intros l. now left. Qed.

Lemma visited_is_dict h h' l : visited h h' -> is_dict h' l <-> is_dict h l.
Proof.
  intros Hv. destruct (Hv l) as [Heq|[Hw Hd]].
  - unfold is_dict. now rewrite Heq.
  - split; intros _; [now apply well_nested_is_dict|exact Hd].
Qed.

Lemma well_nested_visited h h' c :
  visited h h' -> well_nested h' c -> well_nested h c.
Proof.
  intros Hv. induction 1 as [c items Hc Hch IH].
  destruct (Hv c) as [Heq|[Hw _]]; [|exact Hw].
  apply (well_nested_intro _ c items); [now rewrite <- Heq|].
  intros key c' Hin Hd. apply (IH key c' Hin).
  now apply (visited_is_dict h h' c' Hv).
Qed.

Lemma visited_trans h h1 h2 :
  visited h h1 -> visited h1 h2 -> visited h h2.
Proof.
  intros H1 H2 l. destruct (H2 l) as [Heq|[Hw Hd]].
  - destruct (H1 l) as [Heq1|[Hw1 Hd1]].
    + left. congruence.
    + right. split; [exact Hw1|]. unfold is_dict in *. now rewrite Heq.
  - right. split; [|exact Hd]. now apply (well_nested_visited h h1).
Qed.

Lemma del_keys_frame keys : forall h d h',
  del_keys h d keys = inr h' ->
  (forall l, l <> d -> h' !! l = h !! l) /\ (is_dict h d -> is_dict h' d).
Proof.
  induction keys as [|key keys IH]; intros h d h'; simpl.
  - intros [= <-]. auto.
  - destruct (h !! d) as [[items|?]|] eqn:Hd; try discriminate.
    destruct (dict_del key items) as [items'|]; [|discriminate].
    intros Hrun. destruct (IH _ _ _ Hrun) as [Hfr Hdict]. split.
    + intros l Hl. rewrite (Hfr l Hl). apply list_lookup_insert_ne. congruence.
    + intros _. apply Hdict. exists items'.
      apply list_lookup_insert_eq. eapply lookup_lt_Some; eauto.
Qed.

(** The calls of the first loop, once those of depth [depth] are known to
    return only on dictionaries of well-founded nesting. *)
Lemma strip_items_returns depth :
  (forall h d r, _strip_nulls_in_place depth h d = inr r ->
     well_nested h d /\ visited h (fst r)) ->
  forall items h0 hc acc hr keys,
    visited h0 hc ->
    strip_items (strip_call depth) items hc acc = inr (hr, keys) ->
    visited h0 hr /\
    (forall key c, In (key, VRef c) items -> is_dict h0 c -> well_nested h0 c).
Proof.
  intros IHd. induction items as [|[key v] its IH];
    intros h0 hc acc hr keys Hv; simpl.
  - intros [= <- <-]. split; [exact Hv|]. intros key c [].
  - destruct v as [| b | n | x | s | l].
    1-5: intros Hrun; destruct (IH _ _ _ _ _ Hv Hrun) as [Hv' Hch];
         (split; [exact Hv'|]); intros k c [Heq|Hin];
         [discriminate|now apply (Hch k c)].
    destruct (hc !! l) as [[itl|?]|] eqn:Hl.
    + unfold strip_call at 1.
      destruct (_strip_nulls_in_place depth hc l) as [e|[h1 x]] eqn:Hcall;
        [discriminate|].
      destruct (IHd _ _ _ Hcall) as [Hw Hv1]. simpl in Hv1.
      assert (Hv01 := visited_trans _ _ _ Hv Hv1).
      intros Hrun. destruct (IH _ _ _ _ _ Hv01 Hrun) as [Hv' Hch].
      split; [exact Hv'|]. intros k c [Heq|Hin]; [|now apply (Hch k c)].
      injection Heq as _ <-. intros _.
      now apply (well_nested_visited h0 hc).
    + intros Hrun. destruct (IH _ _ _ _ _ Hv Hrun) as [Hv' Hch].
      split; [exact Hv'|]. intros k c [Heq|Hin]; [|now apply (Hch k c)].
      injection Heq as _ <-. intros Hd.
      apply (visited_is_dict h0 hc l Hv) in Hd. destruct Hd as [its' Hd].
      congruence.
    + intros Hrun. destruct (IH _ _ _ _ _ Hv Hrun) as [Hv' Hch].
      split; [exact Hv'|]. intros k c [Heq|Hin]; [|now apply (Hch k c)].
      injection Heq as _ <-. intros Hd.
      apply (visited_is_dict h0 hc l Hv) in Hd. destruct Hd as [its' Hd].
      congruence.
Qed.

(** A call that returns was made on a dictionary of well-founded
    nesting. *)
Lemma strip_returns depth : forall h d r,
  _strip_nulls_in_place depth h d = inr r ->
  well_nested h d /\ visited h (fst r).
Proof.
  induction depth as [|n IH]; intros h d r; [discriminate|].
  rewrite strip_unfold.
  destruct (h !! d) as [[items|?]|] eqn:Hd; try discriminate.
  destruct (strip_items (strip_call n) items h []) as [e|[h1 keys]] eqn:Hloop;
    [discriminate|].
  destruct (del_keys h1 d keys) as [e|h2] eqn:Hdel; [discriminate|].
  intros [= <-]. simpl.
  destruct (strip_items_returns n IH _ _ _ _ _ _ (visited_refl h) Hloop)
    as [Hv1 Hch].
  assert (Hw : well_nested h d) by (now apply (well_nested_intro _ d items)).
  split; [exact Hw|].
  destruct (del_keys_frame _ _ _ _ Hdel) as [Hfr Hdict].
  intros l. destruct (Nat.eq_dec l d) as [->|Hne].
  - right. split; [exact Hw|]. apply Hdict.
    apply (visited_is_dict h h1 d Hv1). now exists items.
  - rewrite (Hfr l Hne). destruct (Hv1 l) as [Heq|[Hwl Hdl]]; [now left|].
    right. split; [exact Hwl|]. unfold is_dict. now rewrite (Hfr l Hne).
Qed.

Lemma well_nested_finite h d :
  keys_distinct h -> well_nested h d -> finite_dict h d.
Proof.
  intros Hk. induction 1 as [d items Hd Hch IH].
  apply (finite_dict_intro _ d items); [exact Hd|now apply (Hk d)|exact IH].
Qed.

Lemma finite_well_nested h d : finite_dict h d -> well_nested h d.
Proof.
  induction 1 as [d items Hd Hnd Hch IH].
  now apply (well_nested_intro _ d items).
Qed.

Lemma well_nested_nested h d e :
  well_nested h d -> nested_in h d e -> well_nested h e.
Proof.
  intros Hw Hn. induction Hn as [d|d c e Hdc Hce IH]; [exact Hw|].
  apply IH. destruct Hw as [d items Hd Hch].
  destruct Hdc as [its [key [Hd' [Hin Hisd]]]].
  rewrite Hd in Hd'. injection Hd' as <-. now apply (Hch key c).
Qed.

Lemma keys_distinct_cleaned h h' :
  cleaned h h' -> keys_distinct h -> keys_distinct h'.
Proof.
  intros Hc Hk l items Hl. destruct (Hc l) as [Heq|[its [H1 H2]]].
  - apply (Hk l). now rewrite <- Heq.
  - rewrite Hl in H2. injection H2 as ->.
    apply NoDup_keys_filter. now apply (Hk l).
Qed.

(** With distinct keys, a call that returns has cleaned the store. *)
Lemma strip_returns_cleaned depth h d h' d' :
  keys_distinct h ->
  _strip_nulls_in_place depth h d = inr (h', d') -> cleaned h h'.
Proof.
  intros Hk Hrun. destruct (strip_returns _ _ _ _ Hrun) as [Hw _].
  destruct (strip_spec h d (well_nested_finite _ _ Hk Hw) h (cleaned_refl h))
    as [m [h3 [Hrun3 [Hc _]]]].
  assert (H1 := strip_depth_le _ (Nat.max depth m) _ _ _
                  (Nat.le_max_l _ _) Hrun).
  assert (H2 := strip_depth_le _ (Nat.max depth m) _ _ _
                  (Nat.le_max_r _ _) Hrun3).
  rewrite H1 in H2. now injection H2 as -> _.
Qed.

(** The second loop does not fail where the call can return at all. *)
Lemma strip_completes depth h d items h1 keys m r :
  h !! d = Some (ODict items) ->
  strip_items (strip_call depth) items h [] = inr (h1, keys) ->
  _strip_nulls_in_place m h d = inr r ->
  exists h2, del_keys h1 d keys = inr h2.
Proof.
  intros Hd Hloop Hrun.
  assert (H1 := strip_depth_le _ (S (Nat.max depth m)) _ _ _
                  (Nat.le_trans _ _ _ (Nat.le_max_r depth m)
                     (Nat.le_succ_diag_r _)) Hrun).
  rewrite strip_unfold, Hd in H1.
  rewrite (strip_items_mono (strip_call depth) (strip_call (Nat.max depth m))
             (fun h' l r' => strip_call_le _ _ h' l r' (Nat.le_max_l _ _))
             _ _ _ _ Hloop) in H1.
  destruct (del_keys h1 d keys) as [e|h2]; [discriminate|now exists h2].
Qed.

Lemma strip_items_raises depth :
  (forall h d e, keys_distinct h -> is_dict h d ->
     _strip_nulls_in_place depth h d = inl e -> e = RecursionError) ->
  forall items hc acc e,
    keys_distinct hc ->
    strip_items (strip_call depth) items hc acc = inl e ->
    e = RecursionError.
Proof.
  intros IHd. induction items as [|[key v] its IH]; intros hc acc e Hk; simpl;
    [discriminate|].
  destruct v as [| b | n | x | s | l]; try (now apply IH).
  destruct (hc !! l) as [[itl|?]|] eqn:Hl; try (now apply IH).
  unfold strip_call at 1.
  destruct (_strip_nulls_in_place depth hc l) as [e'|[h1 x]] eqn:Hcall.
  - intros [= <-]. apply (IHd hc l); [exact Hk|now exists itl|exact Hcall].
  - apply IH. apply (keys_distinct_cleaned hc); [|exact Hk].
    now apply (strip_returns_cleaned depth hc l h1 x).
Qed.

(** On a dictionary with distinct keys all through the store, the one
    exception is that of the exhausted stack. *)
Lemma strip_raises depth : forall h d e,
  keys_distinct h -> is_dict h d ->
  _strip_nulls_in_place depth h d = inl e -> e = RecursionError.
Proof.
  induction depth as [|n IH]; intros h d e Hk [items Hd];
    [now intros [= <-]|].
  rewrite strip_unfold, Hd.
  destruct (strip_items (strip_call n) items h []) as [e'|[h1 keys]] eqn:Hloop.
  - intros [= <-]. now apply (strip_items_raises n IH items h []).
  - destruct (strip_items_returns n (strip_returns n) _ _ _ _ _ _
                (visited_refl h) Hloop) as [_ Hch].
    assert (Hw : well_nested h d) by (now apply (well_nested_intro _ d items)).
    destruct (strip_spec h d (well_nested_finite _ _ Hk Hw) h (cleaned_refl h))
      as [m [h3 [Hrun3 _]]].
    destruct (strip_completes n h d items h1 keys m _ Hd Hloop Hrun3)
      as [h2 Hdel].
    now rewrite Hdel.
Qed.

End StripReturns.

(** X4: when [_strip_nulls_in_place] returns and what it raises.  In a
    store whose dictionaries have distinct keys, a call on a dictionary
    returns, for some depth of stack, exactly when the nesting of
    dictionaries below it is well founded; the only exception it raises is
    [RecursionError]; and when a dictionary nested in it, at any depth,
    contains itself, at any depth, the call raises [RecursionError] whatever
    the stack, and so never returns. *)
Theorem strip_nulls_in_place_returns_iff (h : store) (d : loc) :
  keys_distinct h -> is_dict h d ->
  ((exists depth r, _strip_nulls_in_place depth h d = inr r)
   <-> well_nested h d) /\
  (forall depth e, _strip_nulls_in_place depth h d = inl e ->
     e = RecursionError) /\
  (forall e c, nested_in h d e -> dict_child h e c -> nested_in h c e ->
     forall depth, _strip_nulls_in_place depth h d = inl RecursionError).
Proof.
  intros Hk Hd.
  assert (Hret : forall depth r,
    _strip_nulls_in_place depth h d = inr r -> well_nested h d).
  { intros depth r Hrun. now destruct (strip_returns _ _ _ _ Hrun). }
  split; [split|split].
  - intros [depth [r Hrun]]. exact (Hret depth r Hrun).
  - intros Hw.
    destruct (strip_spec h d (well_nested_finite _ _ Hk Hw) h (cleaned_refl h))
      as [m [h3 [Hrun3 _]]].
    now exists m, (h3, d).
  - intros depth e. now apply strip_raises.
  - intros e c Hde Hec Hce depth.
    destruct (_strip_nulls_in_place depth h d) as [ex|r] eqn:Hrun.
    + now rewrite (strip_raises _ _ _ _ Hk Hd Hrun).
    + exfalso.
      assert (Hw := well_nested_nested _ _ _ (Hret depth r Hrun) Hde).
      exact (finite_dict_acyclic h e (well_nested_finite _ _ Hk Hw) c Hec Hce).
Qed.

Lemma cyclic_store_keys_distinct : keys_distinct cyclic_store.
Proof.
  intros [|l] items Hl; [|destruct l; discriminate].
  injection Hl as <-. apply (bool_decide_unpack _). reflexivity.
Qed.

Lemma strip_nulls_in_place_returns_iff_witness :
  (keys_distinct cyclic_store /\ is_dict cyclic_store 0) /\
  forall depth e,
    _strip_nulls_in_place depth cyclic_store 0 = inl e -> e = RecursionError.
Proof.
  assert (Hd : is_dict cyclic_store 0) by (eexists; reflexivity).
  split; [split; [exact cyclic_store_keys_distinct|exact Hd]|].
  exact (proj1 (proj2 (strip_nulls_in_place_returns_iff cyclic_store 0
                         cyclic_store_keys_distinct Hd))).
Defined.

(** ** The stack that [_strip_nulls_in_place] needs *)

Section StripStack.

Lemma cleaned_trans h h1 h2 : cleaned h h1 -> cleaned h1 h2 -> cleaned h h2.
Proof.
  intros H1 H2 l. destruct (H2 l) as [Heq|[its1 [Ha Hb]]].
  - destruct (H1 l) as [Heq1|[its [Hc Hd]]]; [left; congruence|].
    right. exists its. split; [exact Hc|congruence].
  - destruct (H1 l) as [Heq1|[its [Hc Hd]]].
    + right. exists its1. split; [congruence|exact Hb].
    + right. exists its. split; [exact Hc|].
      rewrite Hd in Ha. injection Ha as <-. now rewrite Hb, clean_idem.
Qed.

Lemma nested_within_cleaned h h' k d :
  cleaned h h' -> nested_within h' k d <-> nested_within h k d.
Proof.
  intros Hc. split.
  - induction 1 as [k d items Hd Hch IH].
    destruct (Hc d) as [Heq|[its [H1 H2]]].
    + apply (nested_within_intro _ k d items); [now rewrite <- Heq|].
      intros key c Hin Hisd. apply (IH key c Hin).
      now apply (cleaned_is_dict _ _ _ Hc).
    + rewrite Hd in H2. injection H2 as ->.
      apply (nested_within_intro _ k d its); [exact H1|].
      intros key c Hin Hisd. apply (IH key c); [now apply in_clean_ref|].
      now apply (cleaned_is_dict _ _ _ Hc).
  - induction 1 as [k d items Hd Hch IH].
    destruct (Hc d) as [Heq|[its [H1 H2]]].
    + apply (nested_within_intro _ k d items); [now rewrite Heq|].
      intros key c Hin Hisd. apply (IH key c Hin).
      now apply (cleaned_is_dict _ _ _ Hc).
    + rewrite Hd in H1. injection H1 as <-.
      apply (nested_within_intro _ k d (clean items)); [exact H2|].
      intros key c Hin Hisd.
      apply (IH key c); [now apply (proj1 (in_clean_ref _ _ _))|].
      now apply (cleaned_is_dict _ _ _ Hc).
Qed.

Lemma nested_within_well h k d : nested_within h k d -> well_nested h d.
Proof.
  induction 1 as [k d items Hd Hch IH]. now apply (well_nested_intro _ d items).
Qed.

Lemma strip_items_within depth :
  (forall h d r, keys_distinct h ->
     _strip_nulls_in_place depth h d = inr r -> nested_within h depth d) ->
  forall items h0 hc acc r,
    keys_distinct h0 -> cleaned h0 hc ->
    strip_items (strip_call depth) items hc acc = inr r ->
    forall key c, In (key, VRef c) items -> is_dict h0 c ->
      nested_within h0 depth c.
Proof.
  intros IHd. induction items as [|[key v] its IH];
    intros h0 hc acc r Hk Hc; simpl; [intros _ key c []|].
  destruct v as [| b | n | x | s | l].
  1-5: intros Hrun k c [Heq|Hin];
       [discriminate|now apply (IH _ _ _ _ Hk Hc Hrun k c)].
  assert (Hkc := keys_distinct_cleaned _ _ Hc Hk).
  destruct (hc !! l) as [[itl|?]|] eqn:Hl.
  - unfold strip_call at 1.
    destruct (_strip_nulls_in_place depth hc l) as [e|[h1 x]] eqn:Hcall;
      [discriminate|].
    assert (Hc1 := cleaned_trans _ _ _ Hc
                     (strip_returns_cleaned _ _ _ _ _ Hkc Hcall)).
    intros Hrun k c [Heq|Hin]; [|now apply (IH _ _ _ _ Hk Hc1 Hrun k c)].
    injection Heq as _ <-. intros _.
    apply (nested_within_cleaned h0 hc _ _ Hc).
    now apply (IHd hc l (h1, x)).
  - intros Hrun k c [Heq|Hin]; [|now apply (IH _ _ _ _ Hk Hc Hrun k c)].
    injection Heq as _ <-. intros Hd.
    apply (cleaned_is_dict _ _ _ Hc) in Hd. destruct Hd as [its' Hd].
    congruence.
  - intros Hrun k c [Heq|Hin]; [|now apply (IH _ _ _ _ Hk Hc Hrun k c)].
    injection Heq as _ <-. intros Hd.
    apply (cleaned_is_dict _ _ _ Hc) in Hd. destruct Hd as [its' Hd].
    congruence.
Qed.

(** A call that returns within [depth] frames was made on a dictionary
    nested at most [depth] deep. *)
Lemma strip_within depth : forall h d r,
  keys_distinct h ->
  _strip_nulls_in_place depth h d = inr r -> nested_within h depth d.
Proof.
  induction depth as [|n IH]; intros h d r Hk; [discriminate|].
  rewrite strip_unfold.
  destruct (h !! d) as [[items|?]|] eqn:Hd; try discriminate.
  destruct (strip_items (strip_call n) items h []) as [e|r1] eqn:Hloop;
    [discriminate|].
  intros _. apply (nested_within_intro _ n d items); [exact Hd|].
  exact (strip_items_within n IH items h h [] r1 Hk (cleaned_refl h) Hloop).
Qed.

Lemma strip_items_runs depth :
  (forall h d, keys_distinct h -> nested_within h depth d ->
     exists r, _strip_nulls_in_place depth h d = inr r) ->
  forall items h0 hc acc,
    keys_distinct h0 -> cleaned h0 hc ->
    (forall key c, In (key, VRef c) items -> is_dict h0 c ->
       nested_within h0 depth c) ->
    exists r, strip_items (strip_call depth) items hc acc = inr r.
Proof.
  intros IHd. induction items as [|[key v] its IH];
    intros h0 hc acc Hk Hc Hch; simpl; [eauto|].
  assert (Hch' : forall key c, In (key, VRef c) its -> is_dict h0 c ->
                   nested_within h0 depth c).
  { intros k c Hin. apply (Hch k c). now right. }
  destruct v as [| b | n | x | s | l]; try (now apply (IH h0)).
  assert (Hkc := keys_distinct_cleaned _ _ Hc Hk).
  destruct (hc !! l) as [[itl|?]|] eqn:Hl; try (now apply (IH h0)).
  assert (Hw : nested_within hc depth l).
  { apply (nested_within_cleaned h0 hc _ _ Hc).
    apply (Hch key l); [now left|].
    apply (cleaned_is_dict _ _ _ Hc). now exists itl. }
  destruct (IHd hc l Hkc Hw) as [[h1 x] Hcall].
  unfold strip_call at 1. rewrite Hcall.
  apply (IH h0); [exact Hk| |exact Hch'].
  exact (cleaned_trans _ _ _ Hc (strip_returns_cleaned _ _ _ _ _ Hkc Hcall)).
Qed.

(** A stack of [depth] frames is enough for a dictionary nested at most
    [depth] deep. *)
Lemma strip_runs depth : forall h d,
  keys_distinct h -> nested_within h depth d ->
  exists r, _strip_nulls_in_place depth h d = inr r.
Proof.
  induction depth as [|n IH]; intros h d Hk Hw; [inversion Hw|].
  assert (Hfin := well_nested_finite _ _ Hk (nested_within_well _ _ _ Hw)).
  inversion Hw as [k d' items Hd Hch]; subst.
  destruct (strip_items_runs n IH items h h [] Hk (cleaned_refl h) Hch)
    as [[h1 keys] Hloop].
  destruct (strip_spec h d Hfin h (cleaned_refl h)) as [m [h3 [Hrun3 _]]].
  destruct (strip_completes n h d items h1 keys m _ Hd Hloop Hrun3)
    as [h2 Hdel].
  exists (h2, d). now rewrite strip_unfold, Hd, Hloop, Hdel.
Qed.

End StripStack.

(** X14: the stack that [_strip_nulls_in_place] needs is the depth of the
    nesting.  In a store whose dictionaries have distinct keys, a call on a
    dictionary with [depth] frames left returns exactly when the
    dictionaries below it are nested at most [depth] deep, and raises
    [RecursionError] exactly when they are not. *)
Theorem strip_nulls_in_place_stack (h : store) (d : loc) (depth : nat) :
  keys_distinct h -> is_dict h d ->
  ((exists r, _strip_nulls_in_place depth h d = inr r)
   <-> nested_within h depth d) /\
  (_strip_nulls_in_place depth h d = inl RecursionError
   <-> ~ nested_within h depth d).
Proof.
  intros Hk Hd. split; split.
  - intros [r Hrun]. exact (strip_within _ _ _ _ Hk Hrun).
  - now apply strip_runs.
  - intros Hrun Hw. destruct (strip_runs _ _ _ Hk Hw) as [r Hr]. congruence.
  - intros Hw.
    destruct (_strip_nulls_in_place depth h d) as [e|r] eqn:Hrun.
    + now rewrite (strip_raises _ _ _ _ Hk Hd Hrun).
    + destruct Hw. exact (strip_within _ _ _ _ Hk Hrun).
Qed.

Lemma sample_store_keys_distinct : keys_distinct sample_store.
Proof.
  intros l items Hl.
  do 4 (destruct l as [|l];
        [try discriminate; injection Hl as <-;
         apply (bool_decide_unpack _); reflexivity|]).
  discriminate.
Qed.

(** [sample_store], whose dictionaries are nested two deep, needs two
    frames. *)
Lemma strip_nulls_in_place_stack_witness :
  (keys_distinct sample_store /\ is_dict sample_store 0) /\
  ((exists r, _strip_nulls_in_place 1 sample_store 0 = inr r)
   <-> nested_within sample_store 1 0) /\
  (_strip_nulls_in_place 1 sample_store 0 = inl RecursionError
   <-> ~ nested_within sample_store 1 0).
Proof.
  assert (Hd : is_dict sample_store 0) by (eexists; reflexivity).
  split; [split; [exact sample_store_keys_distinct|exact Hd]|].
  exact (strip_nulls_in_place_stack sample_store 0 1
           sample_store_keys_distinct Hd).
Defined.

Lemma clean_no_None items :
  (forall key v, In (key, v) items -> v <> VNone) -> clean items = items.
Proof.
  unfold clean. induction items as [|[k v] its IH]; intros Hv; simpl;
    [reflexivity|].
  assert (Hne : v <> VNone) by (apply (Hv k); now left).
  destruct v; try contradiction; simpl; f_equal; apply IH;
    intros key w Hin; apply (Hv key); now right.
Qed.

(** X15: [_strip_nulls_in_place] leaves the store exactly as it was if and
    only if there was nothing to remove: on a dictionary of finite nesting,
    the call returns the store unchanged exactly when no dictionary nested
    in it binds a key to [None]. *)
Theorem strip_nulls_in_place_unchanged (h : store) (d : loc) :
  finite_dict h d ->
  (exists depth, _strip_nulls_in_place depth h d = inr (h, d))
  <-> (forall e, nested_in h d e -> no_None_at h e).
Proof.
  intros Hfin.
  destruct (strip_spec h d Hfin h (cleaned_refl h))
    as [m [h3 [Hrun3 [Hc [Hfr Hre]]]]].
  split.
  - intros [depth Hrun] e Hn.
    assert (H1 := strip_depth_le _ (Nat.max depth m) _ _ _
                    (Nat.le_max_l _ _) Hrun).
    assert (H2 := strip_depth_le _ (Nat.max depth m) _ _ _
                    (Nat.le_max_r _ _) Hrun3).
    rewrite H1 in H2. injection H2 as <-.
    exact (cleaned_at_no_None h h e (Hre e Hn)).
  - intros Hno. exists m. rewrite Hrun3. f_equal. f_equal.
    apply list_eq. intros l.
    destruct (Hfr l) as [Heq|[Hn [its [H1 H2]]]]; [exact Heq|].
    rewrite H1, H2. do 2 f_equal. apply clean_no_None.
    intros key v Hin. exact (Hno l Hn its key v H1 Hin).
Qed.

Lemma tidy_store_finite : finite_dict tidy_store 0.
Proof.
  assert (H1 : finite_dict tidy_store 1).
  { eapply finite_dict_intro; [reflexivity| |].
    - apply (bool_decide_unpack _). reflexivity.
    - intros key c [Hin|[]]; discriminate. }
  eapply finite_dict_intro; [reflexivity| |].
  - apply (bool_decide_unpack _). reflexivity.
  - intros key c Hin [items Hd]. simpl in Hin.
    destruct Hin as [Hin|[Hin|[Hin|[]]]]; try discriminate;
      injection Hin as _ <-; [exact H1|discriminate].
Qed.

Lemma strip_nulls_in_place_unchanged_witness :
  finite_dict tidy_store 0 /\
  ((exists depth, _strip_nulls_in_place depth tidy_store 0
                  = inr (tidy_store, 0))
   <-> (forall e, nested_in tidy_store 0 e -> no_None_at tidy_store e)).
Proof.
  split; [exact tidy_store_finite|].
  exact (strip_nulls_in_place_unchanged tidy_store 0 tidy_store_finite).
Defined.

(** [update] against a server that answers
    [{"error": false, "handle": "test", "display_name": "Test"}]. *)
Lemma update_returns_body_without_error_witness :
  update (collaborators := handle_info_transport)
    (handle_update_json := opaque_schema _) sample_handle sample_update []
  = (inr ([ODict [("handle", VStr "test"); ("display_name", VStr "Test")]],
          VRef 0),
     [update_request sample_handle ([ODict []], 0)]) /\
  exists body resp h l items,
    _strip_nulls_in_place (stack_depth (Collaborators := handle_info_transport))
      (fst (to_dict (DataclassJson := opaque_schema _) sample_update))
      (snd (to_dict (DataclassJson := opaque_schema _) sample_update))
    = inr body /\
    _send_and_check (collaborators := handle_info_transport)
      (client sample_handle) (_url_base sample_handle) default_scopes
      (Some "PATCH") None (Some body) []
    = (inr resp, [update_request sample_handle ([ODict []], 0)]) /\
    Response_json (Collaborators := handle_info_transport) resp
    = inr (h, VRef l) /\
    h !! l = Some (ODict items) /\
    In "error" (map fst items) /\
    VRef 0 = VRef l /\
    [ODict [("handle", VStr "test"); ("display_name", VStr "Test")]]
    = <[l := ODict (List.filter
                      (fun p => negb (String.eqb (fst p) "error")) items)]> h /\
    ~ In "error"
        (map fst (List.filter
                    (fun p => negb (String.eqb (fst p) "error")) items)).
Proof.
  assert (H : update (collaborators := handle_info_transport)
                (handle_update_json := opaque_schema _)
                sample_handle sample_update []
              = (inr ([ODict [("handle", VStr "test");
                              ("display_name", VStr "Test")]], VRef 0),
                 [update_request sample_handle ([ODict []], 0)]))
    by reflexivity.
  split; [exact H|].
  exact (update_returns_body_without_error
           (collaborators := handle_info_transport)
           (handle_update_json := opaque_schema _)
           sample_handle sample_update [] _ _ _ H).
Defined.
